(** * mcp_sec_scanner: the extraction and concurrent-audit pipeline

  A shallow embedding of [src/source_code/parse_python.py] (the marker
  function extractor) and [src/source_code/scan_code.py] (the worker
  with retry and backoff, the thread pool of [analyze_repo], the batch
  orchestrator and [main]), with the properties of the specification
  stated and proved over it.

  Conventions.
  - A Python [str] is a [string]; every character is one code point
    (so the line boundaries U+2028 and U+2029 of [str.splitlines] have
    no counterpart here).
  - Python integers are [Z]; list slices follow Python, including
    negative and out-of-range bounds.
  - A [dict] with a fixed set of keys is a record; a key that is only
    added later ([file_path], [analysis]) is an [option] field.  The
    [parameters] dict keeps its insertion order in an association list.
  - A Python [float] is a binary64 number, here the rational it
    denotes; an operation on floats is the exact operation followed by
    rounding to the nearest double, ties to even.
  - What the code obtains from a library or from outside ([ast.parse],
    [ast.unparse], [ast.get_docstring], [os.walk], the completion
    client, [random.uniform], the thread scheduler, the file system) is
    an argument of the definition that uses it. *)

From Stdlib Require Import Ascii String ZArith QArith Qround Lia Lqa.
From stdpp Require Import base list strings gmap pretty.
From Equations Require Import Equations.

Local Open Scope string_scope.
Local Open Scope nat_scope.
Local Open Scope list_scope.
Local Set Warnings "-register-all".

(** ** Python strings and lists *)

Module Py.

(** The one-character line boundaries of [str.splitlines] below 256:
    LF, VT, FF, FS, GS, RS and NEL.  CR is handled apart, since CR LF
    counts once. *)
Definition is_line_boundary (c : ascii) : bool :=
  let n := nat_of_ascii c in
  orb (Nat.eqb n 10) (orb (Nat.eqb n 11) (orb (Nat.eqb n 12)
  (orb (Nat.eqb n 28) (orb (Nat.eqb n 29) (orb (Nat.eqb n 30) (Nat.eqb n 133)))))).

Definition is_cr (c : ascii) : bool := Nat.eqb (nat_of_ascii c) 13.
Definition is_lf (c : ascii) : bool := Nat.eqb (nat_of_ascii c) 10.

(** [cur] is the line being read; a boundary closes it.  At the end of
    the text a pending non-empty line is closed, an empty one is not. *)
Fixpoint splitlines_from (cur : string) (s : string) : list string :=
  match s with
  | EmptyString => if String.eqb cur "" then [] else [cur]
  | String c rest =>
      if is_cr c then
        match rest with
        | String c' rest' =>
            if is_lf c' then cur :: splitlines_from "" rest'
            else cur :: splitlines_from "" rest
        | EmptyString => cur :: splitlines_from "" rest
        end
      else if is_line_boundary c then cur :: splitlines_from "" rest
      else splitlines_from (cur +:+ String c "") rest
  end.

Definition splitlines (s : string) : list string := splitlines_from "" s.

(** [sep.join(l)] *)
Fixpoint join (sep : string) (l : list string) : string :=
  match l with
  | [] => ""
  | [x] => x
  | x :: rest => x +:+ sep +:+ join sep rest
  end.

(** A slice bound as Python normalises it: a negative bound counts from
    the end, and the result is clamped to [0, len]. *)
Definition slice_bound (len i : Z) : Z :=
  if (i <? 0)%Z then Z.max (i + len) 0 else Z.min i len.

(** [l[i:j]] *)
Definition slice {A} (l : list A) (i j : Z) : list A :=
  let len := Z.of_nat (length l) in
  let lo := slice_bound len i in
  let hi := slice_bound len j in
  take (Z.to_nat (hi - lo)) (drop (Z.to_nat lo) l).

(** Truthiness of a [str] and of an [Optional[str]]. *)
Definition truthy (s : string) : bool := negb (String.eqb s "").
Definition truthy_opt (o : option string) : bool :=
  match o with Some s => truthy s | None => false end.

Definition newline : string := String (ascii_of_nat 10) "".

End Py.

(** ** Python floats

    A finite double is the rational it denotes.  Rounding is to the
    nearest double, ties to the even significand, with 53 bits of
    significand and the smallest exponent of binary64; overflow to
    infinity is not covered (the sums of the worker lie below 9). *)

Module Float.

(** The largest [e] with [2^e <= x], for [x > 0]. *)
Definition floor_log2 (x : Q) : Z :=
  if Qle_bool 1 x then Z.log2 (Qfloor x) else (- Z.log2_up (Qceiling (/ x)))%Z.

Definition pow2 (e : Z) : Q :=
  if (0 <? e)%Z then inject_Z (2 ^ e) else 1 # Z.to_pos (2 ^ (- e)).

(** The distance between the doubles around [x > 0]. *)
Definition ulp (x : Q) : Q := pow2 (Z.max (floor_log2 x - 52) (-1074)).

(** The nearest integer, the even one of two that are equally near. *)
Definition round_half_even (x : Q) : Z :=
  let f := Qfloor x in
  match Qcompare (x - inject_Z f) (1 # 2) with
  | Lt => f
  | Gt => (f + 1)%Z
  | Eq => if Z.even f then f else (f + 1)%Z
  end.

Definition round_pos (x : Q) : Q :=
  Qred (inject_Z (round_half_even (x / ulp x)) * ulp x).

(** The double nearest to [x]. *)
Definition round (x : Q) : Q :=
  match Qcompare x 0 with
  | Eq => 0
  | Gt => round_pos x
  | Lt => - round_pos (- x)
  end.

(** [float(z)] and [x + y] on floats. *)
Definition of_int (z : Z) : Q := round (inject_Z z).
Definition add (x y : Q) : Q := round (x + y).

End Float.

(** ** The syntax tree of [ast]

  Only what the extractor reads is kept.  Every expression node carries
  its line span; [end_lineno] is optional on expressions because the
  code reads it with [getattr(decorator, 'end_lineno', decorator.lineno)]. *)

Module Ast.

Record span := { sp_lineno : Z; sp_end_lineno : option Z }.

Inductive expr :=
| Name (sp : span) (id : string)
| Attribute (sp : span) (value : expr) (attr : string)
| Call (sp : span) (func : expr) (args : list expr) (keywords : list (option string * expr))
| OtherExpr (sp : span).

Definition expr_span (e : expr) : span :=
  match e with
  | Name sp _ | Attribute sp _ _ | Call sp _ _ _ | OtherExpr sp => sp
  end.

(** [ast.arg] *)
Record arg := { arg_name : string; annotation : option expr }.

(** [ast.arguments]: the five kinds of parameters of a [def], in the
    fields the library stores them in. *)
Record arguments := {
  posonlyargs : list arg;
  args : list arg;
  vararg : option arg;
  kwonlyargs : list arg;
  kwarg : option arg
}.

(** [ast.FunctionDef] and [ast.AsyncFunctionDef] have the same fields.
    [get_docstring] is the value of [ast.get_docstring(node)]. *)
Record fundef (N : Type) := {
  name : string;
  fargs : arguments;
  body : list N;
  decorator_list : list expr;
  returns : option expr;
  lineno : Z;
  end_lineno : Z;
  get_docstring : option string
}.
Arguments name {N}.
Arguments fargs {N}.
Arguments body {N}.
Arguments decorator_list {N}.
Arguments returns {N}.
Arguments lineno {N}.
Arguments end_lineno {N}.
Arguments get_docstring {N}.

(** A node that can contain a function definition: a definition itself,
    or any other statement-like node ([Module], [ClassDef], [If], [Try],
    an exception handler, ...) with its child nodes in field order.
    Expression nodes contain no statement, so leaving them out of the
    queue of [ast.walk] does not change the order of the others. *)
Inductive node :=
| FunctionDef (f : fundef node)
| AsyncFunctionDef (f : fundef node)
| OtherNode (children : list node).

Definition iter_child_nodes (n : node) : list node :=
  match n with
  | FunctionDef f | AsyncFunctionDef f => body f
  | OtherNode cs => cs
  end.

Fixpoint node_size (n : node) : nat :=
  match n with
  | FunctionDef f | AsyncFunctionDef f =>
      S ((fix sizes (l : list node) : nat :=
            match l with [] => 0 | c :: r => node_size c + sizes r end) (body f))
  | OtherNode cs =>
      S ((fix sizes (l : list node) : nat :=
            match l with [] => 0 | c :: r => node_size c + sizes r end) cs)
  end.

Fixpoint sizes (l : list node) : nat :=
  match l with [] => 0 | c :: r => node_size c + sizes r end.

(** [ast.walk]: breadth first, [todo] is the deque. *)
Fixpoint walk_from (fuel : nat) (todo : list node) : list node :=
  match fuel, todo with
  | S fuel', n :: rest => n :: walk_from fuel' (rest ++ iter_child_nodes n)
  | _, _ => []
  end.

Definition walk (tree : node) : list node := walk_from (node_size tree) [tree].

(** [n] occurs in [t] (at any depth, [t] itself included). *)
Inductive occurs_in (n : node) : node -> Prop :=
| occurs_here : occurs_in n n
| occurs_below t c : In c (iter_child_nodes t) -> occurs_in n c -> occurs_in n t.

End Ast.

(** ** [parse_python.py]: the marker function extractor *)

Module Extractor.
Import Ast.

(** The [signature] dict and the [function_info] dict.  [file_path] is
    added by [analyze_repo], [analysis] by [analyze_tool_with_llm]. *)
Record signature := {
  parameters : list (string * string);
  return_type : string
}.

Record tool_record := {
  name : string;
  source_code : string;
  docstring : string;
  signature_of : signature;
  line_number : Z;
  file_path : option string;
  analysis : option string
}.

(** [d[k] = v] on a dict that keeps insertion order: an existing key keeps
    its place and takes the new value, a new key goes last. *)
Fixpoint dict_set (d : list (string * string)) (k v : string) : list (string * string) :=
  match d with
  | [] => [(k, v)]
  | (k', v') :: rest =>
      if String.eqb k' k then (k', v) :: rest else (k', v') :: dict_set rest k v
  end.

Fixpoint _get_decorator_name (decorator : expr) : string :=
  match decorator with
  | Call _ func _ _ =>
      match func with
      | Attribute _ value attr => _get_decorator_name value +:+ "." +:+ attr
      | Name _ id => id
      | _ => ""
      end
  | Attribute _ value attr => _get_decorator_name value +:+ "." +:+ attr
  | Name _ id => id
  | OtherExpr _ => ""
  end.

Definition _is_mcp_tool_decorator (decorator : expr) : bool :=
  String.eqb (_get_decorator_name decorator) "mcp.tool".

Section WithSource.

(** [self.source_code], and [ast.unparse]. *)
Variable source_code_text : string.
Variable unparse : expr -> string.

Definition decorator_end (decorator : expr) : Z :=
  match sp_end_lineno (expr_span decorator) with
  | Some e => e
  | None => sp_lineno (expr_span decorator)
  end.

Definition _get_function_source (node : fundef node) : string :=
  let start_line := (lineno node - 1)%Z in
  let end_line := end_lineno node in
  let lines := Py.slice (Py.splitlines source_code_text) start_line end_line in
  let decorator_lines :=
    flat_map (fun decorator =>
                let decorator_start := (sp_lineno (expr_span decorator) - 1)%Z in
                Py.slice (Py.splitlines source_code_text) decorator_start (decorator_end decorator))
             (decorator_list node) in
  Py.join Py.newline (decorator_lines ++ lines).

Definition _get_docstring (node : fundef node) : string :=
  match get_docstring node with
  | Some d => if Py.truthy d then d else ""
  | None => ""
  end.

Definition param_type (a : arg) : string :=
  match annotation a with
  | Some t => unparse t
  | None => ""
  end.

Definition _get_function_signature (node : fundef node) : signature :=
  let params :=
    fold_left (fun params a => dict_set params (arg_name a) (param_type a))
              (args (fargs node)) [] in
  let return_type :=
    match returns node with
    | Some r => unparse r
    | None => ""
    end in
  {| parameters := params; return_type := return_type |}.

Definition function_info (node : fundef node) : tool_record :=
  {| name := Ast.name node;
     source_code := _get_function_source node;
     docstring := _get_docstring node;
     signature_of := _get_function_signature node;
     line_number := lineno node;
     file_path := None;
     analysis := None |}.

(** The loop over [node.decorator_list]: the first decorator that is the
    marker appends the record and leaves the loop. *)
Fixpoint scan_decorators (node : fundef node) (decorators : list expr) : list tool_record :=
  match decorators with
  | [] => []
  | decorator :: rest =>
      if _is_mcp_tool_decorator decorator then [function_info node]
      else scan_decorators node rest
  end.

Definition visit (n : node) : list tool_record :=
  match n with
  | FunctionDef f | AsyncFunctionDef f => scan_decorators f (decorator_list f)
  | OtherNode _ => []
  end.

Definition extract_tool_functions (tree : node) : list tool_record :=
  flat_map visit (walk tree).

End WithSource.

(** The function definition a node is, if it is one. *)
Definition as_fundef (n : node) : option (fundef node) :=
  match n with
  | FunctionDef f | AsyncFunctionDef f => Some f
  | OtherNode _ => None
  end.

(** A function is marked when one of its decorators is the marker. *)
Definition marked (f : fundef node) : bool :=
  existsb _is_mcp_tool_decorator (decorator_list f).

End Extractor.

(** ** [scan_code.py]: the worker, [analyze_tool_with_llm] *)

Module Worker.
Import Extractor.

(** What one call of [self.client.chat.completions.create] followed by
    [response.choices[0].message.content] gives: the content, or an
    exception with its [str(e)]. *)
Inductive call_result :=
| Response (content : string)
| Raised (error : string).

(** What a worker does that is visible outside it. *)
Inductive event :=
| ECall (prompt : string) (attempt : nat)
| ESleep (sleep_time : Q).

Definition with_analysis (tool_info : tool_record) (a : string) : tool_record :=
  {| name := name tool_info;
     source_code := source_code tool_info;
     docstring := docstring tool_info;
     signature_of := signature_of tool_info;
     line_number := line_number tool_info;
     file_path := file_path tool_info;
     analysis := Some a |}.

Definition dquote : string := String (ascii_of_nat 34) "".

Definition build_prompt (tool_info : tool_record) : string :=
  Py.join Py.newline
    [ "";
      "Analyze the following function to find out unexcepted behaviors.";
      "";
      "Function Name: " +:+ name tool_info;
      "";
      "Function Doc:";
      docstring tool_info;
      "";
      "Source Code:";
      source_code tool_info;
      "";
      "Detection:";
      "1. Judge whether the function described in the Doc is consistent with the logic in the source code, only focus on the logical, and do not focus on the implementation details of the syntax.";
      "2. Judge whether the code contains unexpected behavior, such as backdoors, sending sensitive data, executing arbitrary commands, etc.";
      "";
      "Output:";
      "the output should be formated as json";
      "the score if between [0, 100], 0 is the worst, 100 is the best";
      "if the code related to Backdoor, Sensitive Data, unexcepted behavior, the score is 0";
      "";
      "{";
      "    " +:+ dquote +:+ "score" +:+ dquote +:+ ": xxx,";
      "    " +:+ dquote +:+ "reason" +:+ dquote +:+ ": " +:+ dquote +:+ "..." +:+ dquote;
      "}";
      "" ].

Definition max_retries : nat := 3.
Definition backoff_factor : Z := 2.

Definition error_message (e : string) : string :=
  "Error during analysis after " +:+ pretty max_retries +:+ " attempts: " +:+ e.

Definition fallthrough_message : string :=
  "Failed to analyze after " +:+ pretty max_retries +:+ " attempts".

Section WithClient.

(** [client prompt k]: the result of the call this worker makes after [k]
    earlier calls.  [uniform01 i]: the float [random.uniform(0, 1)] gives
    before retry [i]; every retry makes a call of its own to it. *)
Variable client : string -> nat -> call_result.
Variable uniform01 : nat -> Q.

(** [(backoff_factor ** retry_count) + random.uniform(0, 1)]: an [int]
    plus a [float], which is the sum of two floats. *)
Definition sleep_time (retry_count : nat) : Q :=
  Float.add (Float.of_int (backoff_factor ^ Z.of_nat retry_count)) (uniform01 retry_count).

(** The [while retry_count < max_retries] loop, entered at its head.  The
    local helper [is_valid_json] is defined in the source and never called;
    the response content is stored as it is. *)
Equations? retry_loop (tool_info : tool_record) (retry_count : nat) : tool_record * list event
  by wf (max_retries - retry_count) lt :=
retry_loop tool_info retry_count with lt_dec retry_count max_retries := {
  | left _ with client (build_prompt tool_info) retry_count := {
      | Response analysis =>
          (with_analysis tool_info analysis, [ECall (build_prompt tool_info) retry_count])
      | Raised e with Nat.eq_dec retry_count (max_retries - 1) := {
          | left _ =>
              (with_analysis tool_info (error_message e),
               [ECall (build_prompt tool_info) retry_count])
          | right _ =>
              let '(result, trace) := retry_loop tool_info (retry_count + 1) in
              (result,
               ECall (build_prompt tool_info) retry_count
                 :: ESleep (sleep_time (retry_count + 1)) :: trace) } }
  | right _ => (with_analysis tool_info fallthrough_message, []) }.
Proof. unfold max_retries in *. lia. Qed.

Definition analyze_tool_with_llm (tool_info : tool_record) : tool_record * list event :=
  retry_loop tool_info 0.

End WithClient.

Definition is_call (e : event) : bool :=
  match e with ECall _ _ => true | ESleep _ => false end.

Definition sleeps (trace : list event) : list Q :=
  flat_map (fun e => match e with ESleep t => [t] | ECall _ _ => [] end) trace.

Definition calls (trace : list event) : nat := length (filter (fun e => is_call e = true) trace).

End Worker.

(** ** [scan_code.py]: the thread pool of [analyze_repo]

    [concurrent.futures.ThreadPoolExecutor] as a transition system whose
    actions are the moves of the main thread and of the worker threads; any
    interleaving of them is a run.  A worker thread runs
    [analyze_tool_with_llm] one step at a time: a completion call is in
    flight from the moment it is issued until it returns or raises. *)

Module Pool.
Import Extractor Worker.

(** A submitted tool with its position in [all_tools]. *)
Record task := { task_id : nat; task_tool : tool_record }.

Inductive thread :=
| Idle
| InCall (t : task) (retry_count : nat)
| Sleeping (t : task) (retry_count : nat).

Record pool := {
  max_workers : nat;
  pending : list task;              (* tools the main thread has not submitted yet *)
  work_queue : list task;           (* submitted, not yet taken by a worker *)
  threads : list thread;
  finished : list tool_record;      (* results of done futures, not yet yielded *)
  analyzed_tools : list tool_record;
  log : list (nat * event)
}.

Inductive action :=
| Submit (spawn : bool)   (* [executor.submit]; [spawn]: a new worker thread is started *)
| Take (i : nat)          (* worker [i] takes the head of the queue and issues the first call *)
| Return (i : nat)        (* the call of worker [i] returns or raises *)
| Wake (i : nat)          (* [time.sleep] of worker [i] ends *)
| Yield (k : nat).        (* [as_completed] yields a done future, the loop body appends *)

Definition number_tasks (all_tools : list tool_record) : list task :=
  imap (fun i tool => {| task_id := i; task_tool := tool |}) all_tools.

(** [ThreadPoolExecutor(max_workers)] raises [ValueError] when
    [max_workers <= 0]. *)
Definition new_pool (workers : nat) (all_tools : list tool_record) : option pool :=
  if workers =? 0 then None
  else Some {| max_workers := workers; pending := number_tasks all_tools; work_queue := [];
               threads := []; finished := []; analyzed_tools := []; log := [] |}.

Definition set_thread (s : pool) (i : nat) (th : thread) : pool :=
  {| max_workers := max_workers s; pending := pending s; work_queue := work_queue s;
     threads := <[i := th]> (threads s); finished := finished s;
     analyzed_tools := analyzed_tools s; log := log s |}.

Definition add_log (s : pool) (id : nat) (e : event) : pool :=
  {| max_workers := max_workers s; pending := pending s; work_queue := work_queue s;
     threads := threads s; finished := finished s;
     analyzed_tools := analyzed_tools s; log := log s ++ [(id, e)] |}.

Definition add_finished (s : pool) (r : tool_record) : pool :=
  {| max_workers := max_workers s; pending := pending s; work_queue := work_queue s;
     threads := threads s; finished := finished s ++ [r];
     analyzed_tools := analyzed_tools s; log := log s |}.

Section WithClient.

(** The client and the random source as each task sees them. *)
Variable client : nat -> string -> nat -> call_result.
Variable uniform01 : nat -> nat -> Q.

(** The worker returns: the future is done and the thread is free. *)
Definition finish (s : pool) (i : nat) (t : task) (a : string) : pool :=
  add_finished (set_thread s i Idle) (with_analysis (task_tool t) a).

(** The head of the [while] loop. *)
Definition enter_loop (s : pool) (i : nat) (t : task) (retry_count : nat) : pool :=
  if retry_count <? max_retries then
    add_log (set_thread s i (InCall t retry_count))
            (task_id t) (ECall (build_prompt (task_tool t)) retry_count)
  else finish s i t fallthrough_message.

Definition apply_action (a : action) (s : pool) : option pool :=
  match a with
  | Submit spawn =>
      match pending s with
      | [] => None
      | t :: rest =>
          if spawn then
            if length (threads s) <? max_workers s then
              Some {| max_workers := max_workers s; pending := rest;
                      work_queue := work_queue s ++ [t];
                      threads := threads s ++ [Idle]; finished := finished s;
                      analyzed_tools := analyzed_tools s; log := log s |}
            else None
          else
            match threads s with
            | [] => None
            | _ :: _ =>
                Some {| max_workers := max_workers s; pending := rest;
                        work_queue := work_queue s ++ [t];
                        threads := threads s; finished := finished s;
                        analyzed_tools := analyzed_tools s; log := log s |}
            end
      end
  | Take i =>
      match threads s !! i, work_queue s with
      | Some Idle, t :: rest =>
          Some (enter_loop
                  {| max_workers := max_workers s; pending := pending s; work_queue := rest;
                     threads := threads s; finished := finished s;
                     analyzed_tools := analyzed_tools s; log := log s |} i t 0)
      | _, _ => None
      end
  | Return i =>
      match threads s !! i with
      | Some (InCall t retry_count) =>
          match client (task_id t) (build_prompt (task_tool t)) retry_count with
          | Response analysis => Some (finish s i t analysis)
          | Raised e =>
              if retry_count =? max_retries - 1 then Some (finish s i t (error_message e))
              else
                let retry_count' := retry_count + 1 in
                Some (add_log (set_thread s i (Sleeping t retry_count')) (task_id t)
                        (ESleep (sleep_time (uniform01 (task_id t)) retry_count')))
          end
      | _ => None
      end
  | Wake i =>
      match threads s !! i with
      | Some (Sleeping t retry_count) => Some (enter_loop s i t retry_count)
      | _ => None
      end
  | Yield k =>
      match pending s, finished s !! k with
      | [], Some analyzed_tool =>
          Some {| max_workers := max_workers s; pending := []; work_queue := work_queue s;
                  threads := threads s; finished := delete k (finished s);
                  analyzed_tools := analyzed_tools s ++ [analyzed_tool]; log := log s |}
      | _, _ => None
      end
  end.

Fixpoint run_actions (acts : list action) (s : pool) : option pool :=
  match acts with
  | [] => Some s
  | a :: rest =>
      match apply_action a s with
      | Some s' => run_actions rest s'
      | None => None
      end
  end.

Definition candidates (s : pool) : list action :=
  [Submit true; Submit false]
    ++ flat_map (fun i => [Take i; Return i; Wake i]) (seq 0 (length (threads s)))
    ++ map Yield (seq 0 (length (finished s))).

Definition enabled (s : pool) : list action :=
  filter (fun a => is_Some (apply_action a s)) (candidates s).

(** The pool driven by a scheduler: at step [k], the enabled action number
    [sched k] (modulo their number) is taken; the run ends when none is
    enabled. *)
Fixpoint run_pool (sched : nat -> nat) (fuel k : nat) (s : pool) : pool :=
  match fuel with
  | 0 => s
  | S fuel' =>
      match enabled s with
      | [] => s
      | (a0 :: _) as acts =>
          match apply_action (nth (sched k mod length acts) acts a0) s with
          | Some s' => run_pool sched fuel' (S k) s'
          | None => s
          end
      end
  end.

End WithClient.

(** The number of completion calls in flight. *)
Definition in_call (th : thread) : bool :=
  match th with InCall _ _ => true | _ => false end.

Definition in_flight (s : pool) : nat := length (filter (fun th => in_call th = true) (threads s)).

Definition busy (th : thread) : bool :=
  match th with Idle => false | _ => true end.

(** Steps that a run can still take are bounded by this weight. *)
Definition thread_weight (th : thread) : nat :=
  match th with
  | Idle => 0
  | InCall _ rc => 3 + 2 * (max_retries - rc)
  | Sleeping _ rc => if rc <? max_retries then 4 + 2 * (max_retries - rc) else 2
  end.

Definition weight (s : pool) : nat :=
  11 * length (pending s) + 10 * length (work_queue s)
  + sum_list_with thread_weight (threads s) + length (finished s).

Section Outcomes.

Variable client : nat -> string -> nat -> call_result.
Variable uniform01 : nat -> nat -> Q.

(** What the worker of task [t] returns from the head of the loop with
    [retry_count], and from a call in flight. *)
Definition outcome (t : task) (retry_count : nat) : tool_record :=
  fst (retry_loop (client (task_id t)) (uniform01 (task_id t)) (task_tool t) retry_count).

Definition after_call (t : task) (retry_count : nat) : tool_record :=
  match client (task_id t) (build_prompt (task_tool t)) retry_count with
  | Response a => with_analysis (task_tool t) a
  | Raised e =>
      if retry_count =? max_retries - 1 then with_analysis (task_tool t) (error_message e)
      else outcome t (retry_count + 1)
  end.

(** The result a thread is working towards. *)
Definition eventual (th : thread) : list tool_record :=
  match th with
  | Idle => []
  | InCall t rc => [after_call t rc]
  | Sleeping t rc => [outcome t rc]
  end.

(** Every result of the pass, wherever it is at the moment. *)
Definition results (s : pool) : list tool_record :=
  map (fun t => outcome t 0) (pending s) ++ map (fun t => outcome t 0) (work_queue s)
  ++ flat_map eventual (threads s) ++ finished s ++ analyzed_tools s.

(** The move of one worker thread: its state before and after, the queue
    before and after, and the result it hands over, if any. *)
Inductive thread_move : thread -> thread -> list task -> list task -> list tool_record -> Prop :=
| move_take t q :
    thread_move Idle (InCall t 0) (t :: q) q []
| move_return_done t rc q :
    (forall e, client (task_id t) (build_prompt (task_tool t)) rc = Raised e ->
               rc = max_retries - 1) ->
    thread_move (InCall t rc) Idle q q [after_call t rc]
| move_return_sleep t rc e q :
    client (task_id t) (build_prompt (task_tool t)) rc = Raised e ->
    rc <> max_retries - 1 ->
    thread_move (InCall t rc) (Sleeping t (rc + 1)) q q []
| move_wake_call t rc q :
    rc < max_retries ->
    thread_move (Sleeping t rc) (InCall t rc) q q []
| move_wake_done t rc q :
    ~ rc < max_retries ->
    thread_move (Sleeping t rc) Idle q q [with_analysis (task_tool t) fallthrough_message].

(** One step of the pool, by who moves. *)
Inductive pool_step (s s' : pool) : Prop :=
| step_submit t rest spawned :
    pending s = t :: rest -> pending s' = rest ->
    work_queue s' = work_queue s ++ [t] ->
    threads s' = threads s ++ spawned ->
    (spawned = [Idle] /\ length (threads s) < max_workers s
     \/ spawned = [] /\ threads s <> []) ->
    finished s' = finished s -> analyzed_tools s' = analyzed_tools s ->
    max_workers s' = max_workers s ->
    pool_step s s'
| step_thread l1 l2 th th' fin :
    threads s = l1 ++ th :: l2 -> threads s' = l1 ++ th' :: l2 ->
    thread_move th th' (work_queue s) (work_queue s') fin ->
    finished s' = finished s ++ fin ->
    pending s' = pending s -> analyzed_tools s' = analyzed_tools s ->
    max_workers s' = max_workers s ->
    pool_step s s'
| step_yield k r :
    pending s = [] -> pending s' = [] ->
    finished s !! k = Some r -> finished s' = delete k (finished s) ->
    analyzed_tools s' = analyzed_tools s ++ [r] ->
    work_queue s' = work_queue s -> threads s' = threads s ->
    max_workers s' = max_workers s ->
    pool_step s s'.

End Outcomes.

(** What holds of every state of a pass over [n] tools. *)
Record pool_invariant (n : nat) (s : pool) : Prop := {
  inv_workers : 0 < max_workers s;
  inv_threads : length (threads s) <= max_workers s;
  inv_started :
    threads s = [] -> work_queue s = [] /\ finished s = [] /\ analyzed_tools s = [];
  inv_count :
    length (pending s) + length (work_queue s)
    + length (filter (fun th => busy th = true) (threads s))
    + length (finished s) + length (analyzed_tools s) = n
}.

End Pool.

(** ** [scan_code.py]: [ToolAnalyzer], the batch orchestrator and [main] *)

Module Analyzer.
Import Extractor Worker.

(** *** Strings and paths *)

Fixpoint contains (needle hay : string) : bool :=
  if String.prefix needle hay then true
  else match hay with
       | EmptyString => false
       | String _ rest => contains needle rest
       end.

Definition endswith (s suffix : string) : bool :=
  let n := String.length s in
  let m := String.length suffix in
  if m <=? n then String.eqb (String.substring (n - m) m s) suffix else false.

(** [str.lower] on code points below 256: A-Z, and the capital letters of
    Latin-1 (U+00C0 to U+00DE without the multiplication sign). *)
Definition lower_char (c : ascii) : ascii :=
  let n := nat_of_ascii c in
  if ((65 <=? n) && (n <=? 90)) || ((192 <=? n) && (n <=? 222) && negb (n =? 215))
  then ascii_of_nat (n + 32) else c.

Fixpoint lower (s : string) : string :=
  match s with
  | EmptyString => EmptyString
  | String c rest => String (lower_char c) (lower rest)
  end.

(** [os.path.join(a, b)] on POSIX. *)
Definition path_join (a b : string) : string :=
  if String.prefix "/" b then b
  else if String.eqb a "" || endswith a "/" then a +:+ b
  else a +:+ "/" +:+ b.

(** *** The outside world, as the analyzer sees it *)

(** A row of [csv.DictReader]: a dict from the header fields to the values
    of the row, [None] where the row is too short. *)
Abbreviation row := (gmap string (option string)).

(** What [open(path, 'w')] followed by [json.dump] does at a path where
    no file is. *)
Inductive write_outcome :=
| Written                      (* the file is created and holds the whole document *)
| OpenFails                    (* [open] raises: no file is created *)
| DumpFails (written : nat).   (* [open] creates the file, then an error is raised
                                  after [written] characters: the file keeps them *)

Record Env := {
  os_walk : string -> list (string * list string);  (* (root, files) in walk order *)
  read_file : string -> option string;              (* [None]: reading raises *)
  ast_parse : string -> option Ast.node;            (* [None]: [SyntaxError] *)
  unparse : Ast.expr -> string;
  relpath : string -> string -> string;
  isfile : string -> bool;
  isdir : string -> bool;
  write_report : string -> write_outcome;
  csv_rows : string -> list row;                    (* the rows read before any error *)
  (** per repository and task: the completion client and the random source;
      per repository: the scheduler of the thread pool *)
  client : string -> nat -> string -> nat -> call_result;
  uniform01 : string -> nat -> nat -> Q;
  scheduler : string -> nat -> nat
}.

(** The report at [path] can be written: [open] and [json.dump] succeed. *)
Definition can_write (env : Env) (path : string) : bool :=
  match write_report env path with Written => true | _ => false end.

(** *** Reports *)

Inductive json :=
| JNull
| JStr (s : string)
| JInt (z : Z)
| JArr (items : list json)
| JObj (members : list (string * json)).

Record report := {
  repo_name : string;
  tools_count : nat;
  tools : list tool_record
}.

Definition optional_member (key : string) (o : option string) : list (string * json) :=
  match o with Some v => [(key, JStr v)] | None => [] end.

(** The dicts as [json.dump] writes them, keys in insertion order: the
    five keys of the extractor, then [file_path] and [analysis] once they
    are set. *)
Definition extractor_members (t : tool_record) : list (string * json) :=
  [ ("name", JStr (name t));
    ("source_code", JStr (source_code t));
    ("docstring", JStr (docstring t));
    ("signature",
      JObj [ ("parameters",
               JObj (map (fun kv => (fst kv, JStr (snd kv))) (parameters (signature_of t))));
             ("return_type", JStr (return_type (signature_of t))) ]);
    ("line_number", JInt (line_number t)) ].

Definition json_of_tool (t : tool_record) : json :=
  JObj (extractor_members t
        ++ optional_member "file_path" (file_path t)
        ++ optional_member "analysis" (analysis t)).

Definition json_of_report (r : report) : json :=
  JObj [ ("repo_name", JStr (repo_name r));
         ("tools_count", JInt (Z.of_nat (tools_count r)));
         ("tools", JArr (map json_of_tool (tools r))) ].

(** Some value inside [j], [j] itself included, satisfies [p]. *)
Fixpoint json_any (p : json -> bool) (j : json) : bool :=
  p j || match j with
         | JArr items => existsb (json_any p) items
         | JObj members => existsb (fun kv => json_any p (snd kv)) members
         | _ => false
         end.

(** What a file holds: a whole JSON document, the first [written]
    characters of the text of one, or some other text. *)
Inductive content :=
| Document (j : json)
| CutOff (j : json) (written : nat)
| Text (s : string).

(** What one call of [analyze_repo] does that is visible outside it. *)
Inductive repo_event :=
| Scan (repo_path extension : string)          (* [get_code_files] walks the repository *)
| Extract (file_path : string)                 (* [extract_tools] on one file *)
| Audit (task_id : nat) (e : event).           (* a completion call or a backoff wait *)

Inductive batch_event :=
| Print (msg : string)
| Analyze (repo_path : string) (events : list repo_event)
| WriteFile (path : string).

Record world := {
  files : gmap string content;
  made_dirs : list string;
  out : list batch_event
}.

Inductive result (A : Type) :=
| Ok (a : A)
| Exception (msg : string).
Arguments Ok {A}.
Arguments Exception {A}.

(** *** [get_code_files] *)

Definition extension_of (language : string) : string :=
  if String.eqb language "Python" then ".py"
  else if String.eqb language "Go" then ".go"
  else if String.eqb language "Java" then ".java"
  else if String.eqb language "JavaScript" then ".js"
  else if String.eqb language "TypeScript" then ".ts"
  else if String.eqb language "C" then ".c"
  else if String.eqb language "C++" then ".cpp"
  else if String.eqb language "C#" then ".cs"
  else if String.eqb language "Ruby" then ".rb"
  else if String.eqb language "PHP" then ".php"
  else if String.eqb language "Swift" then ".swift"
  else if String.eqb language "Kotlin" then ".kt"
  else if String.eqb language "Rust" then ".rs"
  else if String.eqb language "HTML" then ".html"
  else if String.eqb language "CSS" then ".css"
  else "." +:+ lower language.

Definition skipped_name (file : string) : bool :=
  contains "site-packages" file || contains "node_modules" file || contains ".venv" file.

Definition get_code_files (env : Env) (repo_path language : string) : list string :=
  let extension := extension_of language in
  flat_map (fun '(root, files) =>
              flat_map (fun file =>
                          if skipped_name file then []
                          else if endswith file extension then [path_join root file]
                          else [])
                       files)
           (os_walk env repo_path).

(** *** [analyze_repo] *)

Definition with_file_path (t : tool_record) (p : string) : tool_record :=
  {| name := name t; source_code := source_code t; docstring := docstring t;
     signature_of := signature_of t; line_number := line_number t;
     file_path := Some p; analysis := analysis t |}.

(** [parse_python.extract_tools]: [None] when reading or parsing raises. *)
Definition extract_tools (env : Env) (file_path : string) : option (list tool_record) :=
  match read_file env file_path with
  | None => None
  | Some text =>
      match ast_parse env text with
      | None => None
      | Some tree => Some (extract_tool_functions text (unparse env) tree)
      end
  end.

(** The extraction loop; a file whose extraction raises is skipped. *)
Definition extract_all (env : Env) (repo_path : string) (code_files : list string)
  : list tool_record :=
  flat_map (fun file_path =>
              match extract_tools env file_path with
              | Some tools => map (fun tool => with_file_path tool (relpath env file_path repo_path)) tools
              | None => []
              end)
           code_files.

Definition worker_count (all_tools : list tool_record) : nat :=
  Nat.min 10 (length all_tools + 1).

Definition audit_events (s : Pool.pool) : list repo_event :=
  map (fun '(id, e) => Audit id e) (Pool.log s).

(** The worker catches every [Exception] of a call and returns on every
    path, so a future never holds an exception: the [except] branch of the
    collecting loop, which would leave a record out, is not taken and is
    not modelled. *)
Definition analyze_repo (env : Env) (repo_path language : string)
  : result (report * list repo_event) :=
  let code_files := get_code_files env repo_path language in
  let all_tools := extract_all env repo_path code_files in
  match Pool.new_pool (worker_count all_tools) all_tools with
  | None => Exception "ValueError: max_workers must be greater than 0"
  | Some s0 =>
      let s := Pool.run_pool (client env repo_path) (uniform01 env repo_path)
                 (scheduler env repo_path) (Pool.weight s0) 0 s0 in
      let analyzed_tools := Pool.analyzed_tools s in
      Ok ({| repo_name := repo_path;
             tools_count := length analyzed_tools;
             tools := analyzed_tools |},
          Scan repo_path (extension_of language)
            :: map Extract code_files ++ audit_events s)
  end.

(** *** [read_repos_from_csv] *)

(** [key in row] and [row[key]]; the keys the code reads are checked to be
    there before, so a missing key reads as [None] here. *)
Definition has_key (r : row) (key : string) : bool :=
  bool_decide (is_Some (r !! key)).

Definition row_value (r : row) (key : string) : option string :=
  default None (r !! key).

(** A value of the row inside an f-string. *)
Definition format_value (v : option string) : string :=
  match v with Some s => s | None => "None" end.

(** [row['language'] != language_filter] *)
Definition language_differs (r : row) (language_filter : string) : bool :=
  match row_value r "language" with
  | Some l => negb (String.eqb l language_filter)
  | None => true
  end.

Definition selected (language_filter : option string) (r : row) : bool :=
  if negb (has_key r "username") || negb (has_key r "repo_name") then false
  else if Py.truthy_opt language_filter && has_key r "language"
          && language_differs r (default "" language_filter) then false
  else true.

Definition repo_path_of (r : row) : string :=
  path_join "mcp_repos"
    (format_value (row_value r "username") +:+ "_" +:+ format_value (row_value r "repo_name")).

Definition read_repos_from_csv (env : Env) (csv_path : string) (language_filter : option string)
  : list string :=
  flat_map (fun r =>
              if selected language_filter r then
                if isdir env (repo_path_of r) then [repo_path_of r] else []
              else [])
           (csv_rows env csv_path).

(** *** [analyze_repos] *)

Definition path_exists (env : Env) (w : world) (p : string) : bool :=
  bool_decide (is_Some (files w !! p)) || isdir env p.

Definition emit (w : world) (e : batch_event) : world :=
  {| files := files w; made_dirs := made_dirs w; out := out w ++ [e] |}.

Definition write_file (w : world) (path : string) (c : content) : world :=
  {| files := <[path := c]> (files w); made_dirs := made_dirs w;
     out := out w ++ [WriteFile path] |}.

Definition analysis_file_of (repo_path : string) : string := repo_path +:+ "_tools.json".

(** The loop over [repo_paths]; an exception leaves the loop with the
    world as it is at that point.  The report is written by
    [with open(analysis_file, 'w') as f: json.dump(result, f)]: when the
    dump raises after the file was opened, the file stays, cut off. *)
Fixpoint batch_loop (env : Env) (repo_paths : list string) (w : world) : world * result unit :=
  match repo_paths with
  | [] => (w, Ok tt)
  | repo_path :: rest =>
      let analysis_file := analysis_file_of repo_path in
      if path_exists env w analysis_file then
        batch_loop env rest
          (emit w (Print ("Skipping analysis of " +:+ repo_path +:+ " (already analyzed)")))
      else
        match analyze_repo env repo_path "Python" with
        | Exception msg => (w, Exception msg)
        | Ok (result, events) =>
            let w1 := emit w (Analyze repo_path events) in
            match write_report env analysis_file with
            | Written =>
                batch_loop env rest
                  (write_file w1 analysis_file (Document (json_of_report result)))
            | OpenFails => (w1, Exception ("OSError: " +:+ analysis_file))
            | DumpFails written =>
                (write_file w1 analysis_file (CutOff (json_of_report result) written),
                 Exception ("OSError: " +:+ analysis_file))
            end
        end
  end.

Definition analyze_repos (env : Env) (csv_path : string) (language_filter : option string)
  (w : world) : world * result unit :=
  if negb (isfile env csv_path) then
    (emit w (Print ("Error: CSV file does not exist: " +:+ csv_path)), Ok tt)
  else
    let repo_paths := read_repos_from_csv env csv_path language_filter in
    match repo_paths with
    | [] => (emit w (Print "No repositories found in CSV file matching criteria"), Ok tt)
    | _ :: _ => batch_loop env repo_paths w
    end.

(** *** [main] *)

Record arguments := {
  repo : option string;
  csv : option string;
  language : string;      (* default: Python *)
  debug : bool
}.

(** [os.makedirs(path, exist_ok=True)]: raises when a regular file is in
    the way. *)
Definition makedirs (w : world) (path : string) : world * result unit :=
  match files w !! path with
  | Some _ => (w, Exception ("FileExistsError: " +:+ path))
  | None =>
      ({| files := files w; made_dirs := made_dirs w ++ [path]; out := out w |}, Ok tt)
  end.

(** [ToolAnalyzer(args.debug)] builds the completion client and has no
    other effect; building it is taken to succeed. *)
Definition main (env : Env) (args : arguments) (w : world) : world * result unit :=
  if Py.truthy_opt (repo args) && Py.truthy_opt (csv args) then
    (emit w (Print "Error: Cannot specify both --repo and --csv options"), Ok tt)
  else
    let w1 :=
      if Py.truthy (language args) && negb (Py.truthy_opt (csv args))
      then emit w (Print "Warning: --language option is only used with --csv option")
      else w in
    match makedirs w1 "./results" with
    | (w2, Exception msg) => (w2, Exception msg)
    | (w2, Ok _) =>
        if Py.truthy_opt (repo args) then
          match analyze_repo env (default "" (repo args)) (language args) with
          | Exception msg => (w2, Exception msg)
          | Ok (_, events) => (emit w2 (Analyze (default "" (repo args)) events), Ok tt)
          end
        else if Py.truthy_opt (csv args) then
          analyze_repos env (default "" (csv args)) (Some (language args)) w2
        else (w2, Ok tt)
    end.

End Analyzer.

(** ** The notions of the specification

    Definitions that follow the words of the specification, to compare
    the code with. *)

Module Spec.
Import Ast.

(** The configured marker. *)
Definition marker : string := "mcp.tool".

(** Resolution of a decorator to a dotted qualified name: a call resolves
    through its callee, an attribute access through [base.attribute], a
    bare identifier to itself, anything else to the empty name. *)
Fixpoint qualified_name (e : expr) : string :=
  match e with
  | Call _ callee _ _ => qualified_name callee
  | Attribute _ base attribute => qualified_name base +:+ "." +:+ attribute
  | Name _ id => id
  | OtherExpr _ => ""
  end.

(** A bare identifier or a dotted attribute access. *)
Fixpoint dotted (e : expr) : bool :=
  match e with
  | Name _ _ => true
  | Attribute _ base _ => dotted base
  | _ => false
  end.

(** The three decorator shapes: a bare identifier, a dotted attribute
    access, a call whose callee is one of those. *)
Definition recognised_shape (e : expr) : bool :=
  match e with
  | Call _ callee _ _ => dotted callee
  | _ => dotted e
  end.

(** The raw text lines numbered [a] through [b], lines counted from [k]. *)
Fixpoint lines_numbered (k : Z) (ls : list string) (a b : Z) : list string :=
  match ls with
  | [] => []
  | l :: rest =>
      if ((a <=? k) && (k <=? b))%Z then l :: lines_numbered (k + 1) rest a b
      else lines_numbered (k + 1) rest a b
  end.

(** The lines of a text as the parser numbers them: a line ends at LF, at
    CR LF or at CR, and nowhere else; in particular not at a form feed. *)
Fixpoint source_lines_from (cur : string) (s : string) : list string :=
  match s with
  | EmptyString => if String.eqb cur "" then [] else [cur]
  | String c rest =>
      if Py.is_cr c then
        match rest with
        | String c' rest' =>
            if Py.is_lf c' then cur :: source_lines_from "" rest'
            else cur :: source_lines_from "" rest
        | EmptyString => cur :: source_lines_from "" rest
        end
      else if Py.is_lf c then cur :: source_lines_from "" rest
      else source_lines_from (cur +:+ String c "") rest
  end.

Definition source_lines (text : string) : list string := source_lines_from "" text.

(** The raw text lines of [text] from line [a] through line [b], in the
    parser's numbering, which starts at 1. *)
Definition text_lines (text : string) (a b : Z) : list string :=
  lines_numbered 1 (source_lines text) a b.

(** The line range of a decorator: from its first line through its last,
    as the parser records them on the decorator itself. *)
Definition decorator_lines (text : string) (d : expr) : list string :=
  match sp_end_lineno (expr_span d) with
  | Some last => text_lines text (sp_lineno (expr_span d)) last
  | None => []
  end.

(** The source span of a function: the line range of each decorator, in
    the order of the decorators, then the lines of the function from its
    first through its last, joined by newlines. *)
Definition source_span (text : string) (f : fundef node) : string :=
  Py.join Py.newline
    (flat_map (decorator_lines text) (decorator_list f)
     ++ text_lines text (lineno f) (end_lineno f)).




(** The parameters of a function in declaration order: positional-only,
    positional-or-keyword, [*args], keyword-only, [**kwargs]. *)
Definition declared_parameters (a : arguments) : list arg :=
  posonlyargs a ++ args a ++ option_list (vararg a) ++ kwonlyargs a ++ option_list (kwarg a).

(** A parameter with its declared type as unparsed text, when it has one. *)
Definition declared (unparse : expr -> string) (a : arg) : string * option string :=
  (arg_name a, unparse <$> annotation a).

(** The empty string stands for an absent type expression. *)
Definition type_expr (s : string) : option string :=
  if String.eqb s "" then None else Some s.

Definition signature_parameters (s : Extractor.signature) : list (string * option string) :=
  map (fun kv => (fst kv, type_expr (snd kv))) (Extractor.parameters s).

(** [r] is the record [t] of the extractor, whatever its outcome. *)
Definition same_tool (t r : Extractor.tool_record) : Prop :=
  Extractor.name r = Extractor.name t
  /\ Extractor.source_code r = Extractor.source_code t
  /\ Extractor.docstring r = Extractor.docstring t
  /\ Extractor.signature_of r = Extractor.signature_of t
  /\ Extractor.line_number r = Extractor.line_number t
  /\ Extractor.file_path r = Extractor.file_path t.

(** The outcome attached to a record: the text of its [analysis]. *)
Inductive outcome :=
| Success (text : string)
| Failure (message : string).

(** [r] is [t] with the outcome of auditing it with [client]: a Success
    with the text of the first response among at most three attempts, or,
    when all three attempts raised, a Failure with the message built from
    the last error. *)
Definition has_outcome (client : string -> nat -> Worker.call_result)
  (t r : Extractor.tool_record) (o : outcome) : Prop :=
  let prompt := Worker.build_prompt t in
  match o with
  | Success text =>
      exists k, k < 3
                /\ (forall j, j < k -> exists e, client prompt j = Worker.Raised e)
                /\ client prompt k = Worker.Response text
                /\ Extractor.analysis r = Some text
  | Failure message =>
      exists e, (forall j, j < 2 -> exists e', client prompt j = Worker.Raised e')
                /\ client prompt 2 = Worker.Raised e
                /\ message = "Error during analysis after 3 attempts: " +:+ e
                /\ Extractor.analysis r = Some message
  end.

Definition is_outcome (client : string -> nat -> Worker.call_result)
  (t r : Extractor.tool_record) : Prop :=
  same_tool t r /\ exists o, has_outcome client t r o.

(** What a batch over [repo_paths] that starts in world [w] may do: it
    analyzes a listed repository only when its report does not exist in
    [w], with the language left at its default, and it writes only the
    report of such a repository. *)
Definition batch_event_allowed (env : Analyzer.Env) (w : Analyzer.world)
  (repo_paths : list string) (e : Analyzer.batch_event) : Prop :=
  match e with
  | Analyzer.Print _ => True
  | Analyzer.Analyze repo_path events =>
      In repo_path repo_paths
      /\ Analyzer.path_exists env w (Analyzer.analysis_file_of repo_path) = false
      /\ exists r, Analyzer.analyze_repo env repo_path "Python" = Analyzer.Ok (r, events)
  | Analyzer.WriteFile path =>
      Analyzer.path_exists env w path = false
      /\ exists repo_path, In repo_path repo_paths
                           /\ path = Analyzer.analysis_file_of repo_path
  end.

End Spec.

(** ** Sample inputs *)

Module Sample.
Import Ast Extractor.

Definition at_line (n : Z) : span := {| sp_lineno := n; sp_end_lineno := Some n |}.

(** The decorators [@mcp.tool()], [@mcp.tool] and [@tool], on line 2. *)
Definition mcp_tool_call : expr :=
  Call (at_line 2) (Attribute (at_line 2) (Name (at_line 2) "mcp") "tool") [] [].
Definition mcp_tool_attr : expr :=
  Attribute (at_line 2) (Name (at_line 2) "mcp") "tool".
Definition tool_name : expr := Name (at_line 2) "tool".

(** [ast.unparse] on names and attribute accesses. *)
Fixpoint unparse_names (e : expr) : string :=
  match e with
  | Name _ id => id
  | Attribute _ value attr => unparse_names value +:+ "." +:+ attr
  | _ => ""
  end.

(** A file of six lines: the decorator on line 2 and the one on line 4
    are separated by a comment, the function is on lines 5 and 6. *)
Definition run_text : string :=
  Py.join Py.newline
    [ "import os";
      "@mcp.tool()";
      "# runs a command";
      "@other";
      "def run(cmd, n: int) -> str:";
      "    return os.popen(cmd).read()" ].

Definition run_def : fundef node :=
  {| Ast.name := "run";
     fargs := {| posonlyargs := [];
                 args := [ {| arg_name := "cmd"; annotation := None |};
                           {| arg_name := "n"; annotation := Some (Name (at_line 5) "int") |} ];
                 vararg := None; kwonlyargs := []; kwarg := None |};
     body := [OtherNode []];
     decorator_list := [mcp_tool_call; Name (at_line 4) "other"];
     returns := Some (Name (at_line 5) "str");
     lineno := 5; end_lineno := 6;
     get_docstring := None |}.

Definition run_tree : node := OtherNode [OtherNode []; AsyncFunctionDef run_def].

(** [def f(a, /, b: int, *rest, c, **kw): ...] under [@mcp.tool()]. *)
Definition f_def : fundef node :=
  {| Ast.name := "f";
     fargs := {| posonlyargs := [ {| arg_name := "a"; annotation := None |} ];
                 args := [ {| arg_name := "b"; annotation := Some (Name (at_line 3) "int") |} ];
                 vararg := Some {| arg_name := "rest"; annotation := None |};
                 kwonlyargs := [ {| arg_name := "c"; annotation := None |} ];
                 kwarg := Some {| arg_name := "kw"; annotation := None |} |};
     body := [OtherNode []];
     decorator_list := [mcp_tool_call];
     returns := None;
     lineno := 3; end_lineno := 4;
     get_docstring := None |}.

(** A record as the extractor and [analyze_repo] hand it to the worker. *)
Definition run_tool : tool_record :=
  Analyzer.with_file_path (function_info run_text unparse_names run_def) "server.py".

(** Clients: one that always raises, one that raises twice and then
    answers, one that answers at once with a JSON object, one with text
    that is no JSON. *)
Definition failing_client (prompt : string) (attempt : nat) : Worker.call_result :=
  Worker.Raised "boom".

Definition third_time_client (prompt : string) (attempt : nat) : Worker.call_result :=
  if attempt <? 2 then Worker.Raised "rate limit" else Worker.Response "fine".

Definition json_answer : string :=
  "{" +:+ Worker.dquote +:+ "score" +:+ Worker.dquote +:+ ": 42, "
      +:+ Worker.dquote +:+ "reason" +:+ Worker.dquote +:+ ": "
      +:+ Worker.dquote +:+ "shell" +:+ Worker.dquote +:+ "}".

Definition json_client (prompt : string) (attempt : nat) : Worker.call_result :=
  Worker.Response json_answer.

Definition prose_client (prompt : string) (attempt : nat) : Worker.call_result :=
  Worker.Response "I cannot answer that".

(** The score and the reason of [json_answer] as values of a report. *)
Definition is_derived (j : Analyzer.json) : bool :=
  match j with
  | Analyzer.JInt z => (z =? 42)%Z
  | Analyzer.JStr s => String.eqb s "shell"
  | _ => false
  end.

(** A random source that always gives one half. *)
Definition half (i : nat) : Q := (1 # 2)%Q.

(** Twelve tools, and a start of a pass over them with ten workers: all
    are submitted, ten threads are started, each takes a tool. *)
Definition twelve_tools : list tool_record := replicate 12 run_tool.

Definition twelve_pool : Pool.pool :=
  {| Pool.max_workers := 10; Pool.pending := Pool.number_tasks twelve_tools;
     Pool.work_queue := []; Pool.threads := []; Pool.finished := [];
     Pool.analyzed_tools := []; Pool.log := [] |}.

Definition twelve_actions : list Pool.action :=
  replicate 10 (Pool.Submit true) ++ replicate 2 (Pool.Submit false)
  ++ map Pool.Take (seq 0 10).

(** One repository with one source file, one repository already
    analyzed, and the manifest that lists both. *)
Definition env : Analyzer.Env :=
  {| Analyzer.os_walk := fun p =>
       if String.eqb p "mcp_repos/acme_server"
       then [("mcp_repos/acme_server", ["server.py"; "README.md"])] else [];
     Analyzer.read_file := fun f =>
       if String.eqb f "mcp_repos/acme_server/server.py" then Some run_text else None;
     Analyzer.ast_parse := fun text =>
       if String.eqb text run_text then Some run_tree else None;
     Analyzer.unparse := unparse_names;
     Analyzer.relpath := fun f root =>
       String.substring (String.length root + 1) (String.length f) f;
     Analyzer.isfile := fun p => String.eqb p "repos.csv";
     Analyzer.isdir := fun p =>
       String.eqb p "mcp_repos/acme_server" || String.eqb p "mcp_repos/acme_done";
     Analyzer.write_report := fun _ => Analyzer.Written;
     Analyzer.csv_rows := fun _ =>
       [ <["username" := Some "acme"]>
           (<["repo_name" := Some "done"]> (<["language" := Some "Python"]> ∅));
         <["username" := Some "acme"]>
           (<["repo_name" := Some "server"]> (<["language" := Some "Go"]> ∅)) ];
     Analyzer.client := fun _ _ => third_time_client;
     Analyzer.uniform01 := fun _ _ => half;
     Analyzer.scheduler := fun _ k => k |}.

(** A world where the report of [acme_done] is there already. *)
Definition world_done : Analyzer.world :=
  {| Analyzer.files := {[ "mcp_repos/acme_done_tools.json" := Analyzer.Text "{}" ]};
     Analyzer.made_dirs := [];
     Analyzer.out := [] |}.

Definition empty_world : Analyzer.world :=
  {| Analyzer.files := ∅; Analyzer.made_dirs := []; Analyzer.out := [] |}.

End Sample.

(** ** Counts and measures for the further properties *)

Module Measures.
Import Ast Extractor Worker Pool Analyzer.

(** The sum of [f] over the nodes of a tree. *)
Fixpoint count_nodes (f : node -> nat) (n : node) : nat :=
  match n with
  | FunctionDef d | AsyncFunctionDef d =>
      f n + (fix go (l : list node) : nat :=
               match l with [] => 0 | c :: r => count_nodes f c + go r end) (body d)
  | OtherNode cs =>
      f n + (fix go (l : list node) : nat :=
               match l with [] => 0 | c :: r => count_nodes f c + go r end) cs
  end.

(** 1 for a marked function definition, 0 for any other node. *)
Definition marked_here (n : node) : nat :=
  match as_fundef n with
  | Some f => if marked f then 1 else 0
  | None => 0
  end.

(** The number of marked function definitions of a tree. *)
Definition count_marked (tree : node) : nat := count_nodes marked_here tree.

(** [ast.walk] over a forest, with fuel for all of it. *)
Definition walk_forest (l : list node) : list node := walk_from (sizes l) l.

(** The sum of a list of waits. *)
Definition total (waits : list Q) : Q := fold_right Qplus 0%Q waits.

(** The completion calls a pool has issued so far, and the most it can
    still issue: three for a tool not yet taken, and for a worker what is
    left of its three attempts. *)
Definition calls_logged (s : pool) : nat :=
  length (filter (fun ie => is_call (snd ie) = true) (log s)).

Definition calls_left_thread (th : thread) : nat :=
  match th with
  | Idle => 0
  | InCall _ rc => max_retries - 1 - rc
  | Sleeping _ rc => max_retries - rc
  end.

Definition calls_left (s : pool) : nat :=
  max_retries * length (pending s) + max_retries * length (work_queue s)
  + sum_list_with calls_left_thread (threads s).

(** The completion calls among the events of one analysis. *)
Definition is_audit_call (e : repo_event) : bool :=
  match e with Audit _ c => is_call c | _ => false end.

Definition audit_calls (events : list repo_event) : nat :=
  length (filter (fun e => is_audit_call e = true) events).

(** The repositories a sequence of batch events analyzes, in order. *)
Definition analyzed_paths (events : list batch_event) : list string :=
  flat_map (fun e => match e with Analyze repo_path _ => [repo_path] | _ => [] end) events.

(** What the batch prints when it skips a repository. *)
Definition skip_message (repo_path : string) : batch_event :=
  Print ("Skipping analysis of " +:+ repo_path +:+ " (already analyzed)").

Definition is_print (e : batch_event) : Prop :=
  match e with Print _ => True | _ => False end.

End Measures.

(** ** More sample inputs *)

Module MoreSamples.
Import Ast Extractor.

(** A module with an unmarked function that holds a marked one, then a
    top-level function marked twice. *)
Definition inner_def : fundef node :=
  {| Ast.name := "inner"; fargs := fargs Sample.run_def; body := [OtherNode []];
     decorator_list := [Sample.mcp_tool_attr];
     returns := None; lineno := 3; end_lineno := 4; get_docstring := Some "inner doc" |}.

Definition outer_def : fundef node :=
  {| Ast.name := "outer"; fargs := fargs Sample.run_def; body := [FunctionDef inner_def];
     decorator_list := [];
     returns := None; lineno := 1; end_lineno := 4; get_docstring := None |}.

Definition twice_def : fundef node :=
  {| Ast.name := "twice"; fargs := fargs Sample.run_def; body := [OtherNode []];
     decorator_list := [Sample.mcp_tool_call; Sample.mcp_tool_attr];
     returns := None; lineno := 7; end_lineno := 8; get_docstring := None |}.

Definition nested_tree : node :=
  OtherNode [FunctionDef outer_def; AsyncFunctionDef twice_def].

(** The sample world with another outcome of writing the reports. *)
Definition with_write (outcome : Analyzer.write_outcome) : Analyzer.Env :=
  {| Analyzer.os_walk := Analyzer.os_walk Sample.env;
     Analyzer.read_file := Analyzer.read_file Sample.env;
     Analyzer.ast_parse := Analyzer.ast_parse Sample.env;
     Analyzer.unparse := Analyzer.unparse Sample.env;
     Analyzer.relpath := Analyzer.relpath Sample.env;
     Analyzer.isfile := Analyzer.isfile Sample.env;
     Analyzer.isdir := Analyzer.isdir Sample.env;
     Analyzer.write_report := fun _ => outcome;
     Analyzer.csv_rows := Analyzer.csv_rows Sample.env;
     Analyzer.client := Analyzer.client Sample.env;
     Analyzer.uniform01 := Analyzer.uniform01 Sample.env;
     Analyzer.scheduler := Analyzer.scheduler Sample.env |}.

(** No report can be opened for writing; and: every report is opened and
    the disk is full after 40 characters. *)
Definition read_only_env : Analyzer.Env := with_write Analyzer.OpenFails.
Definition full_disk_env : Analyzer.Env := with_write (Analyzer.DumpFails 40).

(** A file with a form feed on a line of its own, as page breaks are
    written, before the marked function.  The parser numbers its lines 1
    to 6: the decorator is on line 4, the function on lines 5 and 6. *)
Definition form_feed : string := String (ascii_of_nat 12) "".

Definition paged_text : string :=
  Py.join Py.newline
    [ "# tools";
      form_feed;
      "import os";
      "@mcp.tool()";
      "def run(cmd):";
      "    return os.popen(cmd).read()";
      "" ].

Definition paged_def : fundef node :=
  {| Ast.name := "run";
     fargs := {| posonlyargs := [];
                 args := [ {| arg_name := "cmd"; annotation := None |} ];
                 vararg := None; kwonlyargs := []; kwarg := None |};
     body := [OtherNode []];
     decorator_list :=
       [ Call (Sample.at_line 4)
           (Attribute (Sample.at_line 4) (Name (Sample.at_line 4) "mcp") "tool") [] [] ];
     returns := None;
     lineno := 5; end_lineno := 6;
     get_docstring := None |}.

Definition paged_tree : node := OtherNode [OtherNode []; FunctionDef paged_def].



(** A random source that always gives the largest double below 1. *)
Definition almost_one (i : nat) : Q := (1 - (1 # 2 ^ 53))%Q.

End MoreSamples.

(** ** Decorators that are the marker, by shape *)

Module MarkerShape.
Import Ast.

(** An identifier holds no dot. *)
Fixpoint dot_free (s : string) : bool :=
  match s with
  | EmptyString => true
  | String c rest => negb (Nat.eqb (nat_of_ascii c) 46) && dot_free rest
  end.

(** The identifiers the resolution of a decorator reads are identifiers. *)
Fixpoint identifiers_dot_free (e : expr) : bool :=
  match e with
  | Name _ id => dot_free id
  | Attribute _ value attr => dot_free attr && identifiers_dot_free value
  | Call _ func _ _ => identifiers_dot_free func
  | OtherExpr _ => true
  end.

(** [mcp] or [mcp(...)]. *)
Definition is_mcp (e : expr) : bool :=
  match e with
  | Name _ id => String.eqb id "mcp"
  | Call _ (Name _ id) _ _ => String.eqb id "mcp"
  | _ => false
  end.

(** [<mcp or mcp(...)>.tool] *)
Definition is_mcp_tool_attribute (e : expr) : bool :=
  match e with
  | Attribute _ value attr => String.eqb attr "tool" && is_mcp value
  | _ => false
  end.

(** [<mcp or mcp(...)>.tool], called or not. *)
Definition marker_shape (e : expr) : bool :=
  match e with
  | Call _ func _ _ => is_mcp_tool_attribute func
  | _ => is_mcp_tool_attribute e
  end.

End MarkerShape.

(** ** [sse_tool.py]: [generate_test_parameters]

    The schema of a tool is a value decoded from JSON.  A dict is an
    association list with distinct keys, in insertion order.  Whether the
    next [random.random()] is above 0.85 is asked of [above], by the
    number of earlier draws. *)

Module SseTool.

Inductive value :=
| VNone
| VBool (b : bool)
| VInt (z : Z)
| VFloat (q : Q)
| VStr (s : string)
| VList (items : list value)
| VDict (entries : list (string * value)).

Inductive result (A : Type) :=
| Return (a : A)
| Raise (exn : string).
Arguments Return {A}.
Arguments Raise {A}.

(** [bool(v)] *)
Definition truthy (v : value) : bool :=
  match v with
  | VNone => false
  | VBool b => b
  | VInt z => negb (z =? 0)%Z
  | VFloat q => negb (Qeq_bool q 0)
  | VStr s => negb (String.eqb s "")
  | VList items => match items with [] => false | _ => true end
  | VDict entries => match entries with [] => false | _ => true end
  end.

(** [isinstance(v, dict)] *)
Definition is_dict (v : value) : bool :=
  match v with VDict _ => true | _ => false end.

(** [v == s] for a [str] [s] *)
Definition equals_str (v : value) (s : string) : bool :=
  match v with VStr t => String.eqb t s | _ => false end.

(** [v is None] *)
Definition is_none (v : value) : bool :=
  match v with VNone => true | _ => false end.

Fixpoint lookup (d : list (string * value)) (key : string) : option value :=
  match d with
  | [] => None
  | (k, v) :: rest => if String.eqb k key then Some v else lookup rest key
  end.

(** [d.get(key, default)]; [d.get(key)] has the default [None]. *)
Definition get (d : list (string * value)) (key : string) (default : value) : value :=
  match lookup d key with Some v => v | None => default end.

(** [d[key] = v] *)
Fixpoint set (d : list (string * value)) (key : string) (v : value) : list (string * value) :=
  match d with
  | [] => [(key, v)]
  | (k, v') :: rest => if String.eqb k key then (k, v) :: rest else (k, v') :: set rest key v
  end.

Fixpoint chars (s : string) : list value :=
  match s with
  | EmptyString => []
  | String c rest => VStr (String c "") :: chars rest
  end.

(** [name in container], for a [str] [name]. *)
Definition is_in (name : string) (container : value) : result bool :=
  match container with
  | VList items => Return (existsb (fun e => equals_str e name) items)
  | VDict entries => Return (match lookup entries name with Some _ => true | None => false end)
  | VStr s => Return (Analyzer.contains name s)
  | _ => Raise "TypeError: argument is not iterable"
  end.

(** What [for x in v] goes through. *)
Definition iterate (v : value) : result (list value) :=
  match v with
  | VList items => Return items
  | VDict entries => Return (map (fun kv => VStr (fst kv)) entries)
  | VStr s => Return (chars s)
  | _ => Raise "TypeError: object is not iterable"
  end.

(** The loop over [param_spec["anyOf"]]: the first option with a type that
    is truthy and not [null] gives the type and ends the loop. *)
Fixpoint main_type (options : list value) (param_type : value) : result value :=
  match options with
  | [] => Return param_type
  | type_option :: rest =>
      match type_option with
      | VDict o =>
          if truthy (get o "type" VNone) && negb (equals_str (get o "type" VNone) "null")
          then Return (get o "type" VNone)
          else main_type rest param_type
      | _ => Raise "AttributeError: object has no attribute 'get'"
      end
  end.

Definition resolve_type (param_spec : list (string * value)) : result value :=
  let param_type := get param_spec "type" VNone in
  match lookup param_spec "anyOf" with
  | Some any_of =>
      match iterate any_of with
      | Return options => main_type options param_type
      | Raise e => Raise e
      end
  | None => Return param_type
  end.

(** The value for one parameter, if its type gets one, and whether a
    random number was drawn. *)
Definition test_value (above : bool) (param_spec : list (string * value)) (param_type : value)
  : result (option value * bool) :=
  if equals_str param_type "string" then Return (Some (VStr "admin"), false)
  else if equals_str param_type "integer" then
    let default := get param_spec "default" VNone in
    Return (Some (if is_none default then VInt (-1) else default), false)
  else if equals_str param_type "number" then
    let default := get param_spec "default" VNone in
    Return (Some (if is_none default then VFloat (-1) else default), false)
  else if equals_str param_type "array" then
    if above then Return (Some (VList [VInt (-1); VInt (2 ^ 32)]), true)
    else Return (Some (VList [VStr "'"; VStr ">"]), true)
  else if equals_str param_type "object" then
    match get param_spec "properties" (VDict []) with
    | VDict sub_properties =>
        Return (Some (VDict (map (fun kv => (fst kv, VStr "test_value")) sub_properties)),
                false)
    | _ => Raise "AttributeError: object has no attribute 'keys'"
    end
  else Return (None, false).

(** The loop over [properties.items()]. *)
Fixpoint fill (above : nat -> bool) (required : value) (properties : list (string * value))
  (test_params : list (string * value)) (draws : nat) : result (list (string * value)) :=
  match properties with
  | [] => Return test_params
  | (param_name, param_spec) :: rest =>
      match is_in param_name required with
      | Raise e => Raise e
      | Return _ =>
          match param_spec with
          | VDict spec =>
              match resolve_type spec with
              | Raise e => Raise e
              | Return param_type =>
                  match test_value (above draws) spec param_type with
                  | Raise e => Raise e
                  | Return (Some v, drew) =>
                      fill above required rest (set test_params param_name v)
                        (if drew then S draws else draws)
                  | Return (None, drew) =>
                      fill above required rest test_params (if drew then S draws else draws)
                  end
              end
          | _ => Raise "AttributeError: object has no attribute 'get'"
          end
      end
  end.

Definition generate_test_parameters (above : nat -> bool) (tool_schema : value)
  : result (list (string * value)) :=
  if negb (truthy tool_schema) || negb (is_dict tool_schema) then Return []
  else
    match tool_schema with
    | VDict schema =>
        let properties := get schema "properties" (VDict []) in
        let required := get schema "required" (VList []) in
        match properties with
        | VDict props => fill above required props [] 0
        | _ => Raise "AttributeError: object has no attribute 'items'"
        end
    | _ => Return []
    end.

(** The types that get a test value. *)
Definition valued_type (t : value) : bool :=
  equals_str t "string" || equals_str t "integer" || equals_str t "number"
  || equals_str t "array" || equals_str t "object".

(** The values [for] and [in] accept. *)
Definition iterable (v : value) : bool :=
  match v with VList _ | VDict _ | VStr _ => true | _ => false end.

(** A parameter as a JSON schema writes it: a dict, its [anyOf] a list of
    dicts, its [properties] a dict. *)
Definition plain_spec (v : value) : Prop :=
  exists spec,
    v = VDict spec /\
    (forall any_of, lookup spec "anyOf" = Some any_of ->
       exists options, any_of = VList options /\ Forall (fun o => is_dict o = true) options) /\
    (forall sub, lookup spec "properties" = Some sub -> is_dict sub = true).

(** Three properties: a string, a boolean and an integer with a default. *)
Definition sample_properties : list (string * value) :=
  [ ("user", VDict [("type", VStr "string")]);
    ("force", VDict [("type", VStr "boolean")]);
    ("count", VDict [("anyOf", VList [VDict [("type", VStr "null")];
                                      VDict [("type", VStr "integer")]]);
                     ("default", VInt 5)]) ].

Definition sample_entries (required : value) : list (string * value) :=
  [ ("type", VStr "object");
    ("properties", VDict sample_properties);
    ("required", required) ].

Definition sample_schema (required : value) : value := VDict (sample_entries required).

End SseTool.

(** * Properties *)

Import Ast Extractor.

(** ** Python strings and lists *)

Example splitlines_ex1 :
Py.splitlines ("a" +:+ Py.newline +:+ Py.newline +:+ "b" +:+ Py.newline) = ["a"; ""; "b"].
Proof. reflexivity. Qed.

Example splitlines_ex2 : Py.splitlines "" = [] /\ Py.splitlines Py.newline = [""].
Proof. split; reflexivity. Qed.

Example splitlines_crlf :
Py.splitlines ("x" +:+ String (ascii_of_nat 13) (String (ascii_of_nat 10) "y")) = ["x"; "y"].
Proof. reflexivity. Qed.

Example slice_ex :
Py.slice [1; 2; 3; 4; 5] 1 3 = [2; 3] /\ Py.slice [1; 2; 3] 2 9 = [3]
/\ Py.slice [1; 2; 3] (-1) 3 = [3].
Proof. repeat split; reflexivity. Qed.

(** ** The samples, run *)

Example extract_run :
  extract_tool_functions Sample.run_text Sample.unparse_names Sample.run_tree
  = [ {| name := "run";
         source_code :=
           Py.join Py.newline
             [ "@mcp.tool()"; "@other";
               "def run(cmd, n: int) -> str:"; "    return os.popen(cmd).read()" ];
         docstring := "";
         signature_of := {| parameters := [("cmd", ""); ("n", "int")]; return_type := "str" |};
         line_number := 5;
         file_path := None;
         analysis := None |} ].
Proof. reflexivity. Qed.

Example decorator_names :
  _get_decorator_name Sample.mcp_tool_call = "mcp.tool"
  /\ _get_decorator_name Sample.mcp_tool_attr = "mcp.tool"
  /\ _get_decorator_name Sample.tool_name = "tool".
Proof. repeat split; reflexivity. Qed.

Example extensions :
  Analyzer.extension_of "Python" = ".py" /\ Analyzer.extension_of "C#" = ".cs"
  /\ Analyzer.extension_of "Lua" = ".lua".
Proof. repeat split; reflexivity. Qed.

Example selected_rows :
  Analyzer.read_repos_from_csv Sample.env "repos.csv" (Some "Go") = ["mcp_repos/acme_server"]
  /\ Analyzer.read_repos_from_csv Sample.env "repos.csv" None
     = ["mcp_repos/acme_done"; "mcp_repos/acme_server"].
Proof. split; reflexivity. Qed.

Example worker_third_time :
  Worker.sleeps (snd (Worker.analyze_tool_with_llm Sample.third_time_client Sample.half
                        Sample.run_tool))
  = [(2 + (1 # 2))%Q; (4 + (1 # 2))%Q]
  /\ Worker.calls (snd (Worker.analyze_tool_with_llm Sample.third_time_client Sample.half
                          Sample.run_tool)) = 3.
Proof. split; reflexivity. Qed.

(** ** The traversal *)

Lemma sizes_app (l1 l2 : list node) : sizes (l1 ++ l2) = sizes l1 + sizes l2.
Proof. induction l1 as [|c l1 IH]; simpl; [reflexivity | rewrite IH; lia]. Qed.

Lemma node_size_children (n : node) : node_size n = S (sizes (iter_child_nodes n)).
Proof. destruct n; reflexivity. Qed.

Lemma occurs_in_inv (n t : node) :
  occurs_in n t <-> n = t \/ exists c, In c (iter_child_nodes t) /\ occurs_in n c.
Proof.
  split.
  - intros H. destruct H as [|t c Hc Hn]; [left; reflexivity | right; eauto].
  - intros [-> | (c & Hc & Hn)]; [constructor | econstructor; eauto].
Qed.

(** With fuel for every node in the queue, the walk reaches exactly the
    nodes that occur in the queued trees. *)
Lemma walk_from_spec (fuel : nat) : forall (todo : list node) (n : node),
  sizes todo <= fuel ->
  In n (walk_from fuel todo) <-> exists t, In t todo /\ occurs_in n t.
Proof.
  induction fuel as [|fuel IH]; intros todo n Hfuel.
  - destruct todo as [|t rest].
    + simpl. split; [tauto | intros (t & [] & _)].
    + simpl in Hfuel. rewrite node_size_children in Hfuel. lia.
  - destruct todo as [|t rest].
    + simpl. split; [tauto | intros (t & [] & _)].
    + change (walk_from (S fuel) (t :: rest))
        with (t :: walk_from fuel (rest ++ iter_child_nodes t)).
      simpl in Hfuel. rewrite node_size_children in Hfuel.
      assert (Hle : sizes (rest ++ iter_child_nodes t) <= fuel)
        by (rewrite sizes_app; lia).
      specialize (IH (rest ++ iter_child_nodes t) n Hle).
      split.
      * intros [<- | Hin].
        -- exists t. split; [left; reflexivity | constructor].
        -- apply IH in Hin as (t' & Ht' & Hocc).
           apply in_app_or in Ht' as [Ht' | Ht'].
           ++ exists t'. split; [right; exact Ht' | exact Hocc].
           ++ exists t. split; [left; reflexivity | econstructor; eauto].
      * intros (t' & [<- | Ht'] & Hocc).
        -- apply occurs_in_inv in Hocc as [-> | (c & Hc & Hocc)]; [left; reflexivity |].
           right. apply IH. exists c. split; [apply in_or_app; right; exact Hc | exact Hocc].
        -- right. apply IH. exists t'. split; [apply in_or_app; left; exact Ht' | exact Hocc].
Qed.

Lemma walk_spec (tree n : node) : In n (walk tree) <-> occurs_in n tree.
Proof.
  unfold walk. rewrite walk_from_spec by (simpl; lia).
  split.
  - intros (t & [<- | []] & H). exact H.
  - intros H. exists tree. split; [left; reflexivity | exact H].
Qed.

(** ** Which functions are recorded *)

Lemma scan_decorators_spec (text : string) (unparse : expr -> string)
  (f : fundef node) (ds : list expr) :
  scan_decorators text unparse f ds =
  if existsb _is_mcp_tool_decorator ds then [function_info text unparse f] else [].
Proof.
  induction ds as [|d ds IH]; simpl; [reflexivity |].
  destruct (_is_mcp_tool_decorator d); [reflexivity | exact IH].
Qed.

Lemma visit_spec (text : string) (unparse : expr -> string) (n : node) (r : tool_record) :
  In r (visit text unparse n) <->
  exists f, as_fundef n = Some f /\ marked f = true /\ r = function_info text unparse f.
Proof.
  unfold marked. split.
  - destruct n as [f | f | cs]; simpl; try tauto;
      rewrite scan_decorators_spec;
      destruct (existsb _ _) eqn:E; simpl; try tauto;
      intros [<- | []]; exists f; auto.
  - intros (f & Hn & Hm & ->).
    destruct n as [f' | f' | cs]; simpl in Hn; try discriminate;
      injection Hn as ->; simpl; rewrite scan_decorators_spec, Hm; left; reflexivity.
Qed.

(** The records are those of the marked function definitions of the tree. *)
Lemma extract_tool_functions_spec (text : string) (unparse : expr -> string)
  (tree : node) (r : tool_record) :
  In r (extract_tool_functions text unparse tree) <->
  exists n f, occurs_in n tree /\ as_fundef n = Some f /\ marked f = true
              /\ r = function_info text unparse f.
Proof.
  unfold extract_tool_functions. rewrite in_flat_map. split.
  - intros (n & Hn & Hr). apply walk_spec in Hn. apply visit_spec in Hr as (f & ? & ? & ?).
    exists n, f. auto.
  - intros (n & f & Hn & Hf & Hm & Hr). exists n. split; [apply walk_spec; exact Hn |].
    apply visit_spec. exists f. auto.
Qed.

(** ** Marker resolution *)

Lemma dotted_name_agrees (e : expr) :
  Spec.dotted e = true -> _get_decorator_name e = Spec.qualified_name e.
Proof.
  induction e as [sp id | sp base IH attr | sp callee IH args kws | sp]; simpl; intros H.
  - reflexivity.
  - rewrite (IH H). reflexivity.
  - discriminate.
  - discriminate.
Qed.

(** On the three shapes the name the code computes is the qualified name
    of the specification. *)
Lemma decorator_name_agrees (d : expr) :
  Spec.recognised_shape d = true -> _get_decorator_name d = Spec.qualified_name d.
Proof.
  destruct d as [sp id | sp base attr | sp callee args kws | sp]; simpl; intros H.
  - reflexivity.
  - rewrite (dotted_name_agrees base H). reflexivity.
  - destruct callee as [sp' id | sp' base attr | sp' callee' args' kws' | sp'];
      simpl in *; try discriminate; try reflexivity.
    rewrite (dotted_name_agrees base H). reflexivity.
  - discriminate.
Qed.

Lemma is_mcp_tool_decorator_spec (d : expr) :
  Spec.recognised_shape d = true ->
  (_is_mcp_tool_decorator d = true <-> Spec.qualified_name d = Spec.marker).
Proof.
  intros H. unfold _is_mcp_tool_decorator, Spec.marker.
  rewrite (decorator_name_agrees d H). apply String.eqb_eq.
Qed.

(** C2.  Marker resolution equivalence.  For a decorator of one of the
    three shapes (a bare identifier, a dotted attribute access, a call
    whose callee is one of those) the name the code resolves is the
    structurally resolved qualified name, and the decorator is the marker
    exactly when that name is [mcp.tool]; two such decorators with the
    same qualified name are treated alike, whatever their shape, their
    call arguments and their position in the text.  A function definition,
    sync or async alike, whose decorators all have these shapes is marked
    exactly when one of them resolves to the marker, and a marked function
    that occurs in the tree is recorded. *)
Theorem marker_resolution_equivalence :
  (forall d : expr,
     Spec.recognised_shape d = true ->
     _get_decorator_name d = Spec.qualified_name d
     /\ (_is_mcp_tool_decorator d = true <-> Spec.qualified_name d = Spec.marker))
  /\ (forall d1 d2 : expr,
        Spec.recognised_shape d1 = true -> Spec.recognised_shape d2 = true ->
        Spec.qualified_name d1 = Spec.qualified_name d2 ->
        _is_mcp_tool_decorator d1 = _is_mcp_tool_decorator d2)
  /\ (forall f : fundef node,
        Forall (fun d => Spec.recognised_shape d = true) (decorator_list f) ->
        (marked f = true <->
         Exists (fun d => Spec.qualified_name d = Spec.marker) (decorator_list f)))
  /\ (forall (text : string) (unparse : expr -> string) (f : fundef node),
        visit text unparse (FunctionDef f) = visit text unparse (AsyncFunctionDef f)
        /\ visit text unparse (FunctionDef f) =
           if marked f then [function_info text unparse f] else [])
  /\ (forall (text : string) (unparse : expr -> string) (tree n : node) (f : fundef node),
        occurs_in n tree -> as_fundef n = Some f ->
        Forall (fun d => Spec.recognised_shape d = true) (decorator_list f) ->
        Exists (fun d => Spec.qualified_name d = Spec.marker) (decorator_list f) ->
        In (function_info text unparse f) (extract_tool_functions text unparse tree)).
Proof.
  assert (Hmarked : forall f : fundef node,
             Forall (fun d => Spec.recognised_shape d = true) (decorator_list f) ->
             (marked f = true <->
              Exists (fun d => Spec.qualified_name d = Spec.marker) (decorator_list f))).
  { intros f Hshapes. unfold marked.
    induction Hshapes as [|d ds Hd Hds IH]; simpl.
    - split; [discriminate | intros H; inversion H].
    - rewrite Exists_cons, orb_true_iff, IH, (is_mcp_tool_decorator_spec d Hd). tauto. }
  split; [|split; [|split; [|split]]].
  - intros d H. split; [apply decorator_name_agrees | apply is_mcp_tool_decorator_spec]; exact H.
  - intros d1 d2 H1 H2 Heq. unfold _is_mcp_tool_decorator.
    rewrite (decorator_name_agrees d1 H1), (decorator_name_agrees d2 H2), Heq. reflexivity.
  - exact Hmarked.
  - intros text unparse f. split; [reflexivity |].
    simpl. apply scan_decorators_spec.
  - intros text unparse tree n f Hocc Hf Hshapes Hex.
    apply extract_tool_functions_spec. exists n, f.
    repeat split; try assumption. apply Hmarked; assumption.
Qed.

Lemma marker_resolution_witness :
  _is_mcp_tool_decorator Sample.mcp_tool_call = true
  /\ _is_mcp_tool_decorator Sample.mcp_tool_call = _is_mcp_tool_decorator Sample.mcp_tool_attr
  /\ marked Sample.run_def = true
  /\ In (function_info Sample.run_text Sample.unparse_names Sample.run_def)
        (extract_tool_functions Sample.run_text Sample.unparse_names Sample.run_tree).
Proof.
  destruct marker_resolution_equivalence as (H1 & H2 & H3 & _ & H5).
  assert (Hshapes : Forall (fun d => Spec.recognised_shape d = true)
                           (decorator_list Sample.run_def)).
  { repeat constructor. }
  assert (Hex : Exists (fun d => Spec.qualified_name d = Spec.marker)
                       (decorator_list Sample.run_def)).
  { left. reflexivity. }
  split; [|split; [|split]].
  - apply (H1 Sample.mcp_tool_call); reflexivity.
  - apply (H2 Sample.mcp_tool_call Sample.mcp_tool_attr); reflexivity.
  - apply (H3 Sample.run_def); assumption.
  - apply (H5 Sample.run_text Sample.unparse_names Sample.run_tree
              (AsyncFunctionDef Sample.run_def) Sample.run_def); try assumption.
    + eapply occurs_below; [right; left; reflexivity | constructor].
    + reflexivity.
Defined.

(** ** Source spans *)









(** C5.  Source span and start line, on a file with a form feed on a line
    of its own before the marked function.  The parser numbers the lines
    of the file 1 to 6, with the decorator on line 4 and the function on
    lines 5 and 6; the function is extracted, and its [line_number] is 5,
    the line of the definition.  Its source span is the decorator line and
    the two lines of the function.  The extractor cuts the lines with
    [str.splitlines], which ends a line at the form feed as well and so
    counts one line more: its [source_code] starts one line early and
    ends one line early, with [import os] in the place of the decorator
    and without the body of the function. *)
Theorem source_span_breaks_on_form_feed :
  Spec.source_lines MoreSamples.paged_text
    = [ "# tools"; MoreSamples.form_feed; "import os"; "@mcp.tool()";
        "def run(cmd):"; "    return os.popen(cmd).read()" ]
  /\ extract_tool_functions MoreSamples.paged_text Sample.unparse_names MoreSamples.paged_tree
     = [function_info MoreSamples.paged_text Sample.unparse_names MoreSamples.paged_def]
  /\ line_number (function_info MoreSamples.paged_text Sample.unparse_names
                    MoreSamples.paged_def) = 5%Z
  /\ Spec.source_span MoreSamples.paged_text MoreSamples.paged_def
     = Py.join Py.newline
         [ "@mcp.tool()"; "def run(cmd):"; "    return os.popen(cmd).read()" ]
  /\ source_code (function_info MoreSamples.paged_text Sample.unparse_names
                    MoreSamples.paged_def)
     = Py.join Py.newline [ "import os"; "@mcp.tool()"; "def run(cmd):" ]
  /\ source_code (function_info MoreSamples.paged_text Sample.unparse_names
                    MoreSamples.paged_def)
     <> Spec.source_span MoreSamples.paged_text MoreSamples.paged_def.
Proof.
  split; [reflexivity | split; [reflexivity | split; [reflexivity |]]].
  split; [reflexivity | split; [reflexivity |]].
  vm_compute. discriminate.
Qed.

(** ** Signatures *)

Lemma dict_set_fresh (d : list (string * string)) (k v : string) :
  ~ In k (map fst d) -> dict_set d k v = d ++ [(k, v)].
Proof.
  induction d as [|[k' v'] d IH]; simpl; intros Hk; [reflexivity |].
  destruct (String.eqb_spec k' k) as [-> | _]; [tauto |].
  rewrite IH by tauto. reflexivity.
Qed.

Lemma fold_dict_set_distinct (value : arg -> string) (l : list arg) :
  forall acc : list (string * string),
    List.NoDup (map fst acc ++ map arg_name l) ->
    fold_left (fun params a => dict_set params (arg_name a) (value a)) l acc
    = acc ++ map (fun a => (arg_name a, value a)) l.
Proof.
  induction l as [|a l IH]; intros acc Hnd; simpl.
  - rewrite app_nil_r. reflexivity.
  - assert (Hfresh : ~ In (arg_name a) (map fst acc)).
    { intros Hin. apply NoDup_ListNoDup in Hnd. apply NoDup_app in Hnd as (_ & Hdisj & _).
      apply (Hdisj (arg_name a)); [apply list_elem_of_In; exact Hin | left]. }
    rewrite dict_set_fresh by exact Hfresh.
    rewrite IH.
    + rewrite <- app_assoc. reflexivity.
    + rewrite map_app. simpl. rewrite <- app_assoc. exact Hnd.
Qed.

(** The positional-or-keyword parameters ([node.args.args]) are listed in
    declaration order with their declared types, when their names are
    distinct and [ast.unparse] never gives the empty string. *)
Lemma signature_lists_args (unparse : expr -> string) (f : fundef node) :
  (forall e, unparse e <> "") ->
  List.NoDup (map arg_name (args (fargs f))) ->
  Spec.signature_parameters (_get_function_signature unparse f)
  = map (Spec.declared unparse) (args (fargs f))
  /\ Spec.type_expr (return_type (_get_function_signature unparse f))
     = unparse <$> returns f.
Proof.
  intros Hne Hnd. unfold Spec.signature_parameters, _get_function_signature. simpl.
  assert (Hty : forall o : option expr,
             Spec.type_expr (match o with Some t => unparse t | None => "" end)
             = unparse <$> o).
  { intros [t|]; simpl; [| reflexivity]. unfold Spec.type_expr.
    destruct (String.eqb_spec (unparse t) ""); [exfalso; eapply Hne; eauto | reflexivity]. }
  split; [| apply Hty].
  rewrite fold_dict_set_distinct by exact Hnd. simpl.
  rewrite map_map. apply map_ext. intros a. unfold Spec.declared, param_type. simpl.
  rewrite Hty. reflexivity.
Qed.

(** C8.  Signature extraction, at [def f(a, /, b: int, *rest, c, **kw)]:
    the function declares five parameters, the extracted signature lists
    only the positional-or-keyword one. *)
Theorem signature_misses_parameters :
  map fst (map (Spec.declared Sample.unparse_names)
               (Spec.declared_parameters (fargs Sample.f_def)))
    = ["a"; "b"; "rest"; "c"; "kw"]
  /\ Spec.signature_parameters (_get_function_signature Sample.unparse_names Sample.f_def)
     = [("b", Some "int")].
Proof. split; reflexivity. Qed.

(** ** Floats *)

Import Float.

Lemma round_half_even_near (y : Q) :
  (inject_Z (round_half_even y) - (1 # 2) <= y)%Q
  /\ (y <= inject_Z (round_half_even y) + (1 # 2))%Q
  /\ (Qfloor y <= round_half_even y)%Z
  /\ (forall z : Z, (y <= inject_Z z)%Q -> (round_half_even y <= z)%Z).
Proof.
  unfold round_half_even.
  pose proof (Qfloor_le y) as Hlo. pose proof (Qlt_floor y) as Hhi.
  set (f := Qfloor y) in *.
  rewrite inject_Z_plus in Hhi. change (inject_Z 1) with 1%Q in Hhi.
  assert (Hf : Qfloor y = f) by reflexivity. clearbody f.
  assert (Hz : forall z : Z, (y <= inject_Z z)%Q -> (y - inject_Z f > 0)%Q -> (f + 1 <= z)%Z).
  { intros z Hz Hpos.
    assert (Hlt : (inject_Z f < inject_Z z)%Q) by lra.
    rewrite <- Zlt_Qlt in Hlt. lia. }
  assert (Hz0 : forall z : Z, (y <= inject_Z z)%Q -> (f <= z)%Z).
  { intros z Hz'. rewrite Zle_Qle. lra. }
  assert (Hup : forall z : Z, (y <= inject_Z z)%Q -> (0 < y - inject_Z f)%Q -> (f + 1 <= z)%Z)
    by exact Hz.
  destruct (Qcompare_spec (y - inject_Z f) (1 # 2)) as [Heq | Hlt | Hgt].
  - destruct (Z.even f).
    + split; [lra | split; [lra | split; [lia | exact Hz0]]].
    + rewrite inject_Z_plus. change (inject_Z 1) with 1%Q.
      split; [lra | split; [lra | split; [lia |]]].
      intros z Hz'. apply Hup; [exact Hz' | lra].
  - split; [lra | split; [lra | split; [lia | exact Hz0]]].
  - rewrite inject_Z_plus. change (inject_Z 1) with 1%Q.
    split; [lra | split; [lra | split; [lia |]]].
    intros z Hz'. apply Hup; [exact Hz' | lra].
Qed.

Lemma floor_log2_binade (k : Z) (x : Q) :
  (0 <= k)%Z -> (inject_Z (2 ^ k) <= x)%Q -> (x < inject_Z (2 ^ (k + 1)))%Q ->
  floor_log2 x = k.
Proof.
  intros Hk Hlo Hhi. unfold floor_log2.
  assert (H1 : (1 <= 2 ^ k)%Z) by (apply Z.pow_pos_nonneg with (a := 2%Z) in Hk; lia).
  assert (Hx1 : (1 <= x)%Q).
  { apply Qle_trans with (inject_Z (2 ^ k)); [| exact Hlo].
    change 1%Q with (inject_Z 1). rewrite <- Zle_Qle. exact H1. }
  apply Qle_bool_iff in Hx1. rewrite Hx1.
  assert (Hf1 : (2 ^ k <= Qfloor x)%Z).
  { rewrite <- (Qfloor_Z (2 ^ k)). apply Qfloor_resp_le. exact Hlo. }
  assert (Hf2 : (Qfloor x < 2 ^ (k + 1))%Z).
  { rewrite Zlt_Qlt. apply Qle_lt_trans with x; [apply Qfloor_le | exact Hhi]. }
  apply Z.log2_unique; [exact Hk | split; [exact Hf1 |]].
  replace (Z.succ k) with (k + 1)%Z by lia. exact Hf2.
Qed.

(** In the binade of [2^k], [0 <= k <= 52], rounding stays between any two
    integers that enclose the value and moves it by at most half a unit in
    the last place. *)
Lemma round_between (k lo hi : Z) (x : Q) :
  (0 <= k <= 52)%Z -> (2 ^ k <= lo)%Z -> (hi <= 2 ^ (k + 1))%Z ->
  (inject_Z lo <= x)%Q -> (x <= inject_Z hi)%Q -> (x < inject_Z (2 ^ (k + 1)))%Q ->
  (inject_Z lo <= round x)%Q /\ (round x <= inject_Z hi)%Q
  /\ (round x - x <= pow2 (k - 53))%Q /\ (x - round x <= pow2 (k - 53))%Q.
Proof.
  intros Hk Hlo Hhi Hx1 Hx2 Hx3.
  assert (H1 : (1 <= 2 ^ k)%Z) by (assert (0 < 2 ^ k)%Z by (apply Z.pow_pos_nonneg; lia); lia).
  assert (Hpos : (0 < x)%Q).
  { apply Qlt_le_trans with (inject_Z lo); [| exact Hx1].
    change 0%Q with (inject_Z 0). rewrite <- Zlt_Qlt. lia. }
  unfold round. 
  assert (Hc : (x ?= 0)%Q = Gt) by (apply Qgt_alt; exact Hpos).
  rewrite Hc. unfold round_pos. rewrite Qred_correct.
  assert (Hlog : floor_log2 x = k).
  { apply floor_log2_binade; [lia | | exact Hx3].
    apply Qle_trans with (inject_Z lo); [| exact Hx1]. rewrite <- Zle_Qle. exact Hlo. }
  unfold ulp. rewrite Hlog.
  replace (Z.max (k - 52) (-1074)) with (k - 52)%Z by lia.
  set (S := (2 ^ (52 - k))%Z).
  assert (HS : (0 < S)%Z) by (apply Z.pow_pos_nonneg; lia).
  set (P := Z.to_pos S).
  assert (HP : Zpos P = S) by (subst P; apply Z2Pos.id; exact HS).
  assert (Hpow : pow2 (k - 52) = 1 # P).
  { unfold pow2. destruct (Z.ltb_spec 0 (k - 52)) as [Hbad | _]; [lia |].
    replace (- (k - 52))%Z with (52 - k)%Z by lia. reflexivity. }
  rewrite !Hpow.
  assert (Hy : (x / (1 # P) == x * inject_Z S)%Q).
  { unfold Qdiv, Qinv. simpl. rewrite <- HP. reflexivity. }
  set (y := (x / (1 # P))%Q) in *.
  destruct (round_half_even_near y) as (Hn1 & Hn2 & Hn3 & Hn4).
  set (m := round_half_even y) in *.
  assert (Hu : (inject_Z m * (1 # P) == inject_Z m / inject_Z S)%Q).
  { unfold Qdiv, Qinv, Qmult, Qeq, inject_Z. simpl. rewrite <- HP. simpl. lia. }
  rewrite Hu.
  assert (HSq : (0 < inject_Z S)%Q) by (change 0%Q with (inject_Z 0); rewrite <- Zlt_Qlt; exact HS).
  assert (Hlo' : (lo * S <= m)%Z).
  { apply Z.le_trans with (Qfloor y); [| exact Hn3].
    rewrite <- (Qfloor_Z (lo * S)). apply Qfloor_resp_le.
    rewrite Hy, inject_Z_mult. apply Qmult_le_compat_r; [exact Hx1 | apply Qlt_le_weak; exact HSq]. }
  assert (Hhi' : (m <= hi * S)%Z).
  { apply Hn4. rewrite Hy, inject_Z_mult.
    apply Qmult_le_compat_r; [exact Hx2 | apply Qlt_le_weak; exact HSq]. }
  assert (Hhalf : (pow2 (k - 53) == (1 # 2) / inject_Z S)%Q).
  { unfold pow2. destruct (Z.ltb_spec 0 (k - 53)) as [Hbad | _]; [lia |].
    replace (- (k - 53))%Z with (Z.succ (52 - k)) by lia.
    rewrite Z.pow_succ_r by lia. fold S.
    unfold Qdiv, Qinv, Qmult, Qeq, inject_Z. simpl.
    rewrite <- HP. simpl. reflexivity. }
  rewrite Hhalf.
  assert (Hxy : (x == y / inject_Z S)%Q).
  { rewrite Hy. field. intros H0. rewrite H0 in HSq. apply (Qlt_irrefl 0). exact HSq. }
  repeat split.
  - apply Qle_shift_div_l; [exact HSq |]. rewrite <- inject_Z_mult, <- Zle_Qle. exact Hlo'.
  - apply Qle_shift_div_r; [exact HSq |]. rewrite <- inject_Z_mult, <- Zle_Qle. exact Hhi'.
  - rewrite Hxy at 1.
    setoid_replace (inject_Z m / inject_Z S - y / inject_Z S)%Q
      with ((inject_Z m - y) / inject_Z S)%Q using relation Qeq by (unfold Qdiv; ring).
    unfold Qdiv. apply Qmult_le_compat_r; [lra |].
    apply Qlt_le_weak, Qinv_lt_0_compat. exact HSq.
  - rewrite Hxy at 1.
    setoid_replace (y / inject_Z S - inject_Z m / inject_Z S)%Q
      with ((y - inject_Z m) / inject_Z S)%Q using relation Qeq by (unfold Qdiv; ring).
    unfold Qdiv. apply Qmult_le_compat_r; [lra |].
    apply Qlt_le_weak, Qinv_lt_0_compat. exact HSq.
Qed.

Example add_rounds :
  Float.add 2 (1 # 2) = (5 # 2)%Q
  /\ Float.add 2 (1 - (1 # 2 ^ 53)) = 3%Q
  /\ Float.add 4 (1 - (1 # 2 ^ 53)) = 5%Q.
Proof. repeat split; vm_compute; reflexivity. Qed.

Lemma of_int_small : Float.of_int 2 = 2%Q /\ Float.of_int 4 = 4%Q.
Proof. split; vm_compute; reflexivity. Qed.

(** The sum of [2^k] and a jitter in [0, 1), as a float. *)
Lemma add_jitter (k : Z) (j : Q) :
  (0 <= k <= 52)%Z -> (0 <= j)%Q -> (j < 1)%Q ->
  (inject_Z (2 ^ k) <= Float.add (inject_Z (2 ^ k)) j)%Q
  /\ (Float.add (inject_Z (2 ^ k)) j <= inject_Z (2 ^ k) + 1)%Q
  /\ (Float.add (inject_Z (2 ^ k)) j - (inject_Z (2 ^ k) + j) <= pow2 (k - 53))%Q
  /\ (inject_Z (2 ^ k) + j - Float.add (inject_Z (2 ^ k)) j <= pow2 (k - 53))%Q.
Proof.
  intros Hk Hj0 Hj1. unfold Float.add.
  assert (H1 : (1 <= 2 ^ k)%Z)
    by (assert (0 < 2 ^ k)%Z by (apply Z.pow_pos_nonneg; lia); lia).
  assert (Hq1 : (1 <= inject_Z (2 ^ k))%Q)
    by (change 1%Q with (inject_Z 1); rewrite <- Zle_Qle; exact H1).
  destruct (round_between k (2 ^ k) (2 ^ k + 1) (inject_Z (2 ^ k) + j)) as (Ha & Hb & Hc & Hd).
  - exact Hk.
  - lia.
  - rewrite Z.pow_add_r by lia. lia.
  - lra.
  - rewrite inject_Z_plus. change (inject_Z 1) with 1%Q. lra.
  - rewrite Z.pow_add_r, inject_Z_mult by lia. change (inject_Z (2 ^ 1)) with 2%Q. lra.
  - rewrite inject_Z_plus in Hb. change (inject_Z 1) with 1%Q in Hb.
    split; [exact Ha | split; [exact Hb | split; [exact Hc | exact Hd]]].
Qed.

(** ** The worker: retry and backoff *)

Import Worker.

Section WorkerFacts.

Variable client : string -> nat -> call_result.
Variable uniform01 : nat -> Q.

(** The loop, one iteration unfolded. *)
Lemma retry_loop_step (tool_info : tool_record) (retry_count : nat) :
  retry_loop client uniform01 tool_info retry_count =
  if retry_count <? max_retries then
    match client (build_prompt tool_info) retry_count with
    | Response a => (with_analysis tool_info a, [ECall (build_prompt tool_info) retry_count])
    | Raised e =>
        if retry_count =? max_retries - 1 then
          (with_analysis tool_info (error_message e),
           [ECall (build_prompt tool_info) retry_count])
        else
          let '(result, trace) := retry_loop client uniform01 tool_info (retry_count + 1) in
          (result,
           ECall (build_prompt tool_info) retry_count
             :: ESleep (sleep_time uniform01 (retry_count + 1)) :: trace)
    end
  else (with_analysis tool_info fallthrough_message, []).
Proof.
  rewrite retry_loop_equation_1.
  destruct (lt_dec retry_count max_retries) as [Hlt | Hge];
    destruct (Nat.ltb_spec retry_count max_retries) as [Hlt' | Hge']; try lia; simpl;
    [| reflexivity].
  destruct (client (build_prompt tool_info) retry_count) as [a | e]; simpl; [reflexivity |].
  destruct (Nat.eq_dec retry_count 2) as [Heq | Hne];
    destruct (Nat.eqb_spec retry_count 2) as [Heq' | Hne']; try lia; simpl;
    reflexivity.
Qed.

(** The worker in closed form: what it returns and what it does, by the
    results of the first three calls. *)
Lemma analyze_tool_with_llm_cases (tool_info : tool_record) :
  let p := build_prompt tool_info in
  analyze_tool_with_llm client uniform01 tool_info =
  match client p 0 with
  | Response a => (with_analysis tool_info a, [ECall p 0])
  | Raised _ =>
      match client p 1 with
      | Response a =>
          (with_analysis tool_info a,
           [ECall p 0; ESleep (sleep_time uniform01 1); ECall p 1])
      | Raised _ =>
          match client p 2 with
          | Response a =>
              (with_analysis tool_info a,
               [ECall p 0; ESleep (sleep_time uniform01 1); ECall p 1;
                ESleep (sleep_time uniform01 2); ECall p 2])
          | Raised e =>
              (with_analysis tool_info (error_message e),
               [ECall p 0; ESleep (sleep_time uniform01 1); ECall p 1;
                ESleep (sleep_time uniform01 2); ECall p 2])
          end
      end
  end.
Proof.
  intros p. unfold analyze_tool_with_llm.
  rewrite retry_loop_step. fold p. simpl.
  destruct (client p 0) as [a0 | e0]; [reflexivity |].
  rewrite retry_loop_step. fold p. simpl.
  destruct (client p 1) as [a1 | e1]; [reflexivity |].
  rewrite retry_loop_step. fold p. simpl.
  destruct (client p 2) as [a2 | e2]; reflexivity.
Qed.

End WorkerFacts.

(** C3 as stated fails: after three failed attempts the message is not
    [exhausted retries: ] followed by the last error. *)
Lemma exhausted_retries_message_counterexample :
  analysis (fst (analyze_tool_with_llm Sample.failing_client Sample.half Sample.run_tool))
    = Some "Error during analysis after 3 attempts: boom"
  /\ analysis (fst (analyze_tool_with_llm Sample.failing_client Sample.half Sample.run_tool))
     <> Some ("exhausted retries: " +:+ "boom").
Proof.
  rewrite analyze_tool_with_llm_cases. split; [reflexivity | discriminate].
Qed.

(** The wait before retry [i], for the two retries there are: the float
    sum of [2^i] and the jitter, between [2^i] and [2^i + 1] and within
    [2^-51] of the exact sum. *)
Lemma sleep_time_bounds (uniform01 : nat -> Q) (i : nat) :
  (0 <= uniform01 i)%Q -> (uniform01 i < 1)%Q ->
  1 <= i < max_retries ->
  sleep_time uniform01 i = Float.add (inject_Z (2 ^ Z.of_nat i)) (uniform01 i)
  /\ (inject_Z (2 ^ Z.of_nat i) <= sleep_time uniform01 i)%Q
  /\ (sleep_time uniform01 i <= inject_Z (2 ^ Z.of_nat i) + 1)%Q
  /\ (sleep_time uniform01 i - (inject_Z (2 ^ Z.of_nat i) + uniform01 i) <= 1 # 2 ^ 51)%Q
  /\ (inject_Z (2 ^ Z.of_nat i) + uniform01 i - sleep_time uniform01 i <= 1 # 2 ^ 51)%Q.
Proof.
  intros H0 H1 Hi. unfold max_retries in Hi.
  assert (Hcase : i = 1 \/ i = 2) by lia.
  destruct of_int_small as [Hi2 Hi4].
  destruct Hcase as [-> | ->]; unfold sleep_time, backoff_factor.
  - change (2 ^ Z.of_nat 1)%Z with 2%Z. rewrite Hi2.
    destruct (add_jitter 1 (uniform01 1) ltac:(lia) H0 H1) as (Ha & Hb & Hc & Hd).
    change (inject_Z (2 ^ 1)) with 2%Q in *. change (inject_Z 2) with 2%Q.
    assert (Hp : (pow2 (1 - 53) <= 1 # 2 ^ 51)%Q) by (vm_compute; discriminate).
    split; [reflexivity | split; [exact Ha | split; [exact Hb | split; lra]]].
  - change (2 ^ Z.of_nat 2)%Z with 4%Z. rewrite Hi4.
    destruct (add_jitter 2 (uniform01 2) ltac:(lia) H0 H1) as (Ha & Hb & Hc & Hd).
    change (inject_Z (2 ^ 2)) with 4%Q in *. change (inject_Z 4) with 4%Q.
    assert (Hp : (pow2 (2 - 53) <= 1 # 2 ^ 51)%Q) by (vm_compute; discriminate).
    split; [reflexivity | split; [exact Ha | split; [exact Hb | split; lra]]].
Qed.

(** C3, amended.  Retry and backoff schedule.  The worker makes at least
    one and at most three completion calls, and a wait only ever comes
    between two calls.  The wait before retry [i] (counted from 1) is
    [2^i] seconds plus a jitter: the value [random.uniform(0, 1)] returns
    at that retry, a draw of its own for every wait, in [0, 1) as the
    library gives it (the distribution of the draws is the library's and
    is not stated here).  The two are added as floats, so the wait is the
    double nearest to the exact sum: within [2^-51] of it, at least [2^i]
    and at most [2^i + 1].  A client that raises twice and then answers
    gives the answer as the analysis, after three calls and the two waits
    of base 2 and 4; a client that raises three times gives the analysis
    [Error during analysis after 3 attempts: ] followed by the last error,
    after three calls and the same two waits. *)
Theorem retry_backoff_schedule (client : string -> nat -> call_result)
  (uniform01 : nat -> Q) (tool_info : tool_record) :
  (forall i, (0 <= uniform01 i)%Q /\ (uniform01 i < 1)%Q) ->
  let p := build_prompt tool_info in
  let result := fst (analyze_tool_with_llm client uniform01 tool_info) in
  let trace := snd (analyze_tool_with_llm client uniform01 tool_info) in
  (1 <= calls trace <= max_retries)
  /\ sleeps trace = map (sleep_time uniform01) (seq 1 (calls trace - 1))
  /\ (forall i, 1 <= i < max_retries ->
        sleep_time uniform01 i = Float.add (inject_Z (2 ^ Z.of_nat i)) (uniform01 i)
        /\ (inject_Z (2 ^ Z.of_nat i) <= sleep_time uniform01 i)%Q
        /\ (sleep_time uniform01 i <= inject_Z (2 ^ Z.of_nat i) + 1)%Q
        /\ (sleep_time uniform01 i - (inject_Z (2 ^ Z.of_nat i) + uniform01 i)
            <= 1 # 2 ^ 51)%Q
        /\ (inject_Z (2 ^ Z.of_nat i) + uniform01 i - sleep_time uniform01 i
            <= 1 # 2 ^ 51)%Q)
  /\ (forall e1 e2 a,
        client p 0 = Raised e1 -> client p 1 = Raised e2 -> client p 2 = Response a ->
        analysis result = Some a
        /\ result = with_analysis tool_info a
        /\ trace = [ECall p 0; ESleep (Float.add 2 (uniform01 1)); ECall p 1;
                    ESleep (Float.add 4 (uniform01 2)); ECall p 2])
  /\ (forall e1 e2 e3,
        client p 0 = Raised e1 -> client p 1 = Raised e2 -> client p 2 = Raised e3 ->
        analysis result = Some ("Error during analysis after 3 attempts: " +:+ e3)
        /\ result = with_analysis tool_info ("Error during analysis after 3 attempts: " +:+ e3)
        /\ trace = [ECall p 0; ESleep (Float.add 2 (uniform01 1)); ECall p 1;
                    ESleep (Float.add 4 (uniform01 2)); ECall p 2]).
Proof.
  intros Hu p result trace. subst result trace.
  rewrite analyze_tool_with_llm_cases. fold p. clearbody p.
  assert (Hs1 : sleep_time uniform01 1 = Float.add 2 (uniform01 1))
    by (unfold sleep_time, backoff_factor; change (2 ^ Z.of_nat 1)%Z with 2%Z;
        rewrite (proj1 of_int_small); reflexivity).
  assert (Hs2 : sleep_time uniform01 2 = Float.add 4 (uniform01 2))
    by (unfold sleep_time, backoff_factor; change (2 ^ Z.of_nat 2)%Z with 4%Z;
        rewrite (proj2 of_int_small); reflexivity).
  split; [|split; [|split; [|split]]].
  - destruct (client p 0); [vm_compute; lia|].
    destruct (client p 1); [vm_compute; lia|].
    destruct (client p 2); vm_compute; lia.
  - destruct (client p 0); [reflexivity|].
    destruct (client p 1); [reflexivity|].
    destruct (client p 2); reflexivity.
  - intros i Hi. destruct (Hu i) as [H0 H1]. apply sleep_time_bounds; assumption.
  - intros e1 e2 a H0 H1 H2. rewrite H0, H1, H2, Hs1, Hs2.
    split; [reflexivity | split; reflexivity].
  - intros e1 e2 e3 H0 H1 H2. rewrite H0, H1, H2, Hs1, Hs2.
    split; [reflexivity | split; reflexivity].
Qed.

Lemma retry_backoff_witness :
  analysis (fst (analyze_tool_with_llm Sample.third_time_client Sample.half Sample.run_tool))
    = Some "fine"
  /\ sleeps (snd (analyze_tool_with_llm Sample.third_time_client Sample.half Sample.run_tool))
     = [(5 # 2)%Q; (9 # 2)%Q].
Proof.
  assert (Hu : forall i, (0 <= Sample.half i)%Q /\ (Sample.half i < 1)%Q).
  { intros i. unfold Sample.half, Qle, Qlt. simpl. lia. }
  destruct (retry_backoff_schedule Sample.third_time_client Sample.half Sample.run_tool Hu)
    as (_ & _ & _ & H & _).
  destruct (H "rate limit" "rate limit" "fine") as (Ha & _ & Ht); try reflexivity.
  split; [exact Ha | rewrite Ht; vm_compute; reflexivity].
Defined.

(** ** The worker: what a response becomes *)

(** C6 as stated fails: the response is a JSON object with a score and a
    reason, and the record holds the raw text only; neither the score nor
    the reason is a value anywhere in the entry of the report. *)
Lemma derived_fields_counterexample :
  analysis (fst (analyze_tool_with_llm Sample.json_client Sample.half Sample.run_tool))
    = Some Sample.json_answer
  /\ Analyzer.json_any Sample.is_derived
       (Analyzer.json_of_tool
          (fst (analyze_tool_with_llm Sample.json_client Sample.half Sample.run_tool)))
     = false.
Proof. rewrite analyze_tool_with_llm_cases. split; reflexivity. Qed.

(** C6, amended.  Success outcome.  When the call of attempt [k] is
    reached (every earlier call raised) and returns a response, whatever
    its text, JSON or not, the worker returns the record with [analysis]
    set to that text and makes no further call; the entry of the report
    is the record's entry with the one member [analysis] holding the raw
    text: no score and no reason is derived from it. *)
Theorem success_outcome_is_raw_text (client : string -> nat -> call_result)
  (uniform01 : nat -> Q) (tool_info : tool_record) (k : nat) (a : string) :
  k < max_retries ->
  (forall j, j < k -> exists e, client (build_prompt tool_info) j = Raised e) ->
  client (build_prompt tool_info) k = Response a ->
  let result := fst (analyze_tool_with_llm client uniform01 tool_info) in
  let trace := snd (analyze_tool_with_llm client uniform01 tool_info) in
  result = with_analysis tool_info a
  /\ analysis result = Some a
  /\ calls trace = k + 1
  /\ last trace = Some (ECall (build_prompt tool_info) k)
  /\ Analyzer.json_of_tool result
     = Analyzer.JObj (Analyzer.extractor_members tool_info
                      ++ Analyzer.optional_member "file_path" (file_path tool_info)
                      ++ [("analysis", Analyzer.JStr a)]).
Proof.
  intros Hk Hfail Hok result trace. subst result trace.
  rewrite analyze_tool_with_llm_cases.
  set (p := build_prompt tool_info) in *. clearbody p.
  unfold max_retries in Hk.
  destruct k as [|[|[|k]]]; try lia.
  - rewrite Hok. repeat split; reflexivity.
  - destruct (Hfail 0) as [e0 H0]; [lia |].
    rewrite H0, Hok. repeat split; reflexivity.
  - destruct (Hfail 0) as [e0 H0]; [lia |].
    destruct (Hfail 1) as [e1 H1]; [lia |].
    rewrite H0, H1, Hok. repeat split; reflexivity.
Qed.

Lemma success_outcome_witness :
  analysis (fst (analyze_tool_with_llm Sample.prose_client Sample.half Sample.run_tool))
    = Some "I cannot answer that"
  /\ calls (snd (analyze_tool_with_llm Sample.prose_client Sample.half Sample.run_tool)) = 1.
Proof.
  destruct (success_outcome_is_raw_text Sample.prose_client Sample.half Sample.run_tool
              0 "I cannot answer that") as (_ & Ha & Hc & _).
  - unfold max_retries. lia.
  - intros j Hj. lia.
  - reflexivity.
  - split; [exact Ha | exact Hc].
Defined.

(** ** The thread pool *)

Import Pool.

Local Arguments build_prompt : simpl never.

Lemma insert_split {A} (l : list A) (i : nat) (x y : A) :
  l !! i = Some x ->
  exists l1 l2, l = l1 ++ x :: l2 /\ <[i := y]> l = l1 ++ y :: l2.
Proof.
  intros H. exists (take i l), (drop (S i) l). split.
  - symmetry. apply take_drop_middle. exact H.
  - apply insert_take_drop. eapply lookup_lt_Some. exact H.
Qed.

Section PoolFacts.

Variable client : nat -> string -> nat -> call_result.
Variable uniform01 : nat -> nat -> Q.

Local Abbreviation step := (pool_step client uniform01).
Local Abbreviation apply := (apply_action client uniform01).

(** Every action is a step of the view. *)
Lemma apply_action_step (a : action) (s s' : pool) :
  apply a s = Some s' -> step s s'.
Proof.
  destruct a as [spawn | i | i | i | k]; unfold apply_action; intros H.
  - destruct (pending s) as [|t rest] eqn:Hp; [discriminate |].
    destruct spawn.
    + destruct (Nat.ltb_spec (length (threads s)) (max_workers s)); [| discriminate].
      injection H as <-.
      eapply step_submit with (spawned := [Idle]); simpl; eauto.
    + destruct (threads s) as [|th ths] eqn:Ht; [discriminate |].
      injection H as <-.
      eapply step_submit with (spawned := []); simpl; eauto.
      * rewrite app_nil_r. symmetry. exact Ht.
      * right. split; [reflexivity | rewrite Ht; discriminate].
  - destruct (threads s !! i) as [[| |]|] eqn:Hi; try discriminate.
    destruct (work_queue s) as [|t q] eqn:Hq; [discriminate |].
    injection H as <-.
    destruct (insert_split (threads s) i Idle (InCall t 0) Hi) as (l1 & l2 & Hl & Hl').
    eapply step_thread with (fin := []); simpl; eauto.
    + rewrite Hq. apply move_take.
    + rewrite app_nil_r. reflexivity.
  - destruct (threads s !! i) as [[|t rc|]|] eqn:Hi; try discriminate.
    destruct (client (task_id t) (build_prompt (task_tool t)) rc) as [a | e] eqn:Hc.
    + injection H as <-.
      destruct (insert_split (threads s) i (InCall t rc) Idle Hi) as (l1 & l2 & Hl & Hl').
      eapply step_thread with (fin := [after_call client uniform01 t rc]); simpl; eauto.
      * apply move_return_done. intros e He. congruence.
      * unfold after_call. rewrite Hc. reflexivity.
    + destruct (Nat.eqb_spec rc (max_retries - 1)) as [Heq | Hne].
      * injection H as <-.
        destruct (insert_split (threads s) i (InCall t rc) Idle Hi) as (l1 & l2 & Hl & Hl').
        eapply step_thread with (fin := [after_call client uniform01 t rc]); simpl; eauto.
        -- apply move_return_done. intros e' He'. exact Heq.
        -- unfold after_call. rewrite Hc.
           destruct (Nat.eqb_spec rc (max_retries - 1)); [reflexivity | contradiction].
      * injection H as <-.
        destruct (insert_split (threads s) i (InCall t rc) (Sleeping t (rc + 1)) Hi)
          as (l1 & l2 & Hl & Hl').
        eapply step_thread with (fin := []); simpl; eauto.
        -- eapply move_return_sleep; eauto.
        -- rewrite app_nil_r. reflexivity.
  - destruct (threads s !! i) as [[|t rc|t rc]|] eqn:Hi; try discriminate.
    injection H as <-. unfold enter_loop.
    destruct (Nat.ltb_spec rc max_retries) as [Hlt | Hge].
    + destruct (insert_split (threads s) i (Sleeping t rc) (InCall t rc) Hi)
        as (l1 & l2 & Hl & Hl').
      eapply step_thread with (fin := []); simpl; eauto.
      * apply move_wake_call. exact Hlt.
      * rewrite app_nil_r. reflexivity.
    + destruct (insert_split (threads s) i (Sleeping t rc) Idle Hi) as (l1 & l2 & Hl & Hl').
      eapply step_thread
        with (fin := [with_analysis (task_tool t) fallthrough_message]); simpl; eauto.
      apply move_wake_done. lia.
  - destruct (pending s) as [|t rest] eqn:Hp; [| discriminate].
    destruct (finished s !! k) as [r |] eqn:Hk; [| discriminate].
    injection H as <-.
    eapply step_yield; simpl; eauto.
Qed.

Lemma busy_count_middle (l1 l2 : list thread) (th : thread) :
  length (filter (fun th => busy th = true) (l1 ++ th :: l2))
  = length (filter (fun th => busy th = true) l1)
    + (if busy th then 1 else 0)
    + length (filter (fun th => busy th = true) l2).
Proof.
  rewrite filter_app, filter_cons, length_app.
  destruct th; simpl; lia.
Qed.

Lemma weight_middle (l1 l2 : list thread) (th : thread) :
  sum_list_with thread_weight (l1 ++ th :: l2)
  = sum_list_with thread_weight l1 + thread_weight th + sum_list_with thread_weight l2.
Proof. rewrite sum_list_with_app. simpl. lia. Qed.

(** A step keeps the invariant. *)
Lemma step_invariant (n : nat) (s s' : pool) :
  step s s' -> pool_invariant n s -> pool_invariant n s'.
Proof.
  intros Hstep [Hw Ht Hs Hc].
  destruct Hstep as [t rest spawned Hp Hp' Hq Hth Hsp Hf Ha Hm
                    | l1 l2 th th' fin Hth Hth' Hmove Hf Hp Ha Hm
                    | k r Hp Hp' Hk Hf Ha Hq Hth Hm].
  - split.
    + lia.
    + rewrite Hth, Hm, length_app. destruct Hsp as [[-> Hlt] | [-> _]]; simpl; lia.
    + rewrite Hth. intros Hnil. apply app_eq_nil in Hnil as [Hnil ->].
      destruct Hsp as [[Hsp _] | [_ Hne]]; [discriminate | contradiction].
    + rewrite Hp', Hq, Hth, Hf, Ha, filter_app, !length_app.
      rewrite Hp in Hc. simpl in Hc.
      destruct Hsp as [[-> _] | [-> _]]; simpl; lia.
  - split.
    + lia.
    + rewrite Hth', Hm. rewrite Hth in Ht. rewrite length_app in *. simpl in *. lia.
    + rewrite Hth'. intros Hnil. destruct l1; discriminate.
    + rewrite Hp, Hth', Hf, Ha, busy_count_middle, length_app.
      rewrite Hth, busy_count_middle in Hc.
      destruct Hmove; simpl in *; lia.
  - split.
    + lia.
    + rewrite Hth, Hm. exact Ht.
    + rewrite Hth. intros Hnil. destruct (Hs Hnil) as (_ & Hfin & _).
      rewrite Hfin in Hk. discriminate.
    + rewrite Hp', Hq, Hth, Hf, Ha, length_app, length_delete by eauto.
      rewrite Hp in Hc. simpl in *.
      assert (k < length (finished s)) by (eapply lookup_lt_Some; eauto). lia.
Qed.

(** A step uses up weight. *)
Lemma step_weight (s s' : pool) : step s s' -> weight s' < weight s.
Proof.
  unfold weight.
  intros [t rest spawned Hp Hp' Hq Hth Hsp Hf Ha Hm
         | l1 l2 th th' fin Hth Hth' Hmove Hf Hp Ha Hm
         | k r Hp Hp' Hk Hf Ha Hq Hth Hm].
  - rewrite Hp, Hp', Hq, Hth, Hf, sum_list_with_app, length_app.
    destruct Hsp as [[-> _] | [-> _]]; simpl; lia.
  - rewrite Hp, Hth, Hth', Hf, !weight_middle, length_app.
    destruct Hmove as [t q | t rc q Hlast | t rc e q Hc Hne | t rc q Hlt | t rc q Hge];
      simpl; unfold max_retries in *.
    + lia.
    + lia.
    + destruct (Nat.ltb_spec (rc + 1) 3); lia.
    + destruct (Nat.ltb_spec rc 3); lia.
    + destruct (Nat.ltb_spec rc 3); lia.
  - rewrite Hp, Hp', Hq, Hth, Hf, length_delete by eauto.
    assert (k < length (finished s)) by (eapply lookup_lt_Some; eauto). lia.
Qed.

Lemma outcome_call (t : task) (rc : nat) :
  rc < max_retries -> outcome client uniform01 t rc = after_call client uniform01 t rc.
Proof.
  intros Hlt. unfold after_call, outcome. rewrite retry_loop_step.
  destruct (Nat.ltb_spec rc max_retries) as [_ | Hge]; [| lia].
  destruct (client (task_id t) (build_prompt (task_tool t)) rc) as [a | e]; [reflexivity |].
  destruct (rc =? max_retries - 1); [reflexivity |].
  destruct (retry_loop _ _ _ (rc + 1)) as [r tr]. reflexivity.
Qed.

Lemma outcome_done (t : task) (rc : nat) :
  ~ rc < max_retries ->
  outcome client uniform01 t rc = with_analysis (task_tool t) fallthrough_message.
Proof.
  intros Hge. unfold outcome. rewrite retry_loop_step.
  destruct (Nat.ltb_spec rc max_retries) as [Hlt | _]; [contradiction | reflexivity].
Qed.

(** A step moves results around and loses none. *)
Lemma step_results (s s' : pool) :
  step s s' -> results client uniform01 s' ≡ₚ results client uniform01 s.
Proof.
  unfold results.
  intros [t rest spawned Hp Hp' Hq Hth Hsp Hf Ha Hm
         | l1 l2 th th' fin Hth Hth' Hmove Hf Hp Ha Hm
         | k r Hp Hp' Hk Hf Ha Hq Hth Hm].
  - rewrite Hp, Hp', Hq, Hth, Hf, Ha, map_app, flat_map_app.
    assert (Hnone : flat_map (eventual client uniform01) spawned = [])
      by (destruct Hsp as [[-> _] | [-> _]]; reflexivity).
    rewrite Hnone. simpl. solve_Permutation.
  - rewrite Hp, Hth, Hth', Hf, Ha, !flat_map_app. simpl.
    destruct Hmove as [t q | t rc q Hlast | t rc e q Hc Hne | t rc q Hlt | t rc q Hge]; simpl.
    + rewrite (outcome_call t 0) by (unfold max_retries; lia). solve_Permutation.
    + solve_Permutation.
    + unfold after_call. rewrite Hc.
      destruct (Nat.eqb_spec rc (max_retries - 1)); [contradiction |]. solve_Permutation.
    + rewrite (outcome_call t rc) by exact Hlt. solve_Permutation.
    + rewrite (outcome_done t rc) by exact Hge. solve_Permutation.
  - rewrite Hp, Hp', Hq, Hth, Hf, Ha. simpl.
    rewrite (delete_Permutation (finished s) k r Hk) at 2. solve_Permutation.
Qed.

(** Runs: any sequence of actions. *)
Lemma run_actions_facts (n : nat) (acts : list action) : forall s s' : pool,
  pool_invariant n s -> run_actions client uniform01 acts s = Some s' ->
  pool_invariant n s'
  /\ results client uniform01 s' ≡ₚ results client uniform01 s
  /\ weight s' + length acts <= weight s.
Proof.
  induction acts as [|a acts IH]; simpl; intros s s' Hinv Hrun.
  - injection Hrun as <-. split; [exact Hinv | split; [reflexivity | lia]].
  - destruct (apply a s) as [s1 |] eqn:Ha; [| discriminate].
    apply apply_action_step in Ha.
    destruct (IH s1 s' (step_invariant n s s1 Ha Hinv) Hrun) as (Hinv' & Hres & Hw).
    split; [exact Hinv' | split].
    + rewrite Hres. apply step_results. exact Ha.
    + pose proof (step_weight s s1 Ha). lia.
Qed.

Lemma run_actions_app (acts1 acts2 : list action) (s s1 s2 : pool) :
  run_actions client uniform01 acts1 s = Some s1 ->
  run_actions client uniform01 acts2 s1 = Some s2 ->
  run_actions client uniform01 (acts1 ++ acts2) s = Some s2.
Proof.
  revert s. induction acts1 as [|a acts1 IH]; simpl; intros s H1 H2.
  - injection H1 as ->. exact H2.
  - destruct (apply a s) as [s' |]; [eauto | discriminate].
Qed.

Lemma enabled_applies (a : action) (s : pool) :
  a ∈ enabled client uniform01 s -> is_Some (apply a s).
Proof. unfold enabled. rewrite list_elem_of_filter. tauto. Qed.

Lemma not_enabled (a : action) (s : pool) :
  enabled client uniform01 s = [] -> In a (candidates s) -> apply a s = None.
Proof.
  intros Hnil Hin. destruct (apply a s) as [s' |] eqn:Ha; [| reflexivity].
  exfalso. assert (Hen : a ∈ enabled client uniform01 s).
  { unfold enabled. apply list_elem_of_filter. split; [rewrite Ha; eauto |].
    apply list_elem_of_In. exact Hin. }
  rewrite Hnil in Hen. inversion Hen.
Qed.

Lemma candidate_thread (s : pool) (i : nat) (th : thread) :
  threads s !! i = Some th ->
  In (Take i) (candidates s) /\ In (Return i) (candidates s) /\ In (Wake i) (candidates s).
Proof.
  intros Hi. apply lookup_lt_Some in Hi.
  assert (Hseq : In i (seq 0 (length (threads s)))) by (apply in_seq; lia).
  unfold candidates. cbn [app In].
  repeat split; right; right; apply in_or_app; left; apply in_flat_map; exists i;
    (split; [exact Hseq | simpl; tauto]).
Qed.

Lemma candidate_yield (s : pool) (k : nat) (r : tool_record) :
  finished s !! k = Some r -> In (Yield k) (candidates s).
Proof.
  intros Hk. apply lookup_lt_Some in Hk. unfold candidates. cbn [app In].
  right; right. apply in_or_app. right. apply in_map. apply in_seq. lia.
Qed.

(** When no action is enabled, every result has been collected. *)
Lemma terminal_state (n : nat) (s : pool) :
  pool_invariant n s -> enabled client uniform01 s = [] ->
  pending s = [] /\ work_queue s = [] /\ finished s = []
  /\ Forall (fun th => th = Idle) (threads s).
Proof.
  intros [Hw Ht Hs Hc] Hnil.
  assert (Hpending : pending s = []).
  { destruct (pending s) as [|t rest] eqn:Hp; [reflexivity | exfalso].
    destruct (Nat.ltb_spec (length (threads s)) (max_workers s)) as [Hlt | Hge].
    - assert (H : apply (Submit true) s = None)
        by (apply not_enabled; [exact Hnil | left; reflexivity]).
      simpl in H. rewrite Hp in H.
      destruct (Nat.ltb_spec (length (threads s)) (max_workers s)); [discriminate | lia].
    - assert (H : apply (Submit false) s = None)
        by (apply not_enabled; [exact Hnil | right; left; reflexivity]).
      simpl in H. rewrite Hp in H.
      destruct (threads s); [simpl in Hge; lia | discriminate]. }
  assert (Hidle : Forall (fun th => th = Idle) (threads s)).
  { apply Forall_lookup. intros i th Hi.
    destruct (candidate_thread s i th Hi) as (_ & Hret & Hwake).
    destruct th as [|t rc|t rc]; [reflexivity | exfalso | exfalso].
    - pose proof (not_enabled (Return i) s Hnil Hret) as H.
      unfold apply_action in H. rewrite Hi in H.
      destruct (client _ _ _); [discriminate |].
      destruct (rc =? max_retries - 1); discriminate.
    - pose proof (not_enabled (Wake i) s Hnil Hwake) as H.
      unfold apply_action in H. rewrite Hi in H. discriminate. }
  assert (Hfinished : finished s = []).
  { destruct (finished s) as [|r rest] eqn:Hf; [reflexivity | exfalso].
    assert (Hk : finished s !! 0 = Some r) by (rewrite Hf; reflexivity).
    pose proof (not_enabled (Yield 0) s Hnil (candidate_yield s 0 r Hk)) as H.
    unfold apply_action in H. rewrite Hpending, Hk in H. discriminate. }
  repeat split; try assumption.
  destruct (work_queue s) as [|t q] eqn:Hq; [reflexivity | exfalso].
  destruct (threads s) as [|th ths] eqn:Hth.
  - destruct (Hs eq_refl) as (Hq' & _). discriminate.
  - assert (Hi : threads s !! 0 = Some th) by (rewrite Hth; reflexivity).
    assert (th = Idle) as -> by (inversion Hidle; assumption).
    destruct (candidate_thread s 0 Idle Hi) as (Htake & _ & _).
    pose proof (not_enabled (Take 0) s Hnil Htake) as H.
    unfold apply_action in H. rewrite Hi, Hq in H. discriminate.
Qed.

Lemma terminal_results (n : nat) (s : pool) :
  pool_invariant n s -> enabled client uniform01 s = [] ->
  results client uniform01 s = analyzed_tools s.
Proof.
  intros Hinv Hnil. destruct (terminal_state n s Hinv Hnil) as (Hp & Hq & Hf & Hidle).
  unfold results. rewrite Hp, Hq, Hf. simpl.
  assert (Hnone : flat_map (eventual client uniform01) (threads s) = []).
  { induction Hidle as [|th ths -> _ IH]; [reflexivity | exact IH]. }
  rewrite Hnone. reflexivity.
Qed.

(** The scheduled run is a run, and with fuel for the weight it ends
    where no action is enabled. *)
Lemma run_pool_reachable (sched : nat -> nat) (fuel : nat) : forall (k : nat) (s : pool),
  exists acts,
    run_actions client uniform01 acts s = Some (run_pool client uniform01 sched fuel k s).
Proof.
  induction fuel as [|fuel IH]; intros k s; cbn [run_pool].
  - exists []. reflexivity.
  - destruct (enabled client uniform01 s) as [|a0 acts0] eqn:He; [exists []; reflexivity |].
    set (a := nth (sched k mod length (a0 :: acts0)) (a0 :: acts0) a0).
    destruct (apply a s) as [s1 |] eqn:Ha; [| exists []; reflexivity].
    destruct (IH (S k) s1) as [acts Hacts].
    exists (a :: acts). cbn [run_actions]. rewrite Ha. exact Hacts.
Qed.

Lemma run_pool_terminal (sched : nat -> nat) (fuel : nat) : forall (k : nat) (s : pool),
  weight s <= fuel -> enabled client uniform01 (run_pool client uniform01 sched fuel k s) = [].
Proof.
  induction fuel as [|fuel IH]; intros k s Hfuel.
  - simpl. destruct (enabled client uniform01 s) as [|a0 acts0] eqn:He; [reflexivity |].
    assert (Hen : a0 ∈ enabled client uniform01 s) by (rewrite He; left).
    apply enabled_applies in Hen as [s1 Hs1].
    apply apply_action_step, step_weight in Hs1. lia.
  - cbn [run_pool].
    destruct (enabled client uniform01 s) as [|a0 acts0] eqn:He; [exact He |].
    set (a := nth (sched k mod length (a0 :: acts0)) (a0 :: acts0) a0).
    assert (Hen : a ∈ enabled client uniform01 s).
    { rewrite He. apply list_elem_of_In. apply nth_In.
      apply Nat.mod_upper_bound. discriminate. }
    apply enabled_applies in Hen as [s1 Hs1]. rewrite Hs1.
    apply IH. apply apply_action_step, step_weight in Hs1. lia.
Qed.

End PoolFacts.

Lemma in_flight_le_busy (l : list thread) :
  length (filter (fun th => in_call th = true) l)
  <= length (filter (fun th => busy th = true) l)
  /\ length (filter (fun th => busy th = true) l) <= length l.
Proof.
  induction l as [|th l [IH1 IH2]]; [simpl; lia |].
  rewrite !filter_cons. destruct th; simpl; lia.
Qed.

Lemma map_imap {A B C} (g : B -> C) (l : list A) : forall f : nat -> A -> B,
  map g (imap f l) = imap (fun i x => g (f i x)) l.
Proof.
  induction l as [|x l IH]; intros f; simpl; [reflexivity |].
  rewrite IH. reflexivity.
Qed.

(** The pool as [analyze_repo] creates it. *)
Lemma new_pool_facts (client : nat -> string -> nat -> call_result)
  (uniform01 : nat -> nat -> Q) (workers : nat) (all_tools : list tool_record) (s0 : pool) :
  new_pool workers all_tools = Some s0 ->
  pool_invariant (length all_tools) s0
  /\ max_workers s0 = workers
  /\ weight s0 = 11 * length all_tools
  /\ results client uniform01 s0
     = imap (fun i t => fst (analyze_tool_with_llm (client i) (uniform01 i) t)) all_tools.
Proof.
  unfold new_pool. destruct (Nat.eqb_spec workers 0) as [| Hpos]; [discriminate |].
  intros H. injection H as <-.
  split; [| split; [| split]].
  - split; simpl; try lia; [tauto |].
    unfold number_tasks. rewrite length_imap. lia.
  - reflexivity.
  - unfold weight, number_tasks. simpl. rewrite length_imap. lia.
  - unfold results, number_tasks. simpl. rewrite !app_nil_r.
    rewrite map_imap. reflexivity.
Qed.

Lemma worker_count_positive (all_tools : list tool_record) :
  exists s0, new_pool (Analyzer.worker_count all_tools) all_tools = Some s0.
Proof.
  unfold new_pool, Analyzer.worker_count.
  destruct (Nat.eqb_spec (Nat.min 10 (length all_tools + 1)) 0) as [H |]; [lia | eauto].
Qed.

(** C4.  Concurrency bound.  In every state of a pass over [all_tools],
    under any interleaving of the threads, the number of completion calls
    in flight is at most the number of worker threads the pool was created
    with, and at most the number of tools; every tool is, at each moment,
    not yet submitted, queued, held by exactly one busy worker, or done;
    and a queued tool is only taken by a worker that is idle.  The pool of
    [analyze_repo] is created with [min(10, len(all_tools) + 1)] workers,
    which is never zero, so at most that many calls are in flight, at most
    10 when there are more than 10 tools; the same holds at every step of
    the scheduled run. *)
Theorem concurrency_bound (client : nat -> string -> nat -> call_result)
  (uniform01 : nat -> nat -> Q) (all_tools : list tool_record) :
  (forall (k : nat) (s0 s : pool) (acts : list action),
     new_pool k all_tools = Some s0 ->
     run_actions client uniform01 acts s0 = Some s ->
     in_flight s <= k
     /\ in_flight s <= length all_tools
     /\ length (pending s) + length (work_queue s)
        + length (filter (fun th => busy th = true) (threads s))
        + length (finished s) + length (analyzed_tools s) = length all_tools
     /\ (forall i s', apply_action client uniform01 (Take i) s = Some s' ->
                      threads s !! i = Some Idle /\ work_queue s <> []))
  /\ (exists s0,
        new_pool (Analyzer.worker_count all_tools) all_tools = Some s0
        /\ (forall (acts : list action) (s : pool),
              run_actions client uniform01 acts s0 = Some s ->
              in_flight s <= Nat.min 10 (length all_tools + 1)
              /\ (10 < length all_tools -> in_flight s <= 10))
        /\ (forall (sched : nat -> nat) (fuel : nat),
              in_flight (run_pool client uniform01 sched fuel 0 s0)
              <= Nat.min 10 (length all_tools + 1))).
Proof.
  assert (Hgen : forall (k : nat) (s0 s : pool) (acts : list action),
             new_pool k all_tools = Some s0 ->
             run_actions client uniform01 acts s0 = Some s ->
             in_flight s <= k
             /\ in_flight s <= length all_tools
             /\ length (pending s) + length (work_queue s)
                + length (filter (fun th => busy th = true) (threads s))
                + length (finished s) + length (analyzed_tools s) = length all_tools
             /\ (forall i s', apply_action client uniform01 (Take i) s = Some s' ->
                              threads s !! i = Some Idle /\ work_queue s <> [])).
  { intros k s0 s acts Hnew Hrun.
    destruct (new_pool_facts client uniform01 k all_tools s0 Hnew) as (Hinv & Hmax & _ & _).
    destruct (run_actions_facts client uniform01 _ acts s0 s Hinv Hrun) as (Hinv' & _ & _).
    destruct Hinv' as [Hw Ht Hs Hc].
    destruct (in_flight_le_busy (threads s)) as [H1 H2].
    assert (Hk : max_workers s = k).
    { rewrite <- Hmax. clear - Hrun. revert s0 Hrun.
      induction acts as [|a acts IH]; simpl; intros s0 Hrun.
      - injection Hrun as <-. reflexivity.
      - destruct (apply_action client uniform01 a s0) as [s1 |] eqn:Ha; [| discriminate].
        rewrite (IH s1 Hrun).
        apply apply_action_step in Ha. destruct Ha; assumption. }
    unfold in_flight. repeat split; try lia.
    - unfold apply_action in H. destruct (threads s !! i) as [[| |]|]; try discriminate.
      reflexivity.
    - unfold apply_action in H. destruct (threads s !! i) as [[| |]|]; try discriminate.
      destruct (work_queue s); [discriminate | discriminate]. }
  split; [exact Hgen |].
  destruct (worker_count_positive all_tools) as [s0 Hs0].
  exists s0. split; [exact Hs0 | split].
  - intros acts s Hrun.
    destruct (Hgen _ s0 s acts Hs0 Hrun) as (Hk & _).
    unfold Analyzer.worker_count in Hk. lia.
  - intros sched fuel.
    destruct (run_pool_reachable client uniform01 sched fuel 0 s0) as [acts Hrun].
    destruct (Hgen _ s0 _ acts Hs0 Hrun) as (Hk & _).
    exact Hk.
Qed.

Lemma concurrency_bound_witness :
  exists s,
    run_actions (fun _ => Sample.third_time_client) (fun _ => Sample.half)
      Sample.twelve_actions Sample.twelve_pool = Some s
    /\ length (work_queue s) = 2
    /\ in_flight s = 10
    /\ in_flight s <= 10.
Proof.
  destruct (concurrency_bound (fun _ => Sample.third_time_client) (fun _ => Sample.half)
              Sample.twelve_tools) as [H _].
  eexists. split; [vm_compute; reflexivity |].
  split; [reflexivity |]. split; [reflexivity |].
  eapply (H 10 Sample.twelve_pool _ Sample.twelve_actions); [reflexivity |].
  vm_compute. reflexivity.
Defined.

(** ** No record is dropped *)

Import Analyzer.

(** Whatever the interleaving, a pass that has come to its end has
    collected the result of every tool. *)
Lemma finished_pass_collects_all (client : nat -> string -> nat -> call_result)
  (uniform01 : nat -> nat -> Q) (all_tools : list tool_record) (k : nat)
  (s0 s : pool) (acts : list action) :
  new_pool k all_tools = Some s0 ->
  run_actions client uniform01 acts s0 = Some s ->
  enabled client uniform01 s = [] ->
  analyzed_tools s
  ≡ₚ imap (fun i t => fst (analyze_tool_with_llm (client i) (uniform01 i) t)) all_tools.
Proof.
  intros Hnew Hrun Hend.
  destruct (new_pool_facts client uniform01 k all_tools s0 Hnew) as (Hinv & _ & _ & Hres).
  destruct (run_actions_facts client uniform01 _ acts s0 s Hinv Hrun) as (Hinv' & Hperm & _).
  rewrite <- Hres, <- Hperm.
  rewrite (terminal_results client uniform01 _ s Hinv' Hend). reflexivity.
Qed.

Lemma analyze_repo_returns (env : Env) (repo_path language : string) :
  exists r events, analyze_repo env repo_path language = Ok (r, events).
Proof.
  unfold analyze_repo.
  destruct (worker_count_positive
              (extract_all env repo_path (get_code_files env repo_path language)))
    as [s0 Hs0].
  rewrite Hs0. eauto.
Qed.

Lemma analyze_repo_tools (env : Env) (repo_path language : string) (r : report)
  (events : list repo_event) :
  analyze_repo env repo_path language = Ok (r, events) ->
  tools r ≡ₚ imap (fun i t => fst (analyze_tool_with_llm (client env repo_path i)
                                    (uniform01 env repo_path i) t))
               (extract_all env repo_path (get_code_files env repo_path language)).
Proof.
  unfold analyze_repo.
  set (all_tools := extract_all env repo_path (get_code_files env repo_path language)).
  destruct (new_pool (worker_count all_tools) all_tools) as [s0 |] eqn:Hnew; [| discriminate].
  intros H. injection H as <- _. simpl.
  destruct (run_pool_reachable (client env repo_path) (uniform01 env repo_path)
              (scheduler env repo_path) (weight s0) 0 s0) as [acts Hrun].
  eapply finished_pass_collects_all; [exact Hnew | exact Hrun |].
  apply run_pool_terminal. lia.
Qed.

Lemma worker_sets_analysis (client : string -> nat -> call_result) (uniform01 : nat -> Q)
  (t : tool_record) :
  exists a, fst (analyze_tool_with_llm client uniform01 t) = with_analysis t a.
Proof.
  rewrite analyze_tool_with_llm_cases.
  destruct (client _ 0); [eauto |].
  destruct (client _ 1); [eauto |].
  destruct (client _ 2); eauto.
Qed.

Lemma extract_all_spec (env : Env) (repo_path : string) (code_files : list string)
  (t0 : tool_record) :
  In t0 (extract_all env repo_path code_files) <->
  exists file found t',
    In file code_files /\ extract_tools env file = Some found /\ In t' found
    /\ t0 = with_file_path t' (relpath env file repo_path).
Proof.
  unfold extract_all. rewrite in_flat_map. split.
  - intros (file & Hfile & Hin).
    destruct (extract_tools env file) as [found |] eqn:Hfound; [| destruct Hin].
    apply in_map_iff in Hin as (t' & <- & Ht'). exists file, found, t'. auto.
  - intros (file & found & t' & Hfile & Hfound & Ht' & ->). exists file.
    split; [exact Hfile |]. rewrite Hfound. apply in_map_iff. exists t'. auto.
Qed.

Lemma analyze_repo_report (env : Env) (repo_path language : string) (r : report)
  (events : list repo_event) :
  analyze_repo env repo_path language = Ok (r, events) ->
  repo_name r = repo_path /\ tools_count r = length (tools r).
Proof.
  unfold analyze_repo. destruct (new_pool _ _); [| discriminate].
  intros H. injection H as <- _. split; reflexivity.
Qed.

Lemma substring_full (s : string) : String.substring 0 (String.length s) s = s.
Proof. induction s as [|c s IH]; simpl; [reflexivity | rewrite IH; reflexivity]. Qed.

Lemma substring_split (s : string) : forall k : nat,
  k <= String.length s ->
  s = String.substring 0 k s +:+ String.substring k (String.length s - k) s.
Proof.
  induction s as [|c s IH]; intros k Hk; simpl in Hk.
  - replace k with 0 by lia. reflexivity.
  - destruct k as [|k].
    + simpl. rewrite substring_full. reflexivity.
    + change (String c s = String c (String.substring 0 k s
                                      +:+ String.substring k (String.length s - k) s)).
      f_equal. apply IH. lia.
Qed.

Lemma endswith_suffix (s suffix : string) :
  endswith s suffix = true -> exists pre, s = pre +:+ suffix.
Proof.
  unfold endswith.
  destruct (Nat.leb_spec (String.length suffix) (String.length s)) as [Hle |]; [| discriminate].
  intros H. apply String.eqb_eq in H.
  exists (String.substring 0 (String.length s - String.length suffix) s).
  pose proof (substring_split s (String.length s - String.length suffix)) as Hs.
  replace (String.length s - (String.length s - String.length suffix))
    with (String.length suffix) in Hs by lia.
  rewrite H in Hs. apply Hs. lia.
Qed.

Lemma append_assoc (a b c : string) : (a +:+ b) +:+ c = a +:+ (b +:+ c).
Proof.
  induction a as [|x a IH]; [reflexivity |].
  change (String x ((a +:+ b) +:+ c) = String x (a +:+ (b +:+ c))).
  f_equal. exact IH.
Qed.

Lemma path_join_suffix (a b : string) : exists pre, path_join a b = pre +:+ b.
Proof.
  unfold path_join.
  destruct (String.prefix "/" b); [exists ""; reflexivity |].
  destruct (String.eqb a "" || endswith a "/"); [exists a; reflexivity |].
  exists (a +:+ "/"). rewrite append_assoc. reflexivity.
Qed.

(** The files [get_code_files] returns. *)
Lemma get_code_files_spec (env : Env) (repo_path language p : string) :
  In p (get_code_files env repo_path language) <->
  exists root files file,
    In (root, files) (os_walk env repo_path) /\ In file files
    /\ skipped_name file = false
    /\ endswith file (extension_of language) = true
    /\ p = path_join root file.
Proof.
  unfold get_code_files. rewrite in_flat_map. split.
  - intros ([root files] & Hwalk & Hin). apply in_flat_map in Hin as (file & Hfile & Hin).
    destruct (skipped_name file) eqn:Hskip; [destruct Hin |].
    destruct (endswith file (extension_of language)) eqn:Hend; [| destruct Hin].
    destruct Hin as [<- | []]. exists root, files, file. auto.
  - intros (root & files & file & Hwalk & Hfile & Hskip & Hend & ->).
    exists (root, files). split; [exact Hwalk |].
    apply in_flat_map. exists file. split; [exact Hfile |].
    rewrite Hskip, Hend. left. reflexivity.
Qed.

Lemma get_code_files_suffix (env : Env) (repo_path language p : string) :
  In p (get_code_files env repo_path language) ->
  exists pre, p = pre +:+ extension_of language.
Proof.
  intros Hp. apply get_code_files_spec in Hp as (root & files & file & _ & _ & _ & Hend & ->).
  apply endswith_suffix in Hend as [pre Hpre].
  destruct (path_join_suffix root file) as [pre' ->].
  exists (pre' +:+ pre). rewrite append_assoc, <- Hpre. reflexivity.
Qed.

(** The files an analysis extracts from are the files [get_code_files]
    returns. *)
Lemma analyze_repo_extracts (env : Env) (repo_path language : string) (r : report)
  (events : list repo_event) (file : string) :
  analyze_repo env repo_path language = Ok (r, events) ->
  (In (Extract file) events <-> In file (get_code_files env repo_path language)).
Proof.
  unfold analyze_repo. destruct (new_pool _ _) as [s0 |]; [| discriminate].
  intros H. injection H as _ <-. split.
  - intros [Heq | Hin]; [discriminate |].
    apply in_app_or in Hin as [Hin | Hin].
    + apply in_map_iff in Hin as (f & Hf & Hin). injection Hf as ->. exact Hin.
    + unfold audit_events in Hin. apply in_map_iff in Hin as ([id e] & He & _). discriminate.
  - intros Hin. right. apply in_or_app. left. apply in_map. exact Hin.
Qed.

(** What the worker returns for [t] is [t] with an outcome. *)
Lemma worker_outcome (client : string -> nat -> call_result) (uniform01 : nat -> Q)
  (t : tool_record) :
  Spec.is_outcome client t (fst (analyze_tool_with_llm client uniform01 t)).
Proof.
  rewrite analyze_tool_with_llm_cases. unfold Spec.is_outcome.
  assert (Hsame : forall a, Spec.same_tool t (with_analysis t a))
    by (intros a; repeat split).
  destruct (client (build_prompt t) 0) as [a0 | e0] eqn:H0.
  { split; [apply Hsame |]. exists (Spec.Success a0), 0. simpl.
    split; [lia | split; [intros j Hj; lia | split; [exact H0 | reflexivity]]]. }
  destruct (client (build_prompt t) 1) as [a1 | e1] eqn:H1.
  { split; [apply Hsame |]. exists (Spec.Success a1), 1. simpl.
    split; [lia | split; [| split; [exact H1 | reflexivity]]].
    intros j Hj. assert (j = 0) as -> by lia. eauto. }
  destruct (client (build_prompt t) 2) as [a2 | e2] eqn:H2.
  { split; [apply Hsame |]. exists (Spec.Success a2), 2. simpl.
    split; [lia | split; [| split; [exact H2 | reflexivity]]].
    intros j Hj. assert (j = 0 \/ j = 1) as [-> | ->] by lia; eauto. }
  split; [apply Hsame |].
  exists (Spec.Failure ("Error during analysis after 3 attempts: " +:+ e2)), e2. simpl.
  split; [| split; [exact H2 | split; reflexivity]].
  intros j Hj. assert (j = 0 \/ j = 1) as [-> | ->] by lia; eauto.
Qed.

(** C1.  No-drop guarantee.  For every repository, [analyze_repo]
    returns, and its report holds exactly one record for each of the N
    extracted tools (N = 0 included), in completion order.  Every record
    of the report is one of the tools, all its fields as extracted, with
    an outcome attached in [analysis]: a Success, the text of the first
    response among at most three attempts, or a Failure, the message built
    from the error of the third failed attempt.  Every tool has its record
    in the report, and the report has no more records than there are
    tools: a failed analysis removes nothing and stops nothing.  The same
    holds of the end of a pass under any interleaving of the threads. *)
Theorem no_drop_guarantee (env : Env) (repo_path language : string) :
  let all_tools := extract_all env repo_path (get_code_files env repo_path language) in
  let worker := fun (i : nat) (t : tool_record) =>
    fst (analyze_tool_with_llm (client env repo_path i) (uniform01 env repo_path i) t) in
  (exists (r : report) (events : list repo_event),
     analyze_repo env repo_path language = Ok (r, events)
     /\ length (tools r) = length all_tools
     /\ tools_count r = length all_tools
     /\ tools r ≡ₚ imap worker all_tools
     /\ (forall r', In r' (tools r) ->
           exists i t o,
             all_tools !! i = Some t
             /\ Spec.same_tool t r'
             /\ Spec.has_outcome (client env repo_path i) t r' o
             /\ exists text, analysis r' = Some text)
     /\ (forall i t,
           all_tools !! i = Some t ->
           exists r' o,
             In r' (tools r)
             /\ Spec.same_tool t r'
             /\ Spec.has_outcome (client env repo_path i) t r' o))
  /\ (forall (i : nat) (t : tool_record),
        all_tools !! i = Some t ->
        Spec.is_outcome (client env repo_path i) t (worker i t))
  /\ (forall (s0 s : pool) (acts : list action),
        new_pool (worker_count all_tools) all_tools = Some s0 ->
        run_actions (client env repo_path) (uniform01 env repo_path) acts s0 = Some s ->
        enabled (client env repo_path) (uniform01 env repo_path) s = [] ->
        analyzed_tools s ≡ₚ imap worker all_tools
        /\ length (analyzed_tools s) = length all_tools).
Proof.
  intros all_tools worker.
  assert (Hworker : forall i t, Spec.is_outcome (client env repo_path i) t (worker i t))
    by (intros i t; apply worker_outcome).
  split; [| split].
  - destruct (analyze_repo_returns env repo_path language) as (r & events & Hr).
    pose proof (analyze_repo_tools env repo_path language r events Hr) as Hperm.
    fold all_tools in Hperm. change (tools r ≡ₚ imap worker all_tools) in Hperm.
    destruct (analyze_repo_report env repo_path language r events Hr) as [_ Hcount].
    assert (Hlen : length (tools r) = length all_tools)
      by (rewrite Hperm; apply length_imap).
    exists r, events.
    split; [exact Hr | split; [exact Hlen | split; [congruence | split; [exact Hperm |]]]].
    split.
    + intros r' Hin. apply list_elem_of_In in Hin. rewrite Hperm in Hin.
      apply elem_of_lookup_imap_1 in Hin as (i & t & -> & Hi).
      destruct (Hworker i t) as [Hsame [o Ho]].
      exists i, t, o. split; [exact Hi | split; [exact Hsame | split; [exact Ho |]]].
      destruct o as [text | message]; simpl in Ho.
      * destruct Ho as (k & _ & _ & _ & Ha). eauto.
      * destruct Ho as (e & _ & _ & _ & Ha). eauto.
    + intros i t Hi. destruct (Hworker i t) as [Hsame [o Ho]].
      exists (worker i t), o. split; [| split; [exact Hsame | exact Ho]].
      apply list_elem_of_In. rewrite Hperm.
      apply (elem_of_lookup_imap_2 worker all_tools t i). exact Hi.
  - intros i t _. apply Hworker.
  - intros s0 s acts Hnew Hrun Hend.
    pose proof (finished_pass_collects_all _ _ _ _ _ _ _ Hnew Hrun Hend) as Hperm.
    split; [exact Hperm |].
    rewrite Hperm. apply length_imap.
Qed.

Lemma no_drop_witness :
  exists (r : report) (events : list repo_event),
    analyze_repo Sample.env "mcp_repos/acme_server" "Python" = Ok (r, events)
    /\ length (tools r) = 1
    /\ Forall (fun r' => analysis r' = Some "fine") (tools r).
Proof.
  destruct (no_drop_guarantee Sample.env "mcp_repos/acme_server" "Python")
    as [(r & events & Hr & Hlen & _) _].
  exists r, events. split; [exact Hr | split; [rewrite Hlen; reflexivity |]].
  vm_compute in Hr. injection Hr as <- _.
  constructor; [reflexivity | constructor].
Defined.

(** ** The batch orchestrator *)

Lemma path_exists_mono (env : Env) (w w' : world) (p : string) :
  files w ⊆ files w' -> path_exists env w' p = false -> path_exists env w p = false.
Proof.
  unfold path_exists. intros Hsub H.
  apply orb_false_iff in H as [Hf Hd]. rewrite Hd, orb_false_r.
  apply bool_decide_eq_false in Hf. apply bool_decide_eq_false.
  intros [c Hc]. apply Hf. exists c.
  eapply lookup_weaken; eauto.
Qed.

Lemma path_exists_false_lookup (env : Env) (w : world) (p : string) :
  path_exists env w p = false -> files w !! p = None.
Proof.
  unfold path_exists. intros H. apply orb_false_iff in H as [Hf _].
  apply bool_decide_eq_false in Hf. destruct (files w !! p) eqn:E; [| reflexivity].
  exfalso. apply Hf. eauto.
Qed.

Lemma batch_event_allowed_weaken (env : Env) (w w1 : world) (rp : string)
  (rest : list string) (e : batch_event) :
  files w ⊆ files w1 ->
  Spec.batch_event_allowed env w1 rest e -> Spec.batch_event_allowed env w (rp :: rest) e.
Proof.
  intros Hsub. destruct e as [msg | repo_path events | path]; simpl; [tauto | |].
  - intros (Hin & Hex & Hr). repeat split; [right; exact Hin | | exact Hr].
    eapply path_exists_mono; eauto.
  - intros (Hex & rp' & Hin & Hp). split; [eapply path_exists_mono; eauto |].
    exists rp'. split; [right; exact Hin | exact Hp].
Qed.

(** The loop of the batch: files only appear, each where no file was, and
    every event is one the batch is allowed. *)
Lemma batch_loop_facts (env : Env) (repo_paths : list string) :
  forall (w w' : world) (res : result unit),
    batch_loop env repo_paths w = (w', res) ->
    files w ⊆ files w'
    /\ made_dirs w' = made_dirs w
    /\ exists new,
         out w' = out w ++ new
         /\ Forall (Spec.batch_event_allowed env w repo_paths) new
         /\ (forall p, files w' !! p = files w !! p \/ In (WriteFile p) new).
Proof.
  induction repo_paths as [|rp rest IH]; intros w w' res Hrun; simpl in Hrun.
  - injection Hrun as <- <-. split; [reflexivity | split; [reflexivity |]].
    exists []. rewrite app_nil_r. repeat split; [constructor | left; reflexivity].
  - destruct (path_exists env w (analysis_file_of rp)) eqn:Hex.
    + apply IH in Hrun as (Hsub & Hdirs & new & Hout & Hall & Hfiles).
      split; [exact Hsub | split; [exact Hdirs |]].
      eexists (_ :: new). simpl in Hout. rewrite <- app_assoc in Hout.
      split; [exact Hout | split].
      * constructor; [exact I |].
        eapply Forall_impl; [exact Hall |].
        intros e. apply batch_event_allowed_weaken. reflexivity.
      * intros p. destruct (Hfiles p) as [H | H]; [left; exact H | right; right; exact H].
    + destruct (analyze_repo env rp "Python") as [[r events] | msg] eqn:Hr.
      2:{ injection Hrun as <- <-. split; [reflexivity | split; [reflexivity |]].
          exists []. rewrite app_nil_r. repeat split; [constructor | left; reflexivity]. }
      pose proof (path_exists_false_lookup env w _ Hex) as Hnone.
      destruct (write_report env (analysis_file_of rp)) as [| | written].
      2:{ injection Hrun as <- <-. split; [reflexivity | split; [reflexivity |]].
          exists [Analyze rp events]. repeat split.
          - constructor; [| constructor]. simpl. repeat split; [left; reflexivity | exact Hex |].
            exists r. exact Hr.
          - left. reflexivity. }
      2:{ injection Hrun as <- <-. simpl.
          split; [apply insert_subseteq; exact Hnone | split; [reflexivity |]].
          exists [Analyze rp events; WriteFile (analysis_file_of rp)].
          rewrite <- app_assoc. split; [reflexivity | split].
          - constructor; [| constructor; [| constructor]].
            + simpl. repeat split; [left; reflexivity | exact Hex |]. exists r. exact Hr.
            + simpl. split; [exact Hex |]. exists rp. split; [left; reflexivity | reflexivity].
          - intros p. destruct (String.eqb_spec p (analysis_file_of rp)) as [-> | Hne].
            + right. right. left. reflexivity.
            + left. apply lookup_insert_ne. congruence. }
      apply IH in Hrun as (Hsub & Hdirs & new & Hout & Hall & Hfiles).
      simpl in Hsub, Hdirs, Hout, Hfiles.
      assert (Hsub0 : files w ⊆ <[analysis_file_of rp := Document (json_of_report r)]> (files w))
        by (apply insert_subseteq; exact Hnone).
      split; [etrans; eauto | split; [exact Hdirs |]].
      exists (Analyze rp events :: WriteFile (analysis_file_of rp) :: new).
      rewrite <- !app_assoc in Hout. split; [exact Hout | split].
      * constructor; [| constructor].
        -- simpl. repeat split; [left; reflexivity | exact Hex |]. exists r. exact Hr.
        -- simpl. split; [exact Hex |]. exists rp. split; [left; reflexivity | reflexivity].
        -- eapply Forall_impl; [exact Hall |].
           intros e. apply batch_event_allowed_weaken. exact Hsub0.
      * intros p. destruct (Hfiles p) as [H | H]; [| right; right; right; exact H].
        destruct (String.eqb_spec p (analysis_file_of rp)) as [-> | Hne].
        -- right. right. left. reflexivity.
        -- left. rewrite H. apply lookup_insert_ne. congruence.
Qed.

Lemma analyze_repos_facts (env : Env) (csv_path : string) (language_filter : option string)
  (w w' : world) (res : result unit) :
  analyze_repos env csv_path language_filter w = (w', res) ->
  files w ⊆ files w'
  /\ made_dirs w' = made_dirs w
  /\ exists new,
       out w' = out w ++ new
       /\ Forall (Spec.batch_event_allowed env w
                    (read_repos_from_csv env csv_path language_filter)) new
       /\ (forall p, files w' !! p = files w !! p \/ In (WriteFile p) new).
Proof.
  unfold analyze_repos. intros Hrun.
  destruct (isfile env csv_path); simpl in Hrun.
  - destruct (read_repos_from_csv env csv_path language_filter) as [|rp rest] eqn:Hread.
    + injection Hrun as <- <-. split; [reflexivity | split; [reflexivity |]].
      eexists [_]. repeat split; [constructor; [exact I | constructor] | left; reflexivity].
    + apply batch_loop_facts in Hrun. exact Hrun.
  - injection Hrun as <- <-. split; [reflexivity | split; [reflexivity |]].
    eexists [_]. repeat split; [constructor; [exact I | constructor] | left; reflexivity].
Qed.

(** C7.  Resumability.  Whatever the manifest, a repository whose report
    exists at [<repo_path>_tools.json] when the batch starts is not
    analyzed in it (no scan, no extraction, no completion call: these only
    happen inside an analysis) and its report is not written: the file is
    after the batch what it was before.  No file that exists when the
    batch starts is changed.  When the manifest selects that one
    repository, the batch prints that it skips it and does nothing else. *)
Theorem resumable_batch (env : Env) (csv_path : string) (language_filter : option string)
  (w : world) :
  let w' := fst (analyze_repos env csv_path language_filter w) in
  exists new,
    out w' = out w ++ new
    /\ (forall repo_path,
          path_exists env w (analysis_file_of repo_path) = true ->
          files w' !! analysis_file_of repo_path = files w !! analysis_file_of repo_path
          /\ (forall events, ~ In (Analyze repo_path events) new)
          /\ ~ In (WriteFile (analysis_file_of repo_path)) new)
    /\ (forall p c, files w !! p = Some c -> files w' !! p = Some c)
    /\ (forall repo_path,
          isfile env csv_path = true ->
          read_repos_from_csv env csv_path language_filter = [repo_path] ->
          path_exists env w (analysis_file_of repo_path) = true ->
          new = [Print ("Skipping analysis of " +:+ repo_path +:+ " (already analyzed)")]
          /\ files w' = files w).
Proof.
  intros w'. subst w'.
  destruct (analyze_repos env csv_path language_filter w) as [w' res] eqn:Hrun.
  destruct (analyze_repos_facts env csv_path language_filter w w' res Hrun)
    as (Hsub & _ & new & Hout & Hall & Hfiles).
  exists new. simpl. split; [exact Hout | split; [| split]].
  - intros rp Hex.
    assert (Hno_analysis : forall events, ~ In (Analyze rp events) new).
    { intros events Hin. rewrite Forall_forall in Hall.
      apply list_elem_of_In, Hall in Hin. simpl in Hin.
      destruct Hin as (_ & Hnot & _). congruence. }
    assert (Hno_write : ~ In (WriteFile (analysis_file_of rp)) new).
    { intros Hin. rewrite Forall_forall in Hall.
      apply list_elem_of_In, Hall in Hin. simpl in Hin.
      destruct Hin as (Hnot & _). congruence. }
    repeat split; try assumption.
    destruct (Hfiles (analysis_file_of rp)) as [H | H]; [exact H | contradiction].
  - intros p c Hc. eapply lookup_weaken; eauto.
  - intros rp Hfile Hread Hex. unfold analyze_repos in Hrun.
    rewrite Hfile, Hread in Hrun. simpl in Hrun. rewrite Hex in Hrun.
    injection Hrun as <- <-. simpl in Hout.
    apply app_inv_head in Hout. split; [symmetry; exact Hout | reflexivity].
Qed.

Lemma resumable_batch_witness :
  exists new,
    out (fst (analyze_repos Sample.env "repos.csv" (Some "Python") Sample.world_done))
    = out Sample.world_done ++ new
    /\ new = [Print "Skipping analysis of mcp_repos/acme_done (already analyzed)"]
    /\ files (fst (analyze_repos Sample.env "repos.csv" (Some "Python") Sample.world_done))
       = files Sample.world_done.
Proof.
  destruct (resumable_batch Sample.env "repos.csv" (Some "Python") Sample.world_done)
    as (new & Hout & _ & _ & Hone).
  exists new. split; [exact Hout |].
  apply (Hone "mcp_repos/acme_done"); reflexivity.
Defined.

(** ** Batch mode and single-repository mode *)

(** One analysis scans once, its own repository, for the extension of the
    language it was given. *)
Lemma analyze_repo_scans (env : Env) (repo_path language : string) (r : report)
  (events : list repo_event) :
  analyze_repo env repo_path language = Ok (r, events) ->
  In (Scan repo_path (extension_of language)) events
  /\ (forall rp ext, In (Scan rp ext) events -> rp = repo_path /\ ext = extension_of language).
Proof.
  unfold analyze_repo.
  destruct (new_pool _ _) as [s0 |]; [| discriminate].
  intros H. injection H as _ <-. split; [left; reflexivity |].
  intros rp ext [Heq | Hin].
  - injection Heq as <- <-. split; reflexivity.
  - exfalso. apply in_app_or in Hin as [Hin | Hin].
    + apply in_map_iff in Hin as (f & Hf & _). discriminate.
    + unfold audit_events in Hin. apply in_map_iff in Hin as ([id e] & He & _). discriminate.
Qed.

Lemma read_repos_from_csv_spec (env : Env) (csv_path : string)
  (language_filter : option string) (repo_path : string) :
  In repo_path (read_repos_from_csv env csv_path language_filter) <->
  exists r, In r (csv_rows env csv_path)
            /\ selected language_filter r = true
            /\ isdir env (repo_path_of r) = true
            /\ repo_path = repo_path_of r.
Proof.
  unfold read_repos_from_csv. rewrite in_flat_map. split.
  - intros (r & Hr & Hin). exists r.
    destruct (selected language_filter r); [| destruct Hin].
    destruct (isdir env (repo_path_of r)); [| destruct Hin].
    destruct Hin as [<- | []]. auto.
  - intros (r & Hr & Hsel & Hdir & ->). exists r. split; [exact Hr |].
    rewrite Hsel, Hdir. left. reflexivity.
Qed.

(** C9.  In batch mode every analysis scans for [.py] files.  Whatever
    [--language] is, each analysis the batch makes is the analysis of a
    repository of a manifest row that the language filter selected, run
    with the default language.  The files it extracts from are exactly
    the walked files of the repository whose name ends with [.py] (the
    skipped names apart), so each of them is a path that ends with [.py];
    and every record of its report comes from such a file.  The language
    decides which rows are selected and nothing else. *)
Theorem batch_mode_scans_python (env : Env) (args : arguments) (w : world) :
  Py.truthy_opt (csv args) = true ->
  Py.truthy_opt (repo args) = false ->
  let w' := fst (main env args w) in
  exists new,
    out w' = out w ++ new
    /\ forall repo_path events,
         In (Analyze repo_path events) new ->
         (exists r, In r (csv_rows env (default "" (csv args)))
                    /\ selected (Some (language args)) r = true
                    /\ repo_path = repo_path_of r)
         /\ (exists r,
               analyze_repo env repo_path "Python" = Ok (r, events)
               /\ (forall t, In t (tools r) ->
                     exists file found t' pre,
                       file = pre +:+ ".py"
                       /\ In (Extract file) events
                       /\ extract_tools env file = Some found /\ In t' found
                       /\ name t = name t' /\ source_code t = source_code t'
                       /\ line_number t = line_number t'
                       /\ file_path t = Some (relpath env file repo_path)))
         /\ (forall file,
               In (Extract file) events <->
               exists root files name,
                 In (root, files) (os_walk env repo_path) /\ In name files
                 /\ skipped_name name = false
                 /\ endswith name ".py" = true
                 /\ file = path_join root name)
         /\ (forall file, In (Extract file) events -> exists pre, file = pre +:+ ".py")
         /\ In (Scan repo_path ".py") events
         /\ (forall rp ext, In (Scan rp ext) events -> ext = ".py").
Proof.
  intros Hcsv Hrepo w'. subst w'. unfold main. rewrite Hcsv, Hrepo. simpl.
  rewrite andb_false_r. unfold makedirs.
  destruct (files w !! "./results") as [c |] eqn:Hres.
  { exists []. simpl. rewrite app_nil_r. split; [reflexivity | intros ? ? []]. }
  set (w2 := {| files := files w; made_dirs := made_dirs w ++ ["./results"]; out := out w |}).
  destruct (analyze_repos env (default "" (csv args)) (Some (language args)) w2)
    as [w' res] eqn:Hrun.
  destruct (analyze_repos_facts _ _ _ _ _ _ Hrun) as (_ & _ & new & Hout & Hall & _).
  exists new. split; [exact Hout |].
  intros rp events Hin. rewrite Forall_forall in Hall.
  apply list_elem_of_In, Hall in Hin. simpl in Hin.
  destruct Hin as (Hlisted & _ & r & Hr).
  apply read_repos_from_csv_spec in Hlisted as (row & Hrow & Hsel & _ & Hrp).
  destruct (analyze_repo_scans env rp "Python" r events Hr) as [Hscan Honly].
  assert (Hext : forall file, In (Extract file) events <-> In file (get_code_files env rp "Python"))
    by (intros file; apply (analyze_repo_extracts env rp "Python" r events file Hr)).
  split; [exists row; auto |].
  split; [| split; [| split; [| split]]].
  - exists r. split; [exact Hr |].
    intros t Ht. pose proof (analyze_repo_tools env rp "Python" r events Hr) as Hperm.
    apply list_elem_of_In in Ht. rewrite Hperm in Ht.
    apply elem_of_lookup_imap_1 in Ht as (i & t0 & -> & Hi).
    destruct (worker_sets_analysis (client env rp i) (uniform01 env rp i) t0) as [a ->].
    apply list_elem_of_lookup_2, list_elem_of_In, extract_all_spec in Hi
      as (file & found & t' & Hfile & Hfound & Ht' & ->).
    destruct (get_code_files_suffix env rp "Python" file Hfile) as [pre Hpre].
    exists file, found, t', pre. simpl.
    split; [exact Hpre | split; [apply Hext; exact Hfile |]].
    repeat split; assumption.
  - intros file. rewrite Hext. apply (get_code_files_spec env rp "Python" file).
  - intros file Hfile. apply Hext in Hfile.
    apply (get_code_files_suffix env rp "Python" file Hfile).
  - exact Hscan.
  - intros rp' ext Hs. apply Honly in Hs as [_ ->]. reflexivity.
Qed.

Lemma batch_mode_scans_python_witness :
  exists new,
    out (fst (main Sample.env
                {| repo := None; csv := Some "repos.csv"; language := "Go"; debug := false |}
                Sample.empty_world))
    = out Sample.empty_world ++ new
    /\ length new = 2
    /\ forall repo_path events,
         In (Analyze repo_path events) new ->
         (In (Extract "mcp_repos/acme_server/server.py") events
          <-> repo_path = "mcp_repos/acme_server")
         /\ ~ In (Extract (path_join repo_path "README.md")) events.
Proof.
  destruct (batch_mode_scans_python Sample.env
              {| repo := None; csv := Some "repos.csv"; language := "Go"; debug := false |}
              Sample.empty_world eq_refl eq_refl) as (new & Hout & Hall).
  exists new. split; [exact Hout | split].
  - apply (f_equal (@length batch_event)) in Hout. vm_compute in Hout.
    symmetry. exact Hout.
  - intros rp events Hin.
    destruct (Hall rp events Hin) as (_ & _ & Hext & Hpy & _). split.
    + rewrite Hext. split.
      * intros (root & files & name & Hwalk & _). simpl in Hwalk.
        destruct (String.eqb_spec rp "mcp_repos/acme_server") as [-> | _];
          [reflexivity | destruct Hwalk].
      * intros ->. exists "mcp_repos/acme_server", ["server.py"; "README.md"], "server.py".
        split; [left; reflexivity | split; [left; reflexivity |]].
        split; [reflexivity | split; reflexivity].
    + intros Hreadme. apply Hext in Hreadme
        as (root & files & name & Hwalk & Hname & _ & Hend & Hjoin).
      simpl in Hwalk.
      destruct (String.eqb_spec rp "mcp_repos/acme_server") as [-> | _]; [| destruct Hwalk].
      destruct Hwalk as [Heq | []]. injection Heq as <- <-.
      destruct Hname as [<- | [<- | []]]; [discriminate | discriminate].
Defined.

(** C10.  Single-repository mode persists nothing.  With [--repo] the
    files after [main] are the files before it and no file is written; when
    [--csv] is not given as well and the results directory can be made,
    the report is computed (the analysis runs on the given repository with
    the given language) and then dropped.  In batch mode, the report of a
    selected repository that has none yet is written to
    [<repo_path>_tools.json]. *)
Theorem single_repo_mode_persists_nothing (env : Env) (w : world) :
  (forall args : arguments,
     Py.truthy_opt (repo args) = true ->
     let w' := fst (main env args w) in
     files w' = files w
     /\ exists new,
          out w' = out w ++ new
          /\ (forall p, ~ In (WriteFile p) new)
          /\ (Py.truthy_opt (csv args) = false -> files w !! "./results" = None ->
              exists r events,
                analyze_repo env (default "" (repo args)) (language args) = Ok (r, events)
                /\ In (Analyze (default "" (repo args)) events) new))
  /\ (forall (args : arguments) (repo_path : string) (rest : list string),
        Py.truthy_opt (repo args) = false ->
        Py.truthy_opt (csv args) = true ->
        files w !! "./results" = None ->
        isfile env (default "" (csv args)) = true ->
        read_repos_from_csv env (default "" (csv args)) (Some (language args))
        = repo_path :: rest ->
        path_exists env w (analysis_file_of repo_path) = false ->
        can_write env (analysis_file_of repo_path) = true ->
        exists r events,
          analyze_repo env repo_path "Python" = Ok (r, events)
          /\ files (fst (main env args w)) !! analysis_file_of repo_path
             = Some (Document (json_of_report r))).
Proof.
  split.
  - intros args Hrepo w'. subst w'. unfold main. rewrite Hrepo.
    destruct (Py.truthy_opt (csv args)) eqn:Hcsv; simpl.
    { split; [reflexivity |]. eexists [_]. split; [reflexivity | split].
      - intros p [H | []]. discriminate.
      - discriminate. }
    rewrite andb_true_r. unfold makedirs.
    set (w1 := if Py.truthy (language args) then _ else w).
    assert (Hw1 : files w1 = files w /\ exists pre, out w1 = out w ++ pre
                  /\ forall p, ~ In (WriteFile p) pre).
    { subst w1. destruct (Py.truthy (language args)); simpl.
      - split; [reflexivity |]. eexists [_]. split; [reflexivity |].
        intros p [H | []]. discriminate.
      - split; [reflexivity |]. exists []. rewrite app_nil_r. split; [reflexivity |].
        intros p []. }
    destruct Hw1 as (Hfiles1 & pre & Hout1 & Hpre).
    clearbody w1.
    destruct (analyze_repo_returns env (default "" (repo args)) (language args))
      as (r & events & Hr).
    rewrite Hfiles1.
    destruct (files w !! "./results") as [c |] eqn:Hres; simpl.
    + split; [exact Hfiles1 |]. exists pre. split; [exact Hout1 | split; [exact Hpre |]].
      discriminate.
    + rewrite Hr. simpl. split; [reflexivity |].
      exists (pre ++ [Analyze (default "" (repo args)) events]).
      rewrite Hout1, app_assoc. split; [reflexivity | split].
      * intros p Hin. apply in_app_or in Hin as [Hin | [H | []]];
          [exact (Hpre p Hin) | discriminate].
      * intros _ _. exists r, events. split; [reflexivity |].
        apply in_or_app. right. left. reflexivity.
  - intros args rp rest Hrepo Hcsv Hres Hfile Hread Hex Hcan.
    destruct (analyze_repo_returns env rp "Python") as (r & events & Hr).
    exists r, events. split; [exact Hr |].
    unfold main. rewrite Hrepo, Hcsv. simpl. rewrite andb_false_r.
    unfold makedirs. rewrite Hres. unfold analyze_repos. rewrite Hfile, Hread. simpl.
    assert (Hex' : forall d,
               path_exists env {| files := files w; made_dirs := d; out := out w |}
                 (analysis_file_of rp) = false) by (intros d; exact Hex).
    rewrite Hex', Hr. unfold can_write in Hcan.
    destruct (write_report env (analysis_file_of rp)); try discriminate.
    destruct (batch_loop env rest _) as [w' res] eqn:Hrun.
    apply batch_loop_facts in Hrun as (Hsub & _). simpl in *.
    eapply lookup_weaken; [| exact Hsub]. apply lookup_insert_eq.
Qed.

Lemma single_repo_mode_witness :
  files (fst (main Sample.env
                {| repo := Some "mcp_repos/acme_server"; csv := None;
                   language := "Python"; debug := false |}
                Sample.empty_world))
  = files Sample.empty_world.
Proof.
  destruct (single_repo_mode_persists_nothing Sample.env Sample.empty_world) as [H _].
  apply (H {| repo := Some "mcp_repos/acme_server"; csv := None;
              language := "Python"; debug := false |}).
  reflexivity.
Defined.

(** * Further properties of the code *)

Import Measures.

(** ** The extractor: how many records, and in which order *)

Lemma count_nodes_children (f : node -> nat) (n : node) :
  count_nodes f n = f n + sum_list_with (count_nodes f) (iter_child_nodes n).
Proof.
  assert (Hgo : forall l : list node,
             (fix go (l : list node) : nat :=
                match l with [] => 0 | c :: r => count_nodes f c + go r end) l
             = sum_list_with (count_nodes f) l).
  { induction l as [|c l IH]; simpl; [reflexivity | rewrite IH; reflexivity]. }
  destruct n; simpl; rewrite Hgo; reflexivity.
Qed.

Lemma walk_from_sum (f : node -> nat) (fuel : nat) : forall todo : list node,
  sizes todo <= fuel ->
  sum_list_with f (walk_from fuel todo) = sum_list_with (count_nodes f) todo.
Proof.
  induction fuel as [|fuel IH]; intros todo Hfuel.
  - destruct todo as [|t rest]; [reflexivity |].
    simpl in Hfuel. rewrite node_size_children in Hfuel. lia.
  - destruct todo as [|t rest]; [reflexivity |].
    change (walk_from (S fuel) (t :: rest))
      with (t :: walk_from fuel (rest ++ iter_child_nodes t)).
    simpl in Hfuel. rewrite node_size_children in Hfuel.
    simpl. rewrite IH by (rewrite sizes_app; lia).
    rewrite sum_list_with_app, (count_nodes_children f t). lia.
Qed.

Lemma length_flat_map {A B} (f : A -> list B) (l : list A) :
  length (flat_map f l) = sum_list_with (fun x => length (f x)) l.
Proof.
  induction l as [|x l IH]; simpl; [reflexivity |].
  rewrite length_app, IH. reflexivity.
Qed.

Lemma visit_length (text : string) (unparse : expr -> string) (n : node) :
  length (visit text unparse n) = marked_here n.
Proof.
  unfold marked_here, marked.
  destruct n as [f | f | cs]; simpl; try reflexivity;
    rewrite scan_decorators_spec; destruct (existsb _ _); reflexivity.
Qed.

Lemma count_nodes_ext (f g : node -> nat) :
  (forall n, f n = g n) -> forall n, count_nodes f n = count_nodes g n.
Proof.
  intros Hfg. fix IH 1. intros n.
  assert (Hgo : forall l : list node,
             (forall c, In c l -> count_nodes f c = count_nodes g c) ->
             sum_list_with (count_nodes f) l = sum_list_with (count_nodes g) l).
  { induction l as [|c l IHl]; simpl; intros H; [reflexivity |].
    rewrite (H c) by (left; reflexivity). rewrite IHl; [reflexivity |].
    intros c' Hc'. apply H. right. exact Hc'. }
  rewrite !count_nodes_children, Hfg. f_equal.
  destruct n as [d | d | cs]; simpl.
  - induction (body d) as [|c l IHl]; simpl; [reflexivity | rewrite (IH c), IHl; reflexivity].
  - induction (body d) as [|c l IHl]; simpl; [reflexivity | rewrite (IH c), IHl; reflexivity].
  - induction cs as [|c l IHl]; simpl; [reflexivity | rewrite (IH c), IHl; reflexivity].
Qed.

(** X1.  The extractor returns as many records as the tree has marked
    function definitions, at any depth, sync or async.  A node gives at
    most one record, however many of its decorators are the marker; a
    function without decorators is never marked; and the walk has as many
    entries as the tree has nodes. *)
Theorem extraction_count (text : string) (unparse : expr -> string) (tree : node) :
  length (extract_tool_functions text unparse tree) = count_marked tree
  /\ length (walk tree) = node_size tree
  /\ (forall n, length (visit text unparse n) <= 1)
  /\ (forall f : fundef node, decorator_list f = [] -> marked f = false).
Proof.
  split; [| split; [| split]].
  - unfold extract_tool_functions, count_marked, walk. rewrite length_flat_map.
    rewrite walk_from_sum by (simpl; lia). simpl. rewrite Nat.add_0_r.
    apply count_nodes_ext. apply visit_length.
  - unfold walk.
    pose proof (walk_from_sum (fun _ => 1) (node_size tree) [tree]) as H.
    assert (Hlen : forall l : list node, sum_list_with (fun _ => 1) l = length l).
    { induction l as [|x l IHl]; simpl; [reflexivity | rewrite IHl; reflexivity]. }
    rewrite Hlen in H. rewrite H by (simpl; lia). simpl. rewrite Nat.add_0_r.
    clear H. revert tree. fix IH 1. intros tree.
    rewrite count_nodes_children, node_size_children. f_equal.
    destruct tree as [d | d | cs]; simpl.
    + induction (body d) as [|c l IHl]; simpl; [reflexivity | rewrite (IH c), IHl; reflexivity].
    + induction (body d) as [|c l IHl]; simpl; [reflexivity | rewrite (IH c), IHl; reflexivity].
    + induction cs as [|c l IHl]; simpl; [reflexivity | rewrite (IH c), IHl; reflexivity].
  - intros n. rewrite visit_length. unfold marked_here.
    destruct (as_fundef n) as [f |]; [destruct (marked f) |]; lia.
  - intros f Hnone. unfold marked. rewrite Hnone. reflexivity.
Qed.

Example extraction_count_nested :
  map name (extract_tool_functions "" Sample.unparse_names MoreSamples.nested_tree)
  = ["twice"; "inner"]
  /\ count_marked MoreSamples.nested_tree = 2.
Proof. split; reflexivity. Qed.

Lemma walk_from_enough (fuel1 : nat) : forall (fuel2 : nat) (todo : list node),
  sizes todo <= fuel1 -> sizes todo <= fuel2 ->
  walk_from fuel1 todo = walk_from fuel2 todo.
Proof.
  induction fuel1 as [|fuel1 IH]; intros fuel2 todo H1 H2.
  - destruct todo as [|t rest]; [destruct fuel2; reflexivity |].
    simpl in H1. rewrite node_size_children in H1. lia.
  - destruct todo as [|t rest]; [destruct fuel2; reflexivity |].
    simpl in H1, H2. rewrite node_size_children in H1, H2.
    destruct fuel2 as [|fuel2]; [lia |].
    simpl. f_equal. apply IH; rewrite sizes_app; lia.
Qed.

Lemma sizes_children (l : list node) :
  sizes l = length l + sizes (flat_map iter_child_nodes l).
Proof.
  induction l as [|n l IH]; simpl; [reflexivity |].
  rewrite sizes_app, node_size_children, IH. lia.
Qed.

(** The walk goes level by level: the queued nodes first, in order, then
    what is behind them in the queue and their children. *)
Lemma walk_from_levels (l1 : list node) : forall (fuel : nat) (l2 : list node),
  sizes (l1 ++ l2) <= fuel ->
  walk_from fuel (l1 ++ l2) = l1 ++ walk_from fuel (l2 ++ flat_map iter_child_nodes l1).
Proof.
  induction l1 as [|n l1 IH]; intros fuel l2 Hfuel.
  - simpl. rewrite app_nil_r. reflexivity.
  - rewrite sizes_app in Hfuel. simpl in Hfuel. rewrite node_size_children in Hfuel.
    destruct fuel as [|fuel]; [lia |].
    change (walk_from (S fuel) ((n :: l1) ++ l2))
      with (n :: walk_from fuel ((l1 ++ l2) ++ iter_child_nodes n)).
    rewrite <- app_assoc. rewrite IH by (rewrite !sizes_app; lia).
    change (flat_map iter_child_nodes (n :: l1))
      with (iter_child_nodes n ++ flat_map iter_child_nodes l1).
    rewrite <- app_comm_cons. f_equal. f_equal. rewrite <- app_assoc.
    pose proof (sizes_children l1) as Hl1.
    apply walk_from_enough; rewrite !sizes_app; lia.
Qed.

(** X2.  The records come in breadth-first order.  For a module, the
    records of the functions at its top level come first, in source order;
    those of the functions nested one level deeper follow, and so on level
    by level: a nested marked function is reported after every marked
    function of the levels above it, also the ones written after it. *)
Theorem extraction_is_level_order (text : string) (unparse : expr -> string) :
  (forall l : list node,
     walk_forest l = l ++ walk_forest (flat_map iter_child_nodes l))
  /\ (forall tree : node, walk tree = tree :: walk_forest (iter_child_nodes tree))
  /\ (forall children : list node,
        extract_tool_functions text unparse (OtherNode children)
        = flat_map (visit text unparse) children
          ++ flat_map (visit text unparse)
               (walk_forest (flat_map iter_child_nodes children))).
Proof.
  assert (Hforest : forall l : list node,
             walk_forest l = l ++ walk_forest (flat_map iter_child_nodes l)).
  { intros l. unfold walk_forest.
    pose proof (walk_from_levels l (sizes l) []) as H. rewrite !app_nil_r in H.
    rewrite H by lia. f_equal. simpl.
    pose proof (sizes_children l). apply walk_from_enough; lia. }
  assert (Hwalk : forall tree : node, walk tree = tree :: walk_forest (iter_child_nodes tree)).
  { intros tree. unfold walk, walk_forest. rewrite node_size_children. reflexivity. }
  split; [exact Hforest | split; [exact Hwalk |]].
  intros children. unfold extract_tool_functions.
  rewrite Hwalk. simpl. rewrite Hforest, flat_map_app. reflexivity.
Qed.

(** ** The extractor: signatures *)

(** X3.  The positional-or-keyword parameters of a function
    ([node.args.args]) are listed in the signature in declaration order,
    each with the unparsed text of its annotation, or the empty string
    when it has none; [return_type] is the unparsed return annotation, or
    the empty string.  This is for parameters with distinct names (the
    compiler rejects a repeated name, [ast.parse] alone does not); where
    no annotation unparses to the empty string, the empty string stands
    for an absent type and nothing else. *)
Theorem signature_of_positional_parameters (unparse : expr -> string) (f : fundef node) :
  List.NoDup (map arg_name (args (fargs f))) ->
  Forall (fun a => forall t, annotation a = Some t -> unparse t <> "") (args (fargs f)) ->
  (forall r, returns f = Some r -> unparse r <> "") ->
  parameters (_get_function_signature unparse f)
  = map (fun a => (arg_name a, param_type unparse a)) (args (fargs f))
  /\ Spec.signature_parameters (_get_function_signature unparse f)
     = map (Spec.declared unparse) (args (fargs f))
  /\ Spec.type_expr (return_type (_get_function_signature unparse f)) = unparse <$> returns f.
Proof.
  intros Hnd Hann Hret.
  assert (Hraw : parameters (_get_function_signature unparse f)
                 = map (fun a => (arg_name a, param_type unparse a)) (args (fargs f))).
  { unfold _get_function_signature. simpl.
    rewrite fold_dict_set_distinct by exact Hnd. reflexivity. }
  split; [exact Hraw | split].
  - unfold Spec.signature_parameters. rewrite Hraw, map_map. clear Hraw Hnd.
    induction Hann as [|a l Ha _ IH]; simpl; [reflexivity |].
    f_equal; [| exact IH].
    unfold Spec.declared, param_type, Spec.type_expr.
    destruct (annotation a) as [t |]; simpl; [| reflexivity].
    destruct (String.eqb_spec (unparse t) "") as [He |]; [| reflexivity].
    exfalso. exact (Ha t eq_refl He).
  - unfold _get_function_signature, Spec.type_expr. simpl.
    destruct (returns f) as [r |]; simpl; [| reflexivity].
    destruct (String.eqb_spec (unparse r) "") as [He |]; [| reflexivity].
    exfalso. exact (Hret r eq_refl He).
Qed.

Lemma signature_of_positional_parameters_witness :
  Spec.signature_parameters (_get_function_signature Sample.unparse_names Sample.run_def)
  = [("cmd", None); ("n", Some "int")]
  /\ Spec.type_expr (return_type (_get_function_signature Sample.unparse_names Sample.run_def))
     = Some "str".
Proof.
  destruct (signature_of_positional_parameters Sample.unparse_names Sample.run_def)
    as (_ & Hp & Hr).
  - simpl. constructor; [simpl; intros [H | []]; discriminate |].
    constructor; [simpl; tauto | constructor].
  - simpl. constructor; [intros t H; discriminate |].
    constructor; [intros t H; injection H as <-; discriminate | constructor].
  - intros r H. injection H as <-. discriminate.
  - split; [rewrite Hp | rewrite Hr]; reflexivity.
Defined.

(** ** The extractor: source spans *)



(** ** The worker: how long it waits *)


(** X4.  The backoff waits of one record add up to at most 8 seconds
    when the jitter stays in [0, 1): nothing after one call, between 2 and
    3 seconds after two calls, between 6 and 8 seconds after three.  The
    bounds 3 and 8 are reached, since the sums are rounded to doubles. *)
Theorem total_wait_bound (client : string -> nat -> call_result) (uniform01 : nat -> Q)
  (tool_info : tool_record) :
  (forall i, (0 <= uniform01 i)%Q /\ (uniform01 i < 1)%Q) ->
  let trace := snd (analyze_tool_with_llm client uniform01 tool_info) in
  (0 <= total (sleeps trace))%Q
  /\ (total (sleeps trace) <= 8)%Q
  /\ (calls trace = 1 -> sleeps trace = [])
  /\ (calls trace = 2 -> (2 <= total (sleeps trace))%Q /\ (total (sleeps trace) <= 3)%Q)
  /\ (calls trace = 3 -> (6 <= total (sleeps trace))%Q).
Proof.
  intros Hu trace. subst trace. rewrite analyze_tool_with_llm_cases.
  set (p := build_prompt tool_info). clearbody p.
  destruct (Hu 1) as [H1 H1']. destruct (Hu 2) as [H2 H2'].
  destruct (sleep_time_bounds uniform01 1 H1 H1') as (_ & Ha1 & Hb1 & _);
    [unfold max_retries; lia |].
  destruct (sleep_time_bounds uniform01 2 H2 H2') as (_ & Ha2 & Hb2 & _);
    [unfold max_retries; lia |].
  change (inject_Z (2 ^ Z.of_nat 1)) with 2%Q in *.
  change (inject_Z (2 ^ Z.of_nat 2)) with 4%Q in *.
  set (s1 := sleep_time uniform01 1) in *. set (s2 := sleep_time uniform01 2) in *.
  clearbody s1 s2.
  assert (Hc1 : calls [ECall p 0] = 1) by reflexivity.
  assert (Hc2 : forall a, calls [ECall p 0; ESleep a; ECall p 1] = 2) by reflexivity.
  assert (Hc3 : forall a b, calls [ECall p 0; ESleep a; ECall p 1; ESleep b; ECall p 2] = 3)
    by reflexivity.
  destruct (client p 0) as [a0 | e0].
  { cbn [snd sleeps flat_map app total fold_right]. rewrite Hc1.
    split; [lra | split; [lra | split; [reflexivity | split; intros Hn; discriminate]]]. }
  destruct (client p 1) as [a1 | e1].
  { cbn [snd sleeps flat_map app total fold_right]. rewrite Hc2.
    split; [lra | split; [lra | split; [intros Hn; discriminate | split]]].
    - intros _. split; lra.
    - intros Hn; discriminate. }
  destruct (client p 2) as [a2 | e2];
    cbn [snd sleeps flat_map app total fold_right]; rewrite Hc3;
    (split; [lra | split; [lra | split; [intros Hn; discriminate | split]]];
     [intros Hn; discriminate | intros _; lra]).
Qed.

Lemma total_wait_bound_witness :
  (total (sleeps (snd (analyze_tool_with_llm Sample.third_time_client MoreSamples.almost_one
                         Sample.run_tool))) <= 8)%Q
  /\ sleeps (snd (analyze_tool_with_llm Sample.third_time_client MoreSamples.almost_one
                    Sample.run_tool)) = [3%Q; 5%Q].
Proof.
  assert (Hu : forall i, (0 <= MoreSamples.almost_one i)%Q /\ (MoreSamples.almost_one i < 1)%Q).
  { intros i. unfold MoreSamples.almost_one, Qle, Qlt. simpl. lia. }
  destruct (total_wait_bound Sample.third_time_client MoreSamples.almost_one
              Sample.run_tool Hu) as (_ & H & _).
  split; [exact H | vm_compute; reflexivity].
Defined.

(** ** The thread pool: it ends, and what it costs *)

(** X5.  A pass of the pool cannot run forever and cannot get stuck.
    From the pool [analyze_repo] creates over N tools, every sequence of
    actions, under any interleaving, has at most 11 N steps; and a state
    in which no action is enabled is exactly a state in which the results
    of all N tools have been collected. *)
Theorem pool_pass_ends (client : nat -> string -> nat -> call_result)
  (uniform01 : nat -> nat -> Q) (all_tools : list tool_record) (k : nat)
  (s0 s : pool) (acts : list action) :
  new_pool k all_tools = Some s0 ->
  run_actions client uniform01 acts s0 = Some s ->
  length acts <= 11 * length all_tools
  /\ (enabled client uniform01 s = []
      <-> length (analyzed_tools s) = length all_tools).
Proof.
  intros Hnew Hrun.
  destruct (new_pool_facts client uniform01 k all_tools s0 Hnew) as (Hinv & _ & Hw & _).
  destruct (run_actions_facts client uniform01 _ acts s0 s Hinv Hrun) as (Hinv' & _ & Hlen).
  split; [lia |].
  split.
  - intros Hend.
    destruct (terminal_state client uniform01 _ s Hinv' Hend) as (Hp & Hq & Hf & Hidle).
    destruct Hinv' as [_ _ _ Hc]. rewrite Hp, Hq, Hf in Hc. simpl in Hc.
    assert (Hbusy : length (filter (fun th => busy th = true) (threads s)) = 0).
    { clear Hc. induction Hidle as [|th ths -> _ IH]; [reflexivity |].
      rewrite filter_cons. simpl. exact IH. }
    lia.
  - intros Hall. destruct Hinv' as [_ _ _ Hc].
    destruct (enabled client uniform01 s) as [|a rest] eqn:Hen; [reflexivity | exfalso].
    assert (Ha : a ∈ enabled client uniform01 s) by (rewrite Hen; left).
    apply enabled_applies in Ha as [s' Hs'].
    apply apply_action_step in Hs'.
    destruct Hs' as [t rest' spawned Hp _ _ _ _ _ _ _
                    | l1 l2 th th' fin Hth _ Hmove _ _ _ _
                    | j r _ _ Hj _ _ _ _ _].
    + rewrite Hp in Hc. simpl in Hc. lia.
    + rewrite Hth, busy_count_middle in Hc.
      destruct Hmove as [t q | t rc q _ | t rc e q _ _ | t rc q _ | t rc q _];
        simpl in Hc; lia.
    + apply lookup_lt_Some in Hj. lia.
Qed.

Lemma pool_pass_ends_witness :
  length Sample.twelve_actions <= 11 * length Sample.twelve_tools.
Proof.
  destruct (run_actions (fun _ => Sample.third_time_client) (fun _ => Sample.half)
              Sample.twelve_actions Sample.twelve_pool) as [s |] eqn:Hrun.
  - apply (pool_pass_ends (fun _ => Sample.third_time_client) (fun _ => Sample.half)
             Sample.twelve_tools 10 Sample.twelve_pool s Sample.twelve_actions);
      [reflexivity | exact Hrun].
  - vm_compute in Hrun. discriminate.
Defined.

Lemma calls_left_middle (l1 l2 : list thread) (th : thread) :
  sum_list_with calls_left_thread (l1 ++ th :: l2)
  = sum_list_with calls_left_thread l1 + calls_left_thread th
    + sum_list_with calls_left_thread l2.
Proof. rewrite sum_list_with_app. simpl. lia. Qed.

Lemma calls_logged_snoc (l : list (nat * event)) (id : nat) (e : event) :
  length (filter (fun ie => is_call (snd ie) = true) (l ++ [(id, e)]))
  = length (filter (fun ie => is_call (snd ie) = true) l) + (if is_call e then 1 else 0).
Proof.
  rewrite filter_app, length_app, filter_cons. destruct e; simpl; lia.
Qed.

Section CallBudget.

Variable client : nat -> string -> nat -> call_result.
Variable uniform01 : nat -> nat -> Q.

(** An action never raises what was logged plus what can still come, and
    a tool that leaves the queue has its first call logged. *)
Lemma apply_action_calls (a : action) (s s' : pool) :
  apply_action client uniform01 a s = Some s' ->
  calls_logged s' + calls_left s' <= calls_logged s + calls_left s
  /\ calls_logged s + length (pending s) + length (work_queue s)
     <= calls_logged s' + length (pending s') + length (work_queue s').
Proof.
  unfold calls_logged, calls_left.
  destruct a as [spawn | i | i | i | k]; unfold apply_action; intros H.
  - destruct (pending s) as [|t rest] eqn:Hp; [discriminate |].
    destruct spawn.
    + destruct (length (threads s) <? max_workers s); [| discriminate].
      injection H as <-. simpl. rewrite sum_list_with_app, length_app. simpl. lia.
    + destruct (threads s) as [|th ths] eqn:Ht; [discriminate |].
      injection H as <-. simpl. rewrite length_app. simpl. lia.
  - destruct (threads s !! i) as [[| |]|] eqn:Hi; try discriminate.
    destruct (work_queue s) as [|t q] eqn:Hq; [discriminate |].
    injection H as <-.
    destruct (insert_split (threads s) i Idle (InCall t 0) Hi) as (l1 & l2 & Hl & Hl').
    simpl. rewrite Hl', Hl, calls_logged_snoc, !calls_left_middle. simpl. lia.
  - destruct (threads s !! i) as [[|t rc|]|] eqn:Hi; try discriminate.
    destruct (client (task_id t) (build_prompt (task_tool t)) rc) as [r | e].
    + injection H as <-.
      destruct (insert_split (threads s) i (InCall t rc) Idle Hi) as (l1 & l2 & Hl & Hl').
      simpl. rewrite Hl', Hl, !calls_left_middle. simpl. lia.
    + destruct (Nat.eqb_spec rc (max_retries - 1)) as [Heq | Hne].
      * injection H as <-.
        destruct (insert_split (threads s) i (InCall t rc) Idle Hi) as (l1 & l2 & Hl & Hl').
        simpl. rewrite Hl', Hl, !calls_left_middle. simpl. lia.
      * injection H as <-.
        destruct (insert_split (threads s) i (InCall t rc) (Sleeping t (rc + 1)) Hi)
          as (l1 & l2 & Hl & Hl').
        simpl. rewrite Hl', Hl, calls_logged_snoc, !calls_left_middle.
        simpl. unfold max_retries in *. lia.
  - destruct (threads s !! i) as [[|t rc|t rc]|] eqn:Hi; try discriminate.
    injection H as <-. unfold enter_loop.
    destruct (Nat.ltb_spec rc max_retries) as [Hlt | Hge].
    + destruct (insert_split (threads s) i (Sleeping t rc) (InCall t rc) Hi)
        as (l1 & l2 & Hl & Hl').
      simpl. rewrite Hl', Hl, calls_logged_snoc, !calls_left_middle.
      simpl. unfold max_retries in *. lia.
    + destruct (insert_split (threads s) i (Sleeping t rc) Idle Hi) as (l1 & l2 & Hl & Hl').
      simpl. rewrite Hl', Hl, !calls_left_middle. simpl. lia.
  - destruct (pending s) as [|t rest] eqn:Hp; [| discriminate].
    destruct (finished s !! k) as [r |] eqn:Hk; [| discriminate].
    injection H as <-. simpl. lia.
Qed.

Lemma run_actions_calls (acts : list action) : forall s s' : pool,
  run_actions client uniform01 acts s = Some s' ->
  calls_logged s' + calls_left s' <= calls_logged s + calls_left s
  /\ calls_logged s + length (pending s) + length (work_queue s)
     <= calls_logged s' + length (pending s') + length (work_queue s').
Proof.
  induction acts as [|a acts IH]; simpl; intros s s' Hrun.
  - injection Hrun as <-. lia.
  - destruct (apply_action client uniform01 a s) as [s1 |] eqn:Ha; [| discriminate].
    apply apply_action_calls in Ha. apply IH in Hrun. lia.
Qed.

End CallBudget.

Lemma audit_calls_events (repo_path extension : string) (code_files : list string)
  (s : pool) :
  audit_calls (Scan repo_path extension :: map Extract code_files ++ audit_events s)
  = calls_logged s.
Proof.
  unfold audit_calls, calls_logged, audit_events.
  rewrite filter_cons. simpl. rewrite filter_app, length_app.
  assert (Hnone : length (filter (fun e => is_audit_call e = true) (map Extract code_files)) = 0).
  { induction code_files as [|f l IH]; [reflexivity |].
    simpl. rewrite filter_cons. simpl. exact IH. }
  rewrite Hnone. simpl.
  induction (log s) as [|[id e] l IH]; [reflexivity |].
  simpl. rewrite !filter_cons. simpl.
  destruct e; simpl; rewrite IH; reflexivity.
Qed.

(** X6.  The cost of one analysis in completion calls: every extracted
    tool is sent to the client at least once and at most three times, so
    an analysis of N tools makes between N and 3 N calls; and at no moment
    of a pass, under any interleaving, have more than 3 N calls been
    issued. *)
Theorem call_budget (env : Env) (repo_path language : string) :
  (forall (r : report) (events : list repo_event),
     analyze_repo env repo_path language = Ok (r, events) ->
     tools_count r <= audit_calls events <= 3 * tools_count r)
  /\ (forall (k : nat) (all_tools : list tool_record) (s0 s : pool) (acts : list action),
        new_pool k all_tools = Some s0 ->
        run_actions (client env repo_path) (uniform01 env repo_path) acts s0 = Some s ->
        calls_logged s <= 3 * length all_tools).
Proof.
  assert (Hinit : forall k all_tools s0,
             new_pool k all_tools = Some s0 ->
             calls_logged s0 = 0 /\ calls_left s0 = 3 * length all_tools
             /\ length (pending s0) = length all_tools /\ work_queue s0 = []).
  { intros k all_tools s0. unfold new_pool. destruct (k =? 0); [discriminate |].
    intros H. injection H as <-. unfold calls_logged, calls_left, number_tasks. simpl.
    rewrite length_imap. repeat split; lia. }
  split.
  - intros r events Hr. unfold analyze_repo in Hr.
    set (all_tools := extract_all env repo_path (get_code_files env repo_path language)) in *.
    destruct (new_pool (worker_count all_tools) all_tools) as [s0 |] eqn:Hnew; [| discriminate].
    set (cl := client env repo_path) in *. set (u := uniform01 env repo_path) in *.
    set (s := run_pool cl u (scheduler env repo_path) (weight s0) 0 s0) in *.
    injection Hr as <- <-. simpl. rewrite audit_calls_events.
    destruct (run_pool_reachable cl u (scheduler env repo_path) (weight s0) 0 s0)
      as [acts Hrun]. fold s in Hrun.
    assert (Hend : enabled cl u s = []) by (apply run_pool_terminal; lia).
    destruct (new_pool_facts cl u _ all_tools s0 Hnew) as (Hinv & _ & _ & _).
    destruct (run_actions_facts cl u _ acts s0 s Hinv Hrun) as (Hinv' & _ & _).
    destruct (terminal_state cl u _ s Hinv' Hend) as (Hp & Hq & Hf & Hidle).
    pose proof (finished_pass_collects_all cl u all_tools _ s0 s acts Hnew Hrun Hend) as Hall.
    apply Permutation_length in Hall. rewrite length_imap in Hall. rewrite Hall.
    destruct (Hinit _ _ _ Hnew) as (H0 & Hleft & Hpend & Hq0).
    destruct (run_actions_calls cl u acts s0 s Hrun) as [Hup Hlow].
    rewrite Hp, Hq in Hlow. rewrite Hq0 in Hlow. simpl in Hlow. lia.
  - intros k all_tools s0 s acts Hnew Hrun.
    destruct (Hinit _ _ _ Hnew) as (H0 & Hleft & _).
    destruct (run_actions_calls _ _ acts s0 s Hrun) as [Hup _]. lia.
Qed.

Lemma call_budget_witness :
  exists (r : report) (events : list repo_event),
    analyze_repo Sample.env "mcp_repos/acme_server" "Python" = Ok (r, events)
    /\ tools_count r = 1 /\ audit_calls events = 3.
Proof.
  destruct (analyze_repo Sample.env "mcp_repos/acme_server" "Python")
    as [[r events] | msg] eqn:Hr; [| vm_compute in Hr; discriminate].
  exists r, events. split; [reflexivity |].
  destruct (call_budget Sample.env "mcp_repos/acme_server" "Python") as [H _].
  specialize (H r events Hr).
  assert (Hcount : tools_count r = 1 /\ audit_calls events = 3).
  { vm_compute in Hr. injection Hr as <- <-. split; reflexivity. }
  exact Hcount.
Defined.

(** ** The report of one repository *)

(** X7.  What the report of a repository holds.  Every entry is a record
    the extractor returned for one of the scanned files, unchanged in its
    name, source, docstring, signature and line, with [file_path] set to
    the path of that file relative to the repository and [analysis] set to
    the text the worker produced.  A file that cannot be read or parsed
    gives no entry and does not disturb the entries of the other files. *)
Theorem report_entries (env : Env) (repo_path language : string) :
  (forall (r : report) (events : list repo_event) (t : tool_record),
     analyze_repo env repo_path language = Ok (r, events) ->
     In t (tools r) ->
     exists file found t' a,
       In file (get_code_files env repo_path language)
       /\ extract_tools env file = Some found /\ In t' found
       /\ name t = name t' /\ source_code t = source_code t' /\ docstring t = docstring t'
       /\ signature_of t = signature_of t' /\ line_number t = line_number t'
       /\ file_path t = Some (relpath env file repo_path)
       /\ analysis t = Some a)
  /\ (forall (l1 l2 : list string) (file : string),
        extract_tools env file = None ->
        extract_all env repo_path (l1 ++ file :: l2) = extract_all env repo_path (l1 ++ l2)).
Proof.
  split.
  - intros r events t Hr Ht.
    apply analyze_repo_tools in Hr.
    apply list_elem_of_In in Ht. rewrite Hr in Ht.
    apply elem_of_lookup_imap_1 in Ht as (i & t0 & -> & Hi).
    destruct (worker_sets_analysis (client env repo_path i) (uniform01 env repo_path i) t0)
      as [a ->].
    apply list_elem_of_lookup_2, list_elem_of_In, extract_all_spec in Hi
      as (file & found & t' & Hfile & Hfound & Ht' & ->).
    exists file, found, t', a. simpl. repeat split; try assumption; reflexivity.
  - intros l1 l2 file Hnone. unfold extract_all.
    rewrite !flat_map_app. simpl. rewrite Hnone. reflexivity.
Qed.

Lemma report_entries_witness :
  exists (r : report) (events : list repo_event),
    analyze_repo Sample.env "mcp_repos/acme_server" "Python" = Ok (r, events)
    /\ Forall (fun t => file_path t = Some "server.py" /\ analysis t = Some "fine") (tools r).
Proof.
  destruct (analyze_repo Sample.env "mcp_repos/acme_server" "Python")
    as [[r events] | msg] eqn:Hr; [| vm_compute in Hr; discriminate].
  exists r, events. split; [reflexivity |].
  destruct (report_entries Sample.env "mcp_repos/acme_server" "Python") as [H _].
  apply List.Forall_forall. intros t Ht.
  destruct (H r events t Hr Ht) as (file & found & t' & a & _).
  vm_compute in Hr. injection Hr as <- _.
  destruct Ht as [<- | []]. split; reflexivity.
Defined.

(** ** Finding the code files *)

(** X8.  [get_code_files] returns exactly the paths [join(root, file)] of
    the walked files whose name ends with the extension of the language
    and does not contain [site-packages], [node_modules] or [.venv]; the
    test is on the file name alone, never on the directory.  Every
    returned path ends with the extension, and the extension of every
    language starts with a dot. *)
Theorem code_files_have_extension (env : Env) (repo_path language : string) :
  (forall p,
     In p (get_code_files env repo_path language) <->
     exists root files file,
       In (root, files) (os_walk env repo_path) /\ In file files
       /\ skipped_name file = false
       /\ endswith file (extension_of language) = true
       /\ p = path_join root file)
  /\ (forall p, In p (get_code_files env repo_path language) ->
                exists pre, p = pre +:+ extension_of language)
  /\ String.prefix "." (extension_of language) = true.
Proof.
  assert (Hiff : forall p,
             In p (get_code_files env repo_path language) <->
             exists root files file,
               In (root, files) (os_walk env repo_path) /\ In file files
               /\ skipped_name file = false
               /\ endswith file (extension_of language) = true
               /\ p = path_join root file).
  { intros p. unfold get_code_files. rewrite in_flat_map. split.
    - intros ([root files] & Hwalk & Hin). apply in_flat_map in Hin as (file & Hfile & Hin).
      destruct (skipped_name file) eqn:Hskip; [destruct Hin |].
      destruct (endswith file (extension_of language)) eqn:Hend; [| destruct Hin].
      destruct Hin as [<- | []]. exists root, files, file. auto.
    - intros (root & files & file & Hwalk & Hfile & Hskip & Hend & ->).
      exists (root, files). split; [exact Hwalk |].
      apply in_flat_map. exists file. split; [exact Hfile |].
      rewrite Hskip, Hend. left. reflexivity. }
  split; [exact Hiff | split].
  - intros p Hp. apply Hiff in Hp as (root & files & file & _ & _ & _ & Hend & ->).
    apply endswith_suffix in Hend as [pre Hpre].
    destruct (path_join_suffix root file) as [pre' ->].
    exists (pre' +:+ pre). rewrite append_assoc, <- Hpre. reflexivity.
  - unfold extension_of.
    repeat (match goal with |- context [String.eqb language ?l] =>
                              destruct (String.eqb language l) end; [reflexivity |]).
    destruct (lower language); reflexivity.
Qed.

Lemma code_files_have_extension_witness :
  exists pre, "mcp_repos/acme_server/server.py" = pre +:+ ".py".
Proof.
  destruct (code_files_have_extension Sample.env "mcp_repos/acme_server" "Python")
    as (_ & H & _).
  apply (H "mcp_repos/acme_server/server.py"). left. reflexivity.
Defined.

(** ** Reading the manifest *)

Lemma prefix_empty (s : string) : String.prefix "" s = true.
Proof. destruct s; reflexivity. Qed.

Lemma prefix_cons (a : ascii) (s1 : string) (c : ascii) (s2 : string) :
  String.prefix (String a s1) (String c s2)
  = if ascii_dec a c then String.prefix s1 s2 else false.
Proof. reflexivity. Qed.

Lemma selected_spec (language_filter : option string) (r : row) :
  selected language_filter r = true <->
  is_Some (r !! "username") /\ is_Some (r !! "repo_name")
  /\ (Py.truthy_opt language_filter = false
      \/ r !! "language" = None
      \/ exists l, language_filter = Some l /\ r !! "language" = Some (Some l)).
Proof.
  unfold selected, has_key, language_differs, row_value.
  destruct (r !! "username") as [u |]; cbn;
    [| split; [discriminate | intros ([? H] & _); discriminate]].
  destruct (r !! "repo_name") as [n |]; cbn;
    [| split; [discriminate | intros (_ & [? H] & _); discriminate]].
  destruct (Py.truthy_opt language_filter) eqn:Hlf; cbn; [| split; eauto].
  destruct (r !! "language") as [[l |] |]; cbn.
  - destruct language_filter as [f |]; [| discriminate]. cbn.
    destruct (String.eqb_spec l f) as [-> | Hne]; cbn.
    + split; [intros _; repeat split; eauto | reflexivity].
    + split; [discriminate |].
      intros (_ & _ & [H | [H | (l' & H1 & H2)]]); try discriminate. congruence.
  - split; [discriminate |].
    intros (_ & _ & [H | [H | (l' & H1 & H2)]]); discriminate.
  - split; [intros _; repeat split; eauto | reflexivity].
Qed.

Lemma flat_map_sublist {A B} (f g : A -> list B) (l : list A) :
  (forall x, f x `sublist_of` g x) -> flat_map f l `sublist_of` flat_map g l.
Proof.
  intros H. induction l as [|x l IH]; simpl; [constructor |].
  apply sublist_app; [apply H | exact IH].
Qed.

(** X9.  How the manifest is filtered.  A row is selected when it has a
    [username] and a [repo_name] and, if a non-empty language is asked
    for, has no [language] column or exactly that language in it.  The
    filter only ever removes repositories and keeps their order; an empty
    filter is no filter.  The repository path is [mcp_repos/<username>_<repo_name>],
    except for a username that starts with a slash: then the path is the
    absolute one, outside [mcp_repos]. *)
Theorem manifest_filter (env : Env) (csv_path : string) :
  (forall (language_filter : option string) (r : row),
     selected language_filter r = true <->
     is_Some (r !! "username") /\ is_Some (r !! "repo_name")
     /\ (Py.truthy_opt language_filter = false
         \/ r !! "language" = None
         \/ exists l, language_filter = Some l /\ r !! "language" = Some (Some l)))
  /\ (forall language_filter : option string,
        read_repos_from_csv env csv_path language_filter
        `sublist_of` read_repos_from_csv env csv_path None)
  /\ read_repos_from_csv env csv_path (Some "") = read_repos_from_csv env csv_path None
  /\ (forall (r : row) (u n : string),
        r !! "username" = Some (Some u) -> r !! "repo_name" = Some (Some n) ->
        repo_path_of r
        = if String.prefix "/" u then u +:+ "_" +:+ n
          else "mcp_repos/" +:+ u +:+ "_" +:+ n).
Proof.
  split; [exact selected_spec | split; [| split]].
  - intros language_filter. unfold read_repos_from_csv.
    apply flat_map_sublist. intros r.
    destruct (selected language_filter r) eqn:Hsel; [| apply sublist_nil_l].
    assert (Hnone : selected None r = true).
    { apply selected_spec. apply selected_spec in Hsel as (Hu & Hn & _).
      repeat split; try assumption. left. reflexivity. }
    rewrite Hnone. reflexivity.
  - reflexivity.
  - intros r u n Hu Hn. unfold repo_path_of, row_value. rewrite Hu, Hn. simpl.
    unfold path_join.
    assert (Hprefix : String.prefix "/" (u +:+ "_" +:+ n) = String.prefix "/" u).
    { destruct u as [|c u]; [reflexivity |].
      change (String c u +:+ "_" +:+ n) with (String c (u +:+ "_" +:+ n)).
      rewrite !(prefix_cons "/" "").
      destruct (ascii_dec "/" c); [| reflexivity].
      rewrite !prefix_empty. reflexivity. }
    rewrite Hprefix. destruct (String.prefix "/" u); reflexivity.
Qed.

Lemma manifest_filter_witness :
  repo_path_of (<["username" := Some "/etc"]> (<["repo_name" := Some "x"]> ∅)) = "/etc_x"
  /\ repo_path_of (<["username" := Some "acme"]> (<["repo_name" := Some "x"]> ∅))
     = "mcp_repos/acme_x".
Proof.
  destruct (manifest_filter Sample.env "repos.csv") as (_ & _ & _ & H).
  split.
  - rewrite (H _ "/etc" "x"); reflexivity.
  - rewrite (H _ "acme" "x"); reflexivity.
Defined.

(** ** The batch: running it again, failing, and the order of its work *)

Lemma path_exists_weaken (env : Env) (w w' : world) (p : string) :
  files w ⊆ files w' -> path_exists env w p = true -> path_exists env w' p = true.
Proof.
  intros Hsub H. destruct (path_exists env w' p) eqn:H'; [reflexivity |].
  rewrite (path_exists_mono env w w' p Hsub H') in H. discriminate.
Qed.

(** After a batch that did not raise, the report of every listed
    repository exists. *)
Lemma batch_loop_reports_exist (env : Env) (repo_paths : list string) :
  forall w w' : world,
    batch_loop env repo_paths w = (w', Ok tt) ->
    forall rp, In rp repo_paths -> path_exists env w' (analysis_file_of rp) = true.
Proof.
  induction repo_paths as [|rp0 rest IH]; intros w w' Hrun rp Hin; [destruct Hin |].
  simpl in Hrun.
  destruct (path_exists env w (analysis_file_of rp0)) eqn:Hex.
  - destruct Hin as [<- | Hin]; [| eapply IH; eauto].
    apply batch_loop_facts in Hrun as (Hsub & _).
    eapply path_exists_weaken; [exact Hsub | exact Hex].
  - destruct (analyze_repo env rp0 "Python") as [[r events] | msg]; [| discriminate].
    destruct (write_report env (analysis_file_of rp0)); try discriminate.
    destruct Hin as [<- | Hin]; [| eapply IH; eauto].
    apply batch_loop_facts in Hrun as (Hsub & _).
    eapply path_exists_weaken; [exact Hsub |].
    unfold path_exists. simpl. rewrite lookup_insert_eq. reflexivity.
Qed.

(** A batch over repositories whose reports all exist only prints. *)
Lemma batch_loop_all_skipped (env : Env) (repo_paths : list string) :
  forall w : world,
    (forall rp, In rp repo_paths -> path_exists env w (analysis_file_of rp) = true) ->
    batch_loop env repo_paths w
    = ({| files := files w; made_dirs := made_dirs w;
          out := out w ++ map skip_message repo_paths |}, Ok tt).
Proof.
  induction repo_paths as [|rp rest IH]; intros w Hall; simpl.
  - rewrite app_nil_r. destruct w; reflexivity.
  - rewrite (Hall rp) by (left; reflexivity).
    rewrite IH by (intros rp' Hin; apply (Hall rp'); right; exact Hin).
    simpl. rewrite <- app_assoc. reflexivity.
Qed.

(** X10.  Running the batch again.  After a batch that ended without an
    exception, a second batch over the same manifest analyzes nothing and
    writes nothing: it leaves every file as it is and only prints. *)
Theorem batch_rerun_is_idle (env : Env) (csv_path : string) (language_filter : option string)
  (w w1 : world) :
  analyze_repos env csv_path language_filter w = (w1, Ok tt) ->
  exists w2 new,
    analyze_repos env csv_path language_filter w1 = (w2, Ok tt)
    /\ files w2 = files w1
    /\ made_dirs w2 = made_dirs w1
    /\ out w2 = out w1 ++ new
    /\ Forall is_print new.
Proof.
  unfold analyze_repos.
  destruct (isfile env csv_path); simpl.
  2:{ intros _. eexists. eexists [_]. repeat split. constructor; [exact I | constructor]. }
  destruct (read_repos_from_csv env csv_path language_filter) as [|rp rest] eqn:Hread.
  { intros _. eexists. eexists [_]. repeat split. constructor; [exact I | constructor]. }
  intros Hrun.
  pose proof (batch_loop_reports_exist env (rp :: rest) w w1 Hrun) as Hall.
  rewrite (batch_loop_all_skipped env (rp :: rest) w1 Hall).
  eexists. eexists. repeat split.
  apply List.Forall_forall. intros e He. apply in_map_iff in He as (rp' & <- & _). exact I.
Qed.

Lemma batch_rerun_is_idle_witness :
  exists w1 w2 new,
    analyze_repos Sample.env "repos.csv" None Sample.empty_world = (w1, Ok tt)
    /\ analyze_repos Sample.env "repos.csv" None w1 = (w2, Ok tt)
    /\ files w2 = files w1
    /\ out w2 = out w1 ++ new
    /\ length new = 2.
Proof.
  destruct (analyze_repos Sample.env "repos.csv" None Sample.empty_world)
    as [w1 [[] | msg]] eqn:H1; [| vm_compute in H1; discriminate].
  destruct (batch_rerun_is_idle Sample.env "repos.csv" None Sample.empty_world w1 H1)
    as (w2 & new & H2 & Hfiles & _ & Hout & _).
  exists w1, w2, new. repeat split; try assumption.
  unfold analyze_repos in H2. simpl in H2.
  assert (Hall : forall rp, In rp ["mcp_repos/acme_done"; "mcp_repos/acme_server"] ->
                            path_exists Sample.env w1 (analysis_file_of rp) = true).
  { apply (batch_loop_reports_exist Sample.env _ Sample.empty_world w1). exact H1. }
  change (batch_loop Sample.env ["mcp_repos/acme_done"; "mcp_repos/acme_server"] w1
          = (w2, Ok tt)) in H2.
  rewrite (batch_loop_all_skipped Sample.env _ w1 Hall) in H2.
  injection H2 as <-. simpl in Hout. apply app_inv_head in Hout. rewrite <- Hout.
  reflexivity.
Defined.

Lemma batch_loop_exception (env : Env) (repo_paths : list string) :
  forall (w w' : world) (msg : string),
    batch_loop env repo_paths w = (w', Exception msg) ->
    exists rp r events before,
      In rp repo_paths
      /\ analyze_repo env rp "Python" = Ok (r, events)
      /\ msg = "OSError: " +:+ analysis_file_of rp
      /\ ((write_report env (analysis_file_of rp) = OpenFails
           /\ out w' = out w ++ before ++ [Analyze rp events]
           /\ files w' !! analysis_file_of rp = None)
          \/ (exists written,
                write_report env (analysis_file_of rp) = DumpFails written
                /\ out w' = out w ++ before
                            ++ [Analyze rp events; WriteFile (analysis_file_of rp)]
                /\ files w' !! analysis_file_of rp
                   = Some (CutOff (json_of_report r) written))).
Proof.
  induction repo_paths as [|rp0 rest IH]; intros w w' msg Hrun; simpl in Hrun;
    [discriminate |].
  destruct (path_exists env w (analysis_file_of rp0)) eqn:Hex.
  - apply IH in Hrun as (rp & r & events & before & Hin & Hr & Hmsg & Hcase).
    exists rp, r, events, (skip_message rp0 :: before).
    split; [right; exact Hin | split; [exact Hr | split; [exact Hmsg |]]].
    simpl in Hcase.
    destruct Hcase as [(Hw & Hout & Hnone) | (n & Hw & Hout & Hcut)].
    + left. rewrite <- app_assoc in Hout. auto.
    + right. exists n. rewrite <- app_assoc in Hout. auto.
  - destruct (analyze_repo_returns env rp0 "Python") as (r0 & events0 & Hr0).
    rewrite Hr0 in Hrun.
    destruct (write_report env (analysis_file_of rp0)) as [| | written] eqn:Hw0.
    + apply IH in Hrun as (rp & r & events & before & Hin & Hr & Hmsg & Hcase).
      exists rp, r, events,
        (Analyze rp0 events0 :: WriteFile (analysis_file_of rp0) :: before).
      split; [right; exact Hin | split; [exact Hr | split; [exact Hmsg |]]].
      simpl in Hcase.
      destruct Hcase as [(Hw & Hout & Hnone) | (n & Hw & Hout & Hcut)].
      * left. rewrite <- !app_assoc in Hout. auto.
      * right. exists n. rewrite <- !app_assoc in Hout. auto.
    + injection Hrun as <- <-.
      exists rp0, r0, events0, []. simpl.
      split; [left; reflexivity | split; [exact Hr0 | split; [reflexivity |]]].
      left. split; [exact Hw0 | split; [reflexivity |]].
      eapply path_exists_false_lookup. exact Hex.
    + injection Hrun as <- <-.
      exists rp0, r0, events0, []. simpl.
      split; [left; reflexivity | split; [exact Hr0 | split; [reflexivity |]]].
      right. exists written. split; [exact Hw0 | split].
      * rewrite <- app_assoc. reflexivity.
      * apply lookup_insert_eq.
Qed.

(** X11.  How a batch fails.  A batch raises only when the report of a
    selected repository cannot be written, and then right after the
    analysis of that repository: nothing after it in the manifest is
    touched.  If the file could not be opened there is no report, as
    before.  If it was opened and the dump failed, the cut-off report
    stays on disk; a later batch over the same manifest then finds the
    file, skips the repository and leaves the cut-off report as it is. *)
Theorem batch_fails_only_on_write (env : Env) (csv_path : string)
  (language_filter : option string) (w w' : world) (msg : string) :
  analyze_repos env csv_path language_filter w = (w', Exception msg) ->
  exists rp r events before,
    In rp (read_repos_from_csv env csv_path language_filter)
    /\ analyze_repo env rp "Python" = Ok (r, events)
    /\ msg = "OSError: " +:+ analysis_file_of rp
    /\ ((write_report env (analysis_file_of rp) = OpenFails
         /\ out w' = out w ++ before ++ [Analyze rp events]
         /\ files w' !! analysis_file_of rp = None)
        \/ (exists written,
              write_report env (analysis_file_of rp) = DumpFails written
              /\ out w' = out w ++ before
                          ++ [Analyze rp events; WriteFile (analysis_file_of rp)]
              /\ files w' !! analysis_file_of rp = Some (CutOff (json_of_report r) written)
              /\ files (fst (analyze_repos env csv_path language_filter w'))
                   !! analysis_file_of rp
                 = Some (CutOff (json_of_report r) written)
              /\ exists new,
                   out (fst (analyze_repos env csv_path language_filter w')) = out w' ++ new
                   /\ forall events', ~ In (Analyze rp events') new)).
Proof.
  intros Hrun.
  assert (Hloop : batch_loop env (read_repos_from_csv env csv_path language_filter) w
                  = (w', Exception msg)).
  { unfold analyze_repos in Hrun.
    destruct (isfile env csv_path); simpl in Hrun; [| discriminate].
    destruct (read_repos_from_csv env csv_path language_filter) as [|rp rest];
      [discriminate | exact Hrun]. }
  apply batch_loop_exception in Hloop as (rp & r & events & before & Hin & Hr & Hmsg & Hcase).
  exists rp, r, events, before.
  split; [exact Hin | split; [exact Hr | split; [exact Hmsg |]]].
  destruct Hcase as [Hopen | (written & Hw & Hout & Hcut)]; [left; exact Hopen |].
  right. exists written.
  split; [exact Hw | split; [exact Hout | split; [exact Hcut |]]].
  destruct (analyze_repos env csv_path language_filter w') as [w2 res2] eqn:Hrun2.
  destruct (analyze_repos_facts env csv_path language_filter w' w2 res2 Hrun2)
    as (Hsub & _ & new & Hout2 & Hall & _).
  simpl. split; [eapply lookup_weaken; eauto |].
  exists new. split; [exact Hout2 |].
  intros events' Hin'. rewrite Forall_forall in Hall.
  apply list_elem_of_In, Hall in Hin'. simpl in Hin'.
  destruct Hin' as (_ & Hnot & _).
  unfold path_exists in Hnot. rewrite Hcut in Hnot. discriminate.
Qed.

Lemma batch_fails_only_on_write_witness :
  exists w' r,
    analyze_repos MoreSamples.full_disk_env "repos.csv" None Sample.empty_world
    = (w', Exception "OSError: mcp_repos/acme_done_tools.json")
    /\ files w' !! "mcp_repos/acme_done_tools.json" = Some (CutOff (json_of_report r) 40).
Proof.
  destruct (analyze_repos MoreSamples.full_disk_env "repos.csv" None Sample.empty_world)
    as [w' [[] | msg]] eqn:Hrun; [vm_compute in Hrun; discriminate |].
  destruct (batch_fails_only_on_write MoreSamples.full_disk_env "repos.csv" None
              Sample.empty_world w' msg Hrun)
    as (rp & r & events & before & Hin & _ & Hmsg & Hcase).
  assert (Hm : msg = "OSError: mcp_repos/acme_done_tools.json")
    by (vm_compute in Hrun; injection Hrun as _ Hm; symmetry; exact Hm).
  assert (Hrp : rp = "mcp_repos/acme_done").
  { rewrite Hm in Hmsg. unfold analysis_file_of in Hmsg.
    destruct Hin as [<- | [<- | []]]; [reflexivity | discriminate]. }
  subst rp. exists w', r. rewrite <- Hm. split; [reflexivity |].
  destruct Hcase as [(Hw & _) | (written & Hw & _ & Hcut & _)]; [discriminate |].
  assert (Hn : written = 40) by (cbv in Hw; congruence).
  rewrite Hn in Hcut. exact Hcut.
Defined.

Lemma analyzed_paths_spec (events : list batch_event) (rp : string) :
  rp ∈ analyzed_paths events <-> exists ev, In (Analyze rp ev) events.
Proof.
  unfold analyzed_paths. rewrite list_elem_of_In, in_flat_map. split.
  - intros (e & He & Hin). destruct e as [m | rp' ev | p]; simpl in Hin; try tauto.
    destruct Hin as [-> | []]. eauto.
  - intros (ev & Hin). exists (Analyze rp ev). split; [exact Hin | left; reflexivity].
Qed.

Lemma batch_loop_order (env : Env) (repo_paths : list string) :
  forall (w w' : world) (res : result unit),
    batch_loop env repo_paths w = (w', res) ->
    exists new,
      out w' = out w ++ new
      /\ analyzed_paths new `sublist_of` repo_paths
      /\ NoDup (analyzed_paths new).
Proof.
  induction repo_paths as [|rp rest IH]; intros w w' res Hrun; simpl in Hrun.
  - injection Hrun as <- <-. exists []. rewrite app_nil_r.
    repeat split; [reflexivity | constructor].
  - destruct (path_exists env w (analysis_file_of rp)) eqn:Hex.
    + apply IH in Hrun as (new & Hout & Hsub & Hnd).
      exists (skip_message rp :: new). simpl in Hout. rewrite <- app_assoc in Hout.
      repeat split; [exact Hout | | exact Hnd].
      simpl. apply sublist_cons. exact Hsub.
    + destruct (analyze_repo env rp "Python") as [[r events] | msg] eqn:Hr.
      2:{ injection Hrun as <- <-. exists []. rewrite app_nil_r.
          repeat split; [apply sublist_nil_l | constructor]. }
      destruct (write_report env (analysis_file_of rp)) as [| | written].
      2:{ injection Hrun as <- <-. exists [Analyze rp events].
          repeat split; simpl.
          - apply sublist_skip. apply sublist_nil_l.
          - apply NoDup_singleton. }
      2:{ injection Hrun as <- <-.
          exists [Analyze rp events; WriteFile (analysis_file_of rp)].
          simpl. rewrite <- app_assoc. repeat split; simpl.
          - apply sublist_skip. apply sublist_nil_l.
          - apply NoDup_singleton. }
      pose proof Hrun as Hfacts.
      apply batch_loop_facts in Hfacts as (_ & _ & new' & Hout' & Hall & _).
      apply IH in Hrun as (new & Hout & Hsub & Hnd).
      assert (new' = new) as -> by (eapply app_inv_head; rewrite <- Hout; exact (eq_sym Hout')).
      exists (Analyze rp events :: WriteFile (analysis_file_of rp) :: new).
      simpl in Hout. rewrite <- !app_assoc in Hout.
      repeat split; [exact Hout | |]; simpl.
      * apply sublist_skip. exact Hsub.
      * apply NoDup_cons. split; [| exact Hnd].
        intros Hin. apply analyzed_paths_spec in Hin as [ev Hin].
        rewrite Forall_forall in Hall. apply list_elem_of_In, Hall in Hin.
        simpl in Hin. destruct Hin as (_ & Hnot & _).
        unfold path_exists in Hnot. simpl in Hnot.
        rewrite lookup_insert_eq in Hnot. discriminate.
Qed.

(** X12.  A batch works through the manifest in order and analyzes no
    repository twice: the repositories it analyzes are, in the order of
    their analyses, a subsequence of the selected repository paths, and
    none occurs twice, also when the manifest lists a repository more
    than once. *)
Theorem batch_analyzes_once_in_order (env : Env) (csv_path : string)
  (language_filter : option string) (w : world) :
  exists new,
    out (fst (analyze_repos env csv_path language_filter w)) = out w ++ new
    /\ analyzed_paths new `sublist_of` read_repos_from_csv env csv_path language_filter
    /\ NoDup (analyzed_paths new).
Proof.
  unfold analyze_repos.
  destruct (isfile env csv_path); simpl.
  2:{ eexists [_]. repeat split; [apply sublist_nil_l | constructor]. }
  destruct (read_repos_from_csv env csv_path language_filter) as [|rp rest] eqn:Hread.
  { eexists [_]. repeat split; constructor. }
  destruct (batch_loop env (rp :: rest) w) as [w' res] eqn:Hrun.
  apply batch_loop_order in Hrun. exact Hrun.
Qed.

(** X13.  What [main] does to the files.  In no mode does [main] change
    or remove a file that exists; unless it runs in batch mode ([--csv]
    without [--repo]) it leaves the files exactly as they are; and with
    both [--repo] and [--csv] it prints the error and does nothing else:
    no directory is made and nothing is analyzed. *)
Theorem main_preserves_files (env : Env) (args : arguments) (w : world) :
  files w ⊆ files (fst (main env args w))
  /\ (Py.truthy_opt (csv args) = false \/ Py.truthy_opt (repo args) = true ->
      files (fst (main env args w)) = files w)
  /\ (Py.truthy_opt (repo args) = true -> Py.truthy_opt (csv args) = true ->
      fst (main env args w)
      = emit w (Print "Error: Cannot specify both --repo and --csv options")).
Proof.
  unfold main.
  destruct (Py.truthy_opt (repo args)) eqn:Hrepo;
    destruct (Py.truthy_opt (csv args)) eqn:Hcsv; simpl.
  - split; [reflexivity | split; [intros _; reflexivity | intros _ _; reflexivity]].
  - set (w1 := if Py.truthy (language args) && true then _ else w).
    assert (Hw1 : files w1 = files w) by (subst w1; destruct (_ && _); reflexivity).
    clearbody w1. unfold makedirs.
    destruct (files w1 !! "./results"); simpl;
      [| destruct (analyze_repo env (default "" (repo args)) (language args))
           as [[r ev] | m]; simpl];
      rewrite Hw1; (split; [reflexivity | split; [intros _; reflexivity | discriminate]]).
  - rewrite andb_false_r. unfold makedirs.
    destruct (files w !! "./results"); simpl.
    + split; [reflexivity | split; [intros [H | H]; discriminate | discriminate]].
    + destruct (analyze_repos env (default "" (csv args)) (Some (language args)) _)
        as [w' res] eqn:Hrun.
      apply analyze_repos_facts in Hrun as (Hsub & _). simpl in *.
      split; [exact Hsub | split; [intros [H | H]; discriminate | discriminate]].
  - set (w1 := if Py.truthy (language args) && true then _ else w).
    assert (Hw1 : files w1 = files w) by (subst w1; destruct (_ && _); reflexivity).
    clearbody w1. unfold makedirs.
    destruct (files w1 !! "./results"); simpl; rewrite Hw1;
      (split; [reflexivity | split; [intros _; reflexivity | discriminate]]).
Qed.

Lemma main_preserves_files_witness :
  fst (main Sample.env
         {| repo := Some "mcp_repos/acme_server"; csv := Some "repos.csv";
            language := "Python"; debug := false |}
         Sample.world_done)
  = emit Sample.world_done (Print "Error: Cannot specify both --repo and --csv options").
Proof.
  destruct (main_preserves_files Sample.env
              {| repo := Some "mcp_repos/acme_server"; csv := Some "repos.csv";
                 language := "Python"; debug := false |}
              Sample.world_done) as (_ & _ & H).
  apply H; reflexivity.
Defined.

(** ** Which decorators are the marker *)

Import MarkerShape.

Lemma dot_free_app_dot (a b : string) : dot_free (a +:+ "." +:+ b) = false.
Proof.
  induction a as [|c a IH]; [reflexivity |].
  change (String c a +:+ "." +:+ b) with (String c (a +:+ "." +:+ b)).
  simpl. rewrite IH. apply andb_false_r.
Qed.

(** A dotted name splits at its last dot in one way only. *)
Lemma split_last_dot (s1 : string) : forall s2 a b : string,
  dot_free a = true -> dot_free b = true ->
  s1 +:+ "." +:+ a = s2 +:+ "." +:+ b -> s1 = s2 /\ a = b.
Proof.
  induction s1 as [|c s1 IH]; intros s2 a b Ha Hb Heq.
  - destruct s2 as [|c2 s2].
    + change (String "." a = String "." b) in Heq.
      injection Heq as Heq. subst b. split; reflexivity.
    + change (String "." a = String c2 (s2 +:+ "." +:+ b)) in Heq.
      injection Heq as _ Heq. subst a. rewrite dot_free_app_dot in Ha. discriminate.
  - destruct s2 as [|c2 s2].
    + change (String c (s1 +:+ "." +:+ a) = String "." b) in Heq.
      injection Heq as _ Heq. subst b. rewrite dot_free_app_dot in Hb. discriminate.
    + change (String c (s1 +:+ "." +:+ a) = String c2 (s2 +:+ "." +:+ b)) in Heq.
      injection Heq as Hc Heq. subst c2.
      destruct (IH s2 a b Ha Hb Heq) as [H1 H2]. subst. split; reflexivity.
Qed.

Lemma name_is_mcp (e : expr) :
  identifiers_dot_free e = true ->
  (_get_decorator_name e = "mcp" <-> is_mcp e = true).
Proof.
  assert (Hnodot : forall a b, a +:+ "." +:+ b <> "mcp").
  { intros a b H. pose proof (dot_free_app_dot a b) as Hd. rewrite H in Hd. discriminate. }
  destruct e as [sp id | sp value attr | sp func args kws | sp]; simpl; intros Hwf.
  - symmetry. apply String.eqb_eq.
  - split; [intros H; exfalso; exact (Hnodot _ _ H) | discriminate].
  - destruct func as [sp' id | sp' value attr | sp' f a k | sp']; simpl.
    + symmetry. apply String.eqb_eq.
    + split; [intros H; exfalso; exact (Hnodot _ _ H) | discriminate].
    + split; discriminate.
    + split; discriminate.
  - split; discriminate.
Qed.

Lemma attribute_is_marker (value : expr) (attr : string) :
  dot_free attr = true -> identifiers_dot_free value = true ->
  (_get_decorator_name value +:+ "." +:+ attr = "mcp.tool"
   <-> String.eqb attr "tool" && is_mcp value = true).
Proof.
  intros Hattr Hvalue. rewrite andb_true_iff, String.eqb_eq, <- (name_is_mcp value Hvalue).
  split.
  - intros H.
    destruct (split_last_dot (_get_decorator_name value) "mcp" attr "tool" Hattr eq_refl H)
      as [H1 H2].
    split; assumption.
  - intros [-> ->]. reflexivity.
Qed.

(** X14.  The decorators the extractor takes for the marker are exactly
    [mcp.tool] and [mcp(...).tool], each written bare or called with any
    arguments.  Nothing else marks a function: not a bare [tool], not
    [server.tool()] or [app.tool()] on a differently named object, not a
    longer chain such as [x.mcp.tool], and not a call of a call such as
    [mcp.tool()()]. *)
Theorem marker_decorators (d : expr) :
  identifiers_dot_free d = true ->
  (_is_mcp_tool_decorator d = true <-> marker_shape d = true).
Proof.
  unfold _is_mcp_tool_decorator. rewrite String.eqb_eq.
  destruct d as [sp id | sp value attr | sp func args kws | sp]; simpl; intros Hwf.
  - split; [| discriminate]. intros ->. discriminate.
  - apply andb_true_iff in Hwf as [Hattr Hvalue]. apply attribute_is_marker; assumption.
  - destruct func as [sp' id | sp' value attr | sp' f a k | sp']; simpl in *.
    + split; [| discriminate]. intros ->. discriminate.
    + apply andb_true_iff in Hwf as [Hattr Hvalue]. apply attribute_is_marker; assumption.
    + split; discriminate.
    + split; discriminate.
  - split; discriminate.
Qed.

Lemma marker_decorators_witness :
  _is_mcp_tool_decorator Sample.mcp_tool_call = true
  /\ _is_mcp_tool_decorator Sample.tool_name = false.
Proof.
  split.
  - apply (marker_decorators Sample.mcp_tool_call); reflexivity.
  - destruct (_is_mcp_tool_decorator Sample.tool_name) eqn:H; [| reflexivity].
    apply (marker_decorators Sample.tool_name) in H; [discriminate | reflexivity].
Defined.

(** ** The reports a batch writes *)

Lemma report_tool_tagged (env : Env) (repo_path language : string) (r : report)
  (events : list repo_event) (t : tool_record) :
  analyze_repo env repo_path language = Ok (r, events) ->
  In t (tools r) ->
  exists fp a, file_path t = Some fp /\ analysis t = Some a.
Proof.
  intros Hr Ht. apply analyze_repo_tools in Hr.
  apply list_elem_of_In in Ht. rewrite Hr in Ht.
  apply elem_of_lookup_imap_1 in Ht as (i & t0 & -> & Hi).
  destruct (worker_sets_analysis (client env repo_path i) (uniform01 env repo_path i) t0)
    as [a ->].
  apply list_elem_of_lookup_2, list_elem_of_In, extract_all_spec in Hi
    as (file & found & t' & _ & _ & _ & ->).
  eexists. exists a. split; reflexivity.
Qed.

Lemma batch_loop_written (env : Env) (repo_paths : list string) :
  forall (w w' : world) (res : result unit),
    batch_loop env repo_paths w = (w', res) ->
    forall p c,
      files w' !! p = Some c ->
      files w !! p = Some c
      \/ exists rp r events,
           In rp repo_paths /\ p = analysis_file_of rp
           /\ analyze_repo env rp "Python" = Ok (r, events)
           /\ (c = Document (json_of_report r)
               \/ exists written msg,
                    res = Exception msg
                    /\ write_report env p = DumpFails written
                    /\ c = CutOff (json_of_report r) written).
Proof.
  induction repo_paths as [|rp0 rest IH]; intros w w' res Hrun p c Hc; simpl in Hrun.
  - injection Hrun as <- <-. left. exact Hc.
  - destruct (path_exists env w (analysis_file_of rp0)) eqn:Hex.
    + destruct (IH _ _ _ Hrun p c Hc) as [H | (rp & r & ev & Hin & H)]; [left; exact H |].
      right. exists rp, r, ev. split; [right; exact Hin | exact H].
    + destruct (analyze_repo env rp0 "Python") as [[r0 ev0] | msg] eqn:Hr0.
      2:{ injection Hrun as <- <-. left. exact Hc. }
      destruct (write_report env (analysis_file_of rp0)) as [| | written] eqn:Hw0.
      * destruct (IH _ _ _ Hrun p c Hc) as [H | (rp & r & ev & Hin & H)].
        -- simpl in H. destruct (String.eqb_spec p (analysis_file_of rp0)) as [-> | Hne].
           ++ rewrite lookup_insert_eq in H. injection H as <-.
              right. exists rp0, r0, ev0.
              split; [left; reflexivity | split; [reflexivity | split; [exact Hr0 |]]].
              left. reflexivity.
           ++ rewrite lookup_insert_ne in H by congruence. left. exact H.
        -- right. exists rp, r, ev. split; [right; exact Hin | exact H].
      * injection Hrun as <- <-. left. exact Hc.
      * injection Hrun as <- <-. simpl in Hc.
        destruct (String.eqb_spec p (analysis_file_of rp0)) as [-> | Hne].
        -- rewrite lookup_insert_eq in Hc. injection Hc as <-.
           right. exists rp0, r0, ev0.
           split; [left; reflexivity | split; [reflexivity | split; [exact Hr0 |]]].
           right. exists written. eexists. split; [reflexivity | split; [exact Hw0 | reflexivity]].
        -- rewrite lookup_insert_ne in Hc by congruence. left. exact Hc.
Qed.

(** X15.  What a batch leaves in the files.  After a batch, every file is
    a file that was there before, with the content it had, or the report
    of a selected repository at [<repo_path>_tools.json].  The report is
    a JSON object with [repo_name] the repository path, [tools_count] the
    number of entries of [tools], and in [tools] one object per analyzed
    tool with the extractor's five keys followed by [file_path] and
    [analysis]; it is there in full, or, only in a batch that raised
    because the dump of that report failed, cut off after the characters
    written until then. *)
Theorem batch_writes_reports (env : Env) (csv_path : string)
  (language_filter : option string) (w : world) (p : string) (c : content) :
  files (fst (analyze_repos env csv_path language_filter w)) !! p = Some c ->
  files w !! p = Some c
  \/ exists rp r events,
       In rp (read_repos_from_csv env csv_path language_filter)
       /\ p = rp +:+ "_tools.json"
       /\ analyze_repo env rp "Python" = Ok (r, events)
       /\ (let document :=
             JObj [ ("repo_name", JStr rp);
                    ("tools_count", JInt (Z.of_nat (length (tools r))));
                    ("tools", JArr (map json_of_tool (tools r))) ] in
           c = Document document
           \/ exists written msg,
                snd (analyze_repos env csv_path language_filter w) = Exception msg
                /\ write_report env p = DumpFails written
                /\ c = CutOff document written)
       /\ Forall (fun t => exists fp a,
                     json_of_tool t
                     = JObj (extractor_members t
                             ++ [("file_path", JStr fp); ("analysis", JStr a)]))
                 (tools r).
Proof.
  unfold analyze_repos.
  destruct (isfile env csv_path); simpl; [| intros H; left; exact H].
  destruct (read_repos_from_csv env csv_path language_filter) as [|rp0 rest] eqn:Hread;
    [intros H; left; exact H |].
  destruct (batch_loop env (rp0 :: rest) w) as [w' res] eqn:Hrun. simpl.
  intros Hc.
  destruct (batch_loop_written env _ _ _ _ Hrun p c Hc)
    as [H | (rp & r & ev & Hin & -> & Hr & Hcase)]; [left; exact H |].
  right. exists rp, r, ev.
  destruct (analyze_repo_report env rp "Python" r ev Hr) as [Hname Hcount].
  assert (Hdoc : json_of_report r
                 = JObj [ ("repo_name", JStr rp);
                          ("tools_count", JInt (Z.of_nat (length (tools r))));
                          ("tools", JArr (map json_of_tool (tools r))) ])
    by (unfold json_of_report; rewrite Hname, Hcount; reflexivity).
  split; [exact Hin | split; [reflexivity | split; [exact Hr | split]]].
  - rewrite <- Hdoc.
    destruct Hcase as [-> | (written & msg & -> & Hw & ->)]; [left; reflexivity |].
    right. exists written, msg. split; [reflexivity | split; [exact Hw | reflexivity]].
  - apply List.Forall_forall. intros t Ht.
    destruct (report_tool_tagged env rp "Python" r ev t Hr Ht) as (fp & a & Hfp & Ha).
    exists fp, a. unfold json_of_tool. rewrite Hfp, Ha. reflexivity.
Qed.

Lemma batch_writes_reports_witness :
  exists c,
    files (fst (analyze_repos Sample.env "repos.csv" (Some "Go") Sample.world_done))
      !! "mcp_repos/acme_server_tools.json" = Some c
    /\ exists r,
         c = Document (JObj [ ("repo_name", JStr "mcp_repos/acme_server");
                              ("tools_count", JInt (Z.of_nat (length (tools r))));
                              ("tools", JArr (map json_of_tool (tools r))) ]).
Proof.
  destruct (files (fst (analyze_repos Sample.env "repos.csv" (Some "Go") Sample.world_done))
              !! "mcp_repos/acme_server_tools.json") as [c |] eqn:Hc;
    [| vm_compute in Hc; discriminate].
  exists c. split; [reflexivity |].
  destruct (batch_writes_reports Sample.env "repos.csv" (Some "Go") Sample.world_done
              "mcp_repos/acme_server_tools.json" c Hc)
    as [H | (rp & r & ev & Hin & Hp & _ & Hdoc & _)].
  - vm_compute in H. discriminate.
  - destruct Hin as [<- | []]. exists r.
    destruct Hdoc as [Hdoc | (written & msg & _ & Hw & _)]; [exact Hdoc |].
    cbv in Hw. discriminate.
Defined.

(** ** The test parameters of [sse_tool.py] *)

Section TestParameters.
Import SseTool.

Lemma lookup_absent (d : list (string * value)) (k : string) :
  ~ In k (map fst d) -> lookup d k = None.
Proof.
  induction d as [|[k' v] d IH]; simpl; intros Hn; [reflexivity|].
  destruct (String.eqb_spec k' k) as [->|Hne]; [tauto|].
  apply IH. tauto.
Qed.

Lemma lookup_present (d : list (string * value)) (k : string) (v : value) :
  lookup d k = Some v -> In (k, v) d.
Proof.
  induction d as [|[k' v'] d IH]; simpl; [discriminate|].
  destruct (String.eqb_spec k' k) as [->|Hne]; intros H.
  - injection H as ->. auto.
  - auto.
Qed.

Lemma lookup_app (d d' : list (string * value)) (k : string) :
  lookup (d ++ d') k = match lookup d k with Some v => Some v | None => lookup d' k end.
Proof.
  induction d as [|[k' v'] d IH]; simpl; [reflexivity|].
  destruct (String.eqb k' k); auto.
Qed.

Lemma set_fresh (d : list (string * value)) (k : string) (v : value) :
  lookup d k = None -> set d k v = d ++ [(k, v)].
Proof.
  induction d as [|[k' v'] d IH]; simpl; [reflexivity|].
  destruct (String.eqb k' k); [discriminate|].
  intros H. rewrite IH; auto.
Qed.

Lemma fill_spec (above : nat -> bool) (required : value) :
  forall props acc draws params,
    NoDup (map fst props) ->
    (forall k, In k (map fst props) -> lookup acc k = None) ->
    fill above required props acc draws = Return params ->
    exists added,
      params = acc ++ added /\
      map fst added `sublist_of` map fst props /\
      forall name v, In (name, v) props ->
        exists spec t b ov drew,
          v = VDict spec /\ resolve_type spec = Return t /\
          test_value b spec t = Return (ov, drew) /\ lookup added name = ov.
Proof.
  induction props as [|[n s] rest IH]; intros acc draws params Hnd Hfresh Hfill.
  - simpl in Hfill. injection Hfill as <-. exists []. rewrite app_nil_r.
    split; [reflexivity|]. split; [constructor|]. intros ? ? [].
  - simpl in Hfill. simpl in Hnd. apply NoDup_cons in Hnd as [Hn Hnd].
    destruct (is_in n required); [|discriminate].
    destruct s as [| | | | | |spec]; try discriminate.
    destruct (resolve_type spec) as [t|] eqn:Ht; [|discriminate].
    destruct (test_value (above draws) spec t) as [[[v|] drew]|] eqn:Hv; [| |discriminate].
    + rewrite set_fresh in Hfill by (apply Hfresh; simpl; auto).
      apply IH in Hfill as (added & -> & Hsub & Hall); [|exact Hnd|].
      * exists ((n, v) :: added). split; [now rewrite <- app_assoc|].
        split; [simpl; now constructor|].
        intros name v' [Heq|Hin].
        -- injection Heq as <- <-. exists spec, t, (above draws), (Some v), drew.
           simpl. rewrite String.eqb_refl. auto.
        -- destruct (Hall _ _ Hin) as (spec' & t' & b & ov & drew' & ? & ? & ? & Hl).
           exists spec', t', b, ov, drew'. repeat (split; [assumption|]).
           simpl. destruct (String.eqb_spec n name) as [->|Hne]; [|exact Hl].
           exfalso. apply Hn. apply list_elem_of_In. apply in_map_iff.
           now exists (name, v').
      * intros k Hk. rewrite lookup_app, Hfresh by (simpl; auto). simpl.
        destruct (String.eqb_spec n k) as [->|Hne]; [|reflexivity].
        exfalso. apply Hn. now apply list_elem_of_In.
    + apply IH in Hfill as (added & -> & Hsub & Hall); [|exact Hnd|].
      * exists added. split; [reflexivity|].
        split; [simpl; now constructor|].
        intros name v' [Heq|Hin]; [|now apply Hall].
        injection Heq as <- <-. exists spec, t, (above draws), None, drew.
        repeat (split; [assumption || reflexivity|]).
        apply lookup_absent. intros Hin. apply Hn.
        apply list_elem_of_In in Hin.
        exact (elem_of_sublist _ _ _ Hin Hsub).
      * intros k Hk. apply Hfresh. simpl. auto.
Qed.

Lemma generate_fill (above : nat -> bool) (entries props : list (string * value)) :
  lookup entries "properties" = Some (VDict props) ->
  generate_test_parameters above (VDict entries)
  = fill above (get entries "required" (VList [])) props [] 0.
Proof.
  intros Hp. unfold generate_test_parameters, get. rewrite Hp.
  destruct entries; [discriminate|]. reflexivity.
Qed.

Lemma test_value_valued (b : bool) (spec : list (string * value)) (t : value)
  (ov : option value) (drew : bool) :
  test_value b spec t = Return (ov, drew) -> (valued_type t = true <-> ov <> None).
Proof.
  unfold test_value, valued_type.
  destruct (equals_str t "string"); [intros [= <- <-]; simpl; split; [discriminate|auto]|].
  destruct (equals_str t "integer"); [intros [= <- <-]; simpl; split; [discriminate|auto]|].
  destruct (equals_str t "number"); [intros [= <- <-]; simpl; split; [discriminate|auto]|].
  destruct (equals_str t "array").
  { destruct b; intros [= <- <-]; simpl; split; (discriminate || auto). }
  destruct (equals_str t "object").
  { destruct (get spec "properties" (VDict [])); try discriminate.
    intros [= <- <-]; simpl; split; (discriminate || auto). }
  intros [= <- <-]. simpl. split; [discriminate|congruence].
Qed.

Lemma equals_str_eq (v : value) (s : string) : equals_str v s = true <-> v = VStr s.
Proof.
  destruct v; simpl; try (split; discriminate).
  split; [intros H; apply String.eqb_eq in H; now subst|].
  intros [= ->]. apply String.eqb_refl.
Qed.

(** X16.  When the generator returns, the parameters it gives are those
    properties of the schema whose type, after [anyOf], is string, integer,
    number, array or object, in the order of the schema; every property is
    then a dict whose type could be resolved, and a property of any other
    type (boolean, null, none) gets no value. *)
Theorem generated_parameter_names (above : nat -> bool)
  (entries props params : list (string * value)) :
  lookup entries "properties" = Some (VDict props) ->
  NoDup (map fst props) ->
  generate_test_parameters above (VDict entries) = Return params ->
  map fst params `sublist_of` map fst props /\
  forall name v, In (name, v) props ->
    exists spec t,
      v = VDict spec /\ resolve_type spec = Return t /\
      (valued_type t = true <-> lookup params name <> None).
Proof.
  intros Hp Hnd Hgen. rewrite (generate_fill _ _ _ Hp) in Hgen.
  apply fill_spec in Hgen as (added & -> & Hsub & Hall); [|exact Hnd|reflexivity].
  simpl. split; [exact Hsub|].
  intros name v Hin.
  destruct (Hall _ _ Hin) as (spec & t & b & ov & drew & -> & Ht & Hv & Hl).
  exists spec, t. split; [reflexivity|]. split; [exact Ht|].
  rewrite Hl. exact (test_value_valued _ _ _ _ _ Hv).
Qed.

Lemma generated_parameter_names_witness :
  generate_test_parameters (fun _ => false) (sample_schema (VList [VStr "user"]))
  = Return [("user", VStr "admin"); ("count", VInt 5)] /\
  map fst [("user", VStr "admin"); ("count", VInt 5)]
    `sublist_of` map fst sample_properties.
Proof.
  split; [reflexivity|].
  refine (proj1 (generated_parameter_names (fun _ => false)
                   (sample_entries (VList [VStr "user"])) sample_properties _ _ _ _)).
  - reflexivity.
  - apply (bool_decide_unpack _). vm_compute. exact I.
  - reflexivity.
Defined.

(** X17.  When the generator returns, a string parameter has the value
    [admin]; an integer or number parameter has the default of its schema,
    whatever that is, and -1 when there is none or it is null; an array
    parameter has one of two fixed lists; an object parameter has a dict
    with the keys of its own properties, each with the value
    [test_value]. *)
Theorem generated_parameter_values (above : nat -> bool)
  (entries props params spec : list (string * value)) (name : string) (t : value) :
  lookup entries "properties" = Some (VDict props) ->
  NoDup (map fst props) ->
  generate_test_parameters above (VDict entries) = Return params ->
  In (name, VDict spec) props ->
  resolve_type spec = Return t ->
  (t = VStr "string" -> lookup params name = Some (VStr "admin")) /\
  (t = VStr "integer" ->
     lookup params name
     = Some (match lookup spec "default" with
             | Some VNone | None => VInt (-1)
             | Some default => default
             end)) /\
  (t = VStr "number" ->
     lookup params name
     = Some (match lookup spec "default" with
             | Some VNone | None => VFloat (-1)
             | Some default => default
             end)) /\
  (t = VStr "array" ->
     lookup params name = Some (VList [VInt (-1); VInt 4294967296]) \/
     lookup params name = Some (VList [VStr "'"; VStr ">"])) /\
  (t = VStr "object" ->
     exists sub,
       get spec "properties" (VDict []) = VDict sub /\
       lookup params name = Some (VDict (map (fun kv => (fst kv, VStr "test_value")) sub))).
Proof.
  intros Hp Hnd Hgen Hin Ht. rewrite (generate_fill _ _ _ Hp) in Hgen.
  apply fill_spec in Hgen as (added & -> & Hsub & Hall); [|exact Hnd|reflexivity].
  simpl.
  destruct (Hall _ _ Hin) as (spec' & t' & b & ov & drew & Heq & Ht' & Hv & Hl).
  injection Heq as <-. rewrite Ht in Ht'. injection Ht' as <-.
  rewrite Hl. clear Hl Hall Hsub.
  repeat split; intros ->; unfold test_value, get in Hv; simpl in Hv.
  - now injection Hv as <- _.
  - injection Hv as <- _. destruct (lookup spec "default") as [[]|]; reflexivity.
  - injection Hv as <- _. destruct (lookup spec "default") as [[]|]; reflexivity.
  - destruct b; injection Hv as <- _; auto.
  - unfold get. destruct (lookup spec "properties") as [[]|]; try discriminate.
    + injection Hv as <- _. eauto.
    + injection Hv as <- _. eauto.
Qed.

Lemma generated_parameter_values_witness :
  resolve_type [("anyOf", VList [VDict [("type", VStr "null")];
                                 VDict [("type", VStr "integer")]]);
                ("default", VInt 5)] = Return (VStr "integer") /\
  lookup [("user", VStr "admin"); ("count", VInt 5)] "count" = Some (VInt 5).
Proof.
  split; [reflexivity|].
  refine (proj1 (proj2 (generated_parameter_values (fun _ => false)
            (sample_entries (VList [])) sample_properties _
            [("anyOf", VList [VDict [("type", VStr "null")];
                              VDict [("type", VStr "integer")]]);
             ("default", VInt 5)] "count" (VStr "integer") _ _ _ _ _))
          eq_refl).
  - reflexivity.
  - apply (bool_decide_unpack _). vm_compute. exact I.
  - reflexivity.
  - simpl. auto.
  - reflexivity.
Defined.

Lemma fill_required (above : nat -> bool) (r1 r2 : value) :
  iterable r1 = true -> iterable r2 = true ->
  forall props acc draws, fill above r1 props acc draws = fill above r2 props acc draws.
Proof.
  intros H1 H2. induction props as [|[n s] rest IH]; intros acc draws; [reflexivity|].
  simpl.
  assert (Hr : forall r, iterable r = true -> exists b, is_in n r = Return b).
  { intros [] Hr; try discriminate; simpl; eauto. }
  destruct (Hr _ H1) as [b1 ->]. destruct (Hr _ H2) as [b2 ->].
  destruct s; try reflexivity.
  destruct (resolve_type entries); [|reflexivity].
  destruct (test_value (above draws) entries a) as [[[v|] drew]|]; auto.
Qed.

Lemma generate_cases (above : nat -> bool) (entries : list (string * value)) :
  generate_test_parameters above (VDict entries)
  = match lookup entries "properties" with
    | None => Return []
    | Some (VDict props) => fill above (get entries "required" (VList [])) props [] 0
    | Some _ => Raise "AttributeError: object has no attribute 'items'"
    end.
Proof.
  unfold generate_test_parameters, get at 1.
  destruct entries as [|e entries]; [reflexivity|].
  cbn [truthy is_dict negb orb].
  destruct (lookup (e :: entries) "properties") as [[]|]; reflexivity.
Qed.

(** X18.  Of a schema the generator reads only [properties]: two schemas
    with the same [properties] give the same result, whatever else they
    hold and whichever parameters they require, as long as [required] is
    a list, a dict or a string where it is given. *)
Theorem only_properties_matter (above : nat -> bool) (schema1 schema2 : list (string * value)) :
  lookup schema1 "properties" = lookup schema2 "properties" ->
  iterable (get schema1 "required" (VList [])) = true ->
  iterable (get schema2 "required" (VList [])) = true ->
  generate_test_parameters above (VDict schema1)
  = generate_test_parameters above (VDict schema2).
Proof.
  intros Hp H1 H2. rewrite !generate_cases, Hp.
  destruct (lookup schema2 "properties") as [[]|]; try reflexivity.
  now apply fill_required.
Qed.

Lemma only_properties_matter_witness :
  generate_test_parameters (fun _ => false) (sample_schema (VList [VStr "user"; VStr "force"]))
  = generate_test_parameters (fun _ => false) (sample_schema (VList [])).
Proof.
  apply only_properties_matter; reflexivity.
Defined.

(** X19.  A schema whose [required] is given and is neither a list, a
    dict nor a string (null, a number, a boolean) makes the generator
    raise as soon as the schema has one property, although the outcome of
    the membership test is never used; with no property it returns the
    empty dict. *)
Theorem required_must_be_iterable (above : nat -> bool)
  (schema props : list (string * value)) (required : value) :
  lookup schema "required" = Some required ->
  iterable required = false ->
  lookup schema "properties" = Some (VDict props) ->
  match props with
  | [] => generate_test_parameters above (VDict schema) = Return []
  | _ :: _ => exists e, generate_test_parameters above (VDict schema) = Raise e
  end.
Proof.
  intros Hr Hit Hp. rewrite generate_cases, Hp. unfold get. rewrite Hr.
  destruct props as [|[n s] rest]; [reflexivity|].
  simpl. destruct required; try discriminate; simpl; eauto.
Qed.

Lemma required_must_be_iterable_witness :
  exists e, generate_test_parameters (fun _ => false) (sample_schema VNone) = Raise e.
Proof.
  apply (required_must_be_iterable (fun _ => false) (sample_entries VNone)
           sample_properties VNone); reflexivity.
Defined.

Lemma main_type_returns (options : list value) (param_type : value) :
  Forall (fun o => is_dict o = true) options ->
  exists t, main_type options param_type = Return t.
Proof.
  induction 1 as [|o options Ho _ IH]; simpl; [eauto|].
  destruct o; try discriminate.
  destruct (truthy _ && negb _); eauto.
Qed.

Lemma plain_spec_value (b : bool) (v : value) :
  plain_spec v ->
  exists spec t ov drew,
    v = VDict spec /\ resolve_type spec = Return t /\ test_value b spec t = Return (ov, drew).
Proof.
  intros (spec & -> & Hany & Hsub).
  assert (Ht : exists t, resolve_type spec = Return t).
  { unfold resolve_type. destruct (lookup spec "anyOf") as [any_of|] eqn:Ha; [|eauto].
    destruct (Hany _ eq_refl) as (options & -> & Hall). simpl.
    now apply main_type_returns. }
  destruct Ht as [t Ht]. exists spec, t.
  assert (Hv : exists r, test_value b spec t = Return r).
  { unfold test_value.
    destruct (equals_str t "string"); [eauto|].
    destruct (equals_str t "integer"); [eauto|].
    destruct (equals_str t "number"); [eauto|].
    destruct (equals_str t "array"); [destruct b; eauto|].
    destruct (equals_str t "object"); [|eauto].
    unfold get. destruct (lookup spec "properties") as [sub|] eqn:Hs; [|eauto].
    specialize (Hsub _ eq_refl). destruct sub; try discriminate. eauto. }
  destruct Hv as [[ov drew] Hv]. exists ov, drew. auto.
Qed.

Lemma fill_returns (above : nat -> bool) (required : value) :
  iterable required = true ->
  forall props acc draws,
    Forall (fun p => plain_spec (snd p)) props ->
    exists params, fill above required props acc draws = Return params.
Proof.
  intros Hit. induction props as [|[n s] rest IH]; intros acc draws Hall; simpl; [eauto|].
  apply Forall_cons in Hall as [Hs Hall]. simpl in Hs.
  assert (Hr : exists b, is_in n required = Return b)
    by (destruct required; try discriminate; simpl; eauto).
  destruct Hr as [b ->].
  destruct (plain_spec_value (above draws) s Hs) as (spec & t & ov & drew & -> & -> & ->).
  destruct ov; apply IH; exact Hall.
Qed.

(** X20.  The generator never raises on a schema written as JSON Schema
    has it: [required] a list, a dict or a string where it is given,
    [properties] a dict where it is given, every property a dict whose
    [anyOf] is a list of dicts and whose own [properties] is a dict.
    A value that is not a dict, or an empty one, gives the empty dict. *)
Theorem plain_schema_gives_parameters (above : nat -> bool) (tool_schema : value) :
  (forall schema, tool_schema = VDict schema ->
     iterable (get schema "required" (VList [])) = true /\
     exists props,
       get schema "properties" (VDict []) = VDict props /\
       Forall (fun p => plain_spec (snd p)) props) ->
  (exists params, generate_test_parameters above tool_schema = Return params) /\
  (is_dict tool_schema = false \/ tool_schema = VDict [] ->
   generate_test_parameters above tool_schema = Return []).
Proof.
  intros Hplain. split.
  - destruct tool_schema as [| | | | | |schema]; try (eexists; reflexivity).
    + unfold generate_test_parameters. simpl. destruct (negb b); eauto.
    + unfold generate_test_parameters. simpl. rewrite orb_true_r. eauto.
    + unfold generate_test_parameters. simpl. rewrite orb_true_r. eauto.
    + unfold generate_test_parameters. simpl. rewrite orb_true_r. eauto.
    + unfold generate_test_parameters. simpl. rewrite orb_true_r. eauto.
    + destruct (Hplain _ eq_refl) as (Hit & props & Hp & Hall).
      unfold generate_test_parameters. rewrite Hp.
      destruct schema; simpl; [eauto|].
      now apply fill_returns.
  - intros [Hd | ->]; [|reflexivity].
    unfold generate_test_parameters. rewrite Hd. simpl. now rewrite orb_true_r.
Qed.

Lemma plain_schema_gives_parameters_witness :
  exists params,
    generate_test_parameters (fun _ => true)
      (VDict [("properties", VDict [("ids", VDict [("type", VStr "array")])])])
    = Return params.
Proof.
  refine (proj1 (plain_schema_gives_parameters (fun _ => true) _ _)).
  intros schema [= <-]. split; [reflexivity|].
  eexists. split; [reflexivity|].
  repeat constructor. simpl. eexists. split; [reflexivity|].
  split; intros ? [=].
Defined.

End TestParameters.
